(** * Sweet Kitty Bakery: the cart of [js/app.js]

    A shallow embedding of the price helpers, the [Producto] entity and the
    [Carrito] store of [js/app.js], of the id generator, the examples of the
    rubric, the discovery of the products of a page and the handlers of the
    cart controls, with the parts of the JavaScript run time they call:
    conversions between values, [parseFloat], [toFixed], [JSON.parse],
    [JSON.stringify], an insertion-ordered [Map], [localStorage] and
    [console.error].

    Conventions of the model.
    - A JavaScript string is the list of its UTF-16 code units.
    - A finite number is an exact decimal fraction [m / 10^k]: every binary64
      value and every numeric literal is one, and so are the sums, the
      differences and the products the code computes, and its quotients by
      100.  Rounding to binary64, overflow to [Infinity] and the sign of
      zero are not modelled.
    - An array or an object carries the reference it is compared by.
    - Code that can throw runs in a state-and-exception monad over the cart
      and its environment.
    - The document is not modelled: a function that works on the page takes
      what it reads from the page as an argument, and the model has what it
      does to the cart and to the map of the products. *)

From Stdlib Require Import String Ascii ZArith NArith Bool Lia Arith List.
Import ListNotations.

Local Open Scope Z_scope.

(** ** Strings *)

Definition char := N.
Definition jsstring := list char.

(** The code units of an ASCII literal. *)
Definition str (s : string) : jsstring :=
  map N_of_ascii (list_ascii_of_string s).

(** The same, with every apostrophe standing for a double quote: a readable
    way to write JSON text. *)
Definition jsq (s : string) : jsstring :=
  map (fun c => if N.eqb c 39 then 34%N else c) (str s).

Fixpoint streq (a b : jsstring) : bool :=
  match a, b with
  | [], [] => true
  | x :: a', y :: b' => N.eqb x y && streq a' b'
  | _, _ => false
  end.

Fixpoint starts_with (p s : jsstring) : bool :=
  match p, s with
  | [], _ => true
  | x :: p', y :: s' => N.eqb x y && starts_with p' s'
  | _ :: _, [] => false
  end.

Fixpoint drop_while (f : char -> bool) (s : jsstring) : jsstring :=
  match s with
  | c :: s' => if f c then drop_while f s' else s
  | [] => []
  end.

Fixpoint take_while (f : char -> bool) (s : jsstring) : jsstring :=
  match s with
  | c :: s' => if f c then c :: take_while f s' else []
  | [] => []
  end.

Definition is_digit (c : char) : bool := (N.leb 48 c && N.leb c 57)%N.

(** WhiteSpace and LineTerminator of ECMAScript (StrWhiteSpaceChar). *)
Definition is_space (c : char) : bool :=
  existsb (N.eqb c)
    [9; 10; 11; 12; 13; 32; 160; 5760; 8192; 8193; 8194; 8195; 8196; 8197;
     8198; 8199; 8200; 8201; 8202; 8232; 8233; 8239; 8287; 12288; 65279]%N.

(** ** Numbers *)

(** [Dec m k] is the number [m / 10^k]. *)
Record decimal := Dec { dmant : Z; dscale : nat }.

(** The representative with the least scale. *)
Fixpoint dnorm_aux (m : Z) (k : nat) : decimal :=
  match k with
  | O => Dec m O
  | S k' => if Z.eqb (m mod 10) 0 then dnorm_aux (m / 10) k' else Dec m k
  end.

Definition dnorm (d : decimal) : decimal := dnorm_aux (dmant d) (dscale d).

Definition pow10 (k : nat) : Z := 10 ^ Z.of_nat k.

Definition dadd (a b : decimal) : decimal :=
  let k := Nat.max (dscale a) (dscale b) in
  dnorm (Dec (dmant a * pow10 (k - dscale a) + dmant b * pow10 (k - dscale b)) k).

Definition dmul (a b : decimal) : decimal :=
  dnorm (Dec (dmant a * dmant b) (dscale a + dscale b)).

Definition dleb (a b : decimal) : bool :=
  dmant a * pow10 (dscale b) <=? dmant b * pow10 (dscale a).

Definition dltb (a b : decimal) : bool :=
  dmant a * pow10 (dscale b) <? dmant b * pow10 (dscale a).

Definition deqb (a b : decimal) : bool :=
  dmant a * pow10 (dscale b) =? dmant b * pow10 (dscale a).

Definition dsign (a : decimal) : Z := Z.sgn (dmant a).

Definition dint (n : Z) : decimal := Dec n 0.

(** A Number value: NaN, an infinity ([Inf true] is [-Infinity]) or a finite
    number. *)
Inductive number :=
| NaN
| Inf (neg : bool)
| Fin (d : decimal).

Definition num (n : Z) : number := Fin (dint n).

(** Number::add, on the exact values: the sum is not rounded to binary64 and
    does not overflow to an infinity. *)
Definition num_add (a b : number) : number :=
  match a, b with
  | NaN, _ | _, NaN => NaN
  | Inf s, Inf t => if Bool.eqb s t then Inf s else NaN
  | Inf s, Fin _ | Fin _, Inf s => Inf s
  | Fin x, Fin y => Fin (dadd x y)
  end.

(** Number::multiply, on the exact values: the product is not rounded to
    binary64 and does not overflow to an infinity. *)
Definition num_mul (a b : number) : number :=
  match a, b with
  | NaN, _ | _, NaN => NaN
  | Inf s, Inf t => Inf (xorb s t)
  | Inf s, Fin x | Fin x, Inf s =>
      match dsign x with
      | 0 => NaN
      | Zpos _ => Inf s
      | Zneg _ => Inf (negb s)
      end
  | Fin x, Fin y => Fin (dmul x y)
  end.

(** Number::lessThan, [None] for the undefined result (an operand is NaN). *)
Definition num_lt (a b : number) : option bool :=
  match a, b with
  | NaN, _ | _, NaN => None
  | Inf s, Inf t => Some (s && negb t)
  | Inf s, Fin _ => Some s
  | Fin _, Inf t => Some (negb t)
  | Fin x, Fin y => Some (dltb x y)
  end.

(** Number::sameValueZero. *)
Definition num_same (a b : number) : bool :=
  match a, b with
  | NaN, NaN => true
  | Inf s, Inf t => Bool.eqb s t
  | Fin x, Fin y => deqb x y
  | _, _ => false
  end.

(** ** Decimal digits *)

Definition digit_char (d : N) : char := (48 + d)%N.
Definition digit_val (c : char) : N := (c - 48)%N.

Fixpoint digits_fuel (fuel : nat) (n : N) (acc : jsstring) : jsstring :=
  match fuel with
  | O => acc
  | S f =>
      if (n <? 10)%N then digit_char n :: acc
      else digits_fuel f (n / 10)%N (digit_char (n mod 10)%N :: acc)
  end.

(** The decimal digits of [n], most significant first. *)
Definition digits (n : N) : jsstring := digits_fuel (S (N.size_nat n)) n [].

(** The number a run of decimal digits writes. *)
Definition digits_value (ds : jsstring) : N :=
  fold_left (fun a c => (10 * a + digit_val c)%N) ds 0%N.

Definition is_zero_char (c : char) : bool := N.eqb c 48.

Definition strip_zeros_end (ds : jsstring) : jsstring :=
  rev (drop_while is_zero_char (rev ds)).

Definition zeros (n : nat) : jsstring := repeat 48%N n.

(** Number::toString(x) in radix 10: [s] are the significant digits, [n] the
    position of the decimal point after the first of them. *)
Definition Number_toString (x : number) : jsstring :=
  match x with
  | NaN => str "NaN"
  | Inf false => str "Infinity"
  | Inf true => str "-Infinity"
  | Fin d =>
      let c := dnorm d in
      let m := dmant c in
      if m =? 0 then str "0" else
      let sign := if m <? 0 then str "-" else [] in
      let ds := digits (Z.abs_N m) in
      let n := Z.of_nat (length ds) - Z.of_nat (dscale c) in
      let s := strip_zeros_end ds in
      let k := Z.of_nat (length s) in
      sign ++
      (if (k <=? n) && (n <=? 21) then s ++ zeros (Z.to_nat (n - k))
       else if (0 <? n) && (n <=? 21) then
         firstn (Z.to_nat n) s ++ str "." ++ skipn (Z.to_nat n) s
       else if (-6 <? n) && (n <=? 0) then
         str "0." ++ zeros (Z.to_nat (- n)) ++ s
       else
         let e := n - 1 in
         let es := (if e <? 0 then str "-" else str "+") ++ digits (Z.abs_N e) in
         match s with
         | [] => []
         | [d1] => d1 :: str "e" ++ es
         | d1 :: rest => d1 :: str "." ++ rest ++ str "e" ++ es
         end)
  end.

(** The number written by the digits [ip] before the point, the digits [fp]
    after it and the decimal exponent [e]. *)
Definition make_decimal (neg : bool) (ip fp : jsstring) (e : Z) : decimal :=
  let m := Z.of_N (digits_value (ip ++ fp)) in
  let m := if neg then - m else m in
  let e' := e - Z.of_nat (length fp) in
  if 0 <=? e' then dnorm (Dec (m * 10 ^ e') 0) else dnorm (Dec m (Z.to_nat (- e'))).

(** ** Numeric literals *)

Definition num_neg (n : number) : number :=
  match n with
  | NaN => NaN
  | Inf s => Inf (negb s)
  | Fin d => Fin (Dec (- dmant d) (dscale d))
  end.

(** An optional sign: whether it is [-], and the text after it. *)
Definition scan_sign (s : jsstring) : bool * jsstring :=
  match s with
  | c :: t =>
      if N.eqb c 43 then (false, t)
      else if N.eqb c 45 then (true, t)
      else (false, s)
  | [] => (false, s)
  end.

(** ExponentPart, when one follows: its value and the text after it. *)
Definition scan_exponent (s : jsstring) : Z * jsstring :=
  match s with
  | c :: s1 =>
      if N.eqb c 101 || N.eqb c 69 then
        let '(neg, s2) := scan_sign s1 in
        match take_while is_digit s2 with
        | [] => (0, s)
        | ds =>
            let v := Z.of_N (digits_value ds) in
            (if neg then - v else v, drop_while is_digit s2)
        end
      else (0, s)
  | [] => (0, s)
  end.

(** The text after a decimal point, when [s] starts with one. *)
Definition after_point (s : jsstring) : option jsstring :=
  match s with
  | c :: t => if N.eqb c 46 then Some t else None
  | [] => None
  end.

(** The longest prefix that is a StrUnsignedDecimalLiteral. *)
Definition scan_unsigned (s : jsstring) : option (number * jsstring) :=
  if starts_with (str "Infinity") s then Some (Inf false, skipn 8 s) else
  let ip := take_while is_digit s in
  let s1 := drop_while is_digit s in
  match after_point s1 with
  | Some s2 =>
      let fp := take_while is_digit s2 in
      let s3 := drop_while is_digit s2 in
      match ip, fp with
      | [], [] => None
      | _, _ =>
          let '(e, s4) := scan_exponent s3 in
          Some (Fin (make_decimal false ip fp e), s4)
      end
  | None =>
      match ip with
      | [] => None
      | _ =>
          let '(e, s4) := scan_exponent s1 in
          Some (Fin (make_decimal false ip [] e), s4)
      end
  end.

(** The longest prefix that is a StrDecimalLiteral. *)
Definition scan_decimal (s : jsstring) : option (number * jsstring) :=
  let '(neg, t) := scan_sign s in
  match scan_unsigned t with
  | Some (n, r) => Some (if neg then num_neg n else n, r)
  | None => None
  end.

(** parseFloat applied to a string: the exact decimal that the literal
    writes, not rounded to binary64, finite whatever its length. *)
Definition parseFloat (s : jsstring) : number :=
  match scan_decimal (drop_while is_space s) with
  | Some (n, _) => n
  | None => NaN
  end.

Definition trim (s : jsstring) : jsstring :=
  rev (drop_while is_space (rev (drop_while is_space s))).

Definition radix_digit (radix : N) (c : char) : option N :=
  let d :=
    if is_digit c then Some (c - 48)%N
    else if (N.leb 97 c && N.leb c 102)%N then Some (c - 87)%N
    else if (N.leb 65 c && N.leb c 70)%N then Some (c - 55)%N
    else None in
  match d with
  | Some v => if (v <? radix)%N then Some v else None
  | None => None
  end.

Fixpoint radix_value (radix : N) (s : jsstring) (acc : N) : option N :=
  match s with
  | [] => Some acc
  | c :: s' =>
      match radix_digit radix c with
      | Some d => radix_value radix s' (radix * acc + d)%N
      | None => None
      end
  end.

(** NonDecimalIntegerLiteral: the digits after [0x], [0o] or [0b]. *)
Definition non_decimal (radix : N) (ds : jsstring) : number :=
  match ds with
  | [] => NaN
  | _ =>
      match radix_value radix ds 0 with
      | Some v => num (Z.of_N v)
      | None => NaN
      end
  end.

Definition decimal_literal (t : jsstring) : number :=
  match scan_decimal t with
  | Some (n, []) => n
  | _ => NaN
  end.

(** StringToNumber. *)
Definition StringToNumber (s : jsstring) : number :=
  match trim s with
  | [] => num 0
  | z :: c :: ds =>
      if N.eqb z 48 && (N.eqb c 120 || N.eqb c 88) then non_decimal 16 ds
      else if N.eqb z 48 && (N.eqb c 111 || N.eqb c 79) then non_decimal 8 ds
      else if N.eqb z 48 && (N.eqb c 98 || N.eqb c 66) then non_decimal 2 ds
      else decimal_literal (z :: c :: ds)
  | t => decimal_literal t
  end.

(** ** Completions *)

Inductive exn :=
| SyntaxError
| TypeError
| SecurityError
| QuotaExceededError.

(** The outcome of an operation: a value, or an exception thrown. *)
Inductive result (A : Type) :=
| Ok (a : A)
| Throw (e : exn).

Arguments Ok {A} a.
Arguments Throw {A} e.

Definition rbind {A B} (r : result A) (k : A -> result B) : result B :=
  match r with
  | Ok a => k a
  | Throw e => Throw e
  end.

Declare Scope result_scope.
Delimit Scope result_scope with result.
Notation "x <-- r ;;; k" := (rbind r (fun x => k))
  (at level 61, r at next level, right associativity) : result_scope.

(** ** Values *)

Definition ref := N.

#[local] Set Warnings "-register-all".

(** The values of JSON, [undefined], and the numbers JSON cannot write.  The
    properties of an object are its own, in the order of
    OrdinaryOwnPropertyKeys; its prototype is Object.prototype. *)
Inductive value :=
| VUndefined
| VNull
| VBool (b : bool)
| VNum (n : number)
| VStr (s : jsstring)
| VArr (r : ref) (elems : list value)
| VObj (r : ref) (props : list (jsstring * value)).

Fixpoint props_has {A} (k : jsstring) (ps : list (jsstring * A)) : bool :=
  match ps with
  | [] => false
  | (k', _) :: r => streq k k' || props_has k r
  end.

Fixpoint props_get {A} (k : jsstring) (ps : list (jsstring * A)) : option A :=
  match ps with
  | [] => None
  | (k', v) :: r => if streq k k' then Some v else props_get k r
  end.

(** ToString.  An array joins its elements (Array.prototype.join).  A plain
    object answers with Object.prototype.toString, unless it has a property
    [toString] of its own: no value here is callable, so OrdinaryToPrimitive
    finds no method that returns a primitive and throws a TypeError. *)
Fixpoint ToString (v : value) : result jsstring :=
  match v with
  | VUndefined => Ok (str "undefined")
  | VNull => Ok (str "null")
  | VBool true => Ok (str "true")
  | VBool false => Ok (str "false")
  | VNum n => Ok (Number_toString n)
  | VStr s => Ok s
  | VArr _ l =>
      (fix join (l : list value) : result jsstring :=
         match l with
         | [] => Ok []
         | x :: rest =>
             match (match x with
                    | VUndefined | VNull => Ok []
                    | _ => ToString x
                    end) with
             | Throw e => Throw e
             | Ok t =>
                 match rest with
                 | [] => Ok t
                 | _ =>
                     match join rest with
                     | Ok u => Ok (t ++ 44%N :: u)
                     | Throw e => Throw e
                     end
                 end
             end
         end) l
  | VObj _ ps =>
      if props_has (str "toString") ps then Throw TypeError
      else Ok (str "[object Object]")
  end.

Local Open Scope result_scope.

(** ToPrimitive: [valueOf] of an array or a plain object returns the object,
    so its [toString] decides. *)
Definition ToPrimitive (v : value) : result value :=
  match v with
  | VArr _ _ | VObj _ _ => s <-- ToString v ;;; Ok (VStr s)
  | _ => Ok v
  end.

(** ToNumber of a primitive. *)
Definition prim_to_number (v : value) : number :=
  match v with
  | VUndefined => NaN
  | VNull => num 0
  | VBool true => num 1
  | VBool false => num 0
  | VNum n => n
  | VStr s => StringToNumber s
  | _ => NaN
  end.

Definition ToNumber (v : value) : result number :=
  p <-- ToPrimitive v ;;; Ok (prim_to_number p).

Definition ToBoolean (v : value) : bool :=
  match v with
  | VUndefined | VNull => false
  | VBool b => b
  | VNum NaN => false
  | VNum (Inf _) => true
  | VNum (Fin d) => negb (dmant d =? 0)
  | VStr s => match s with [] => false | _ => true end
  | VArr _ _ | VObj _ _ => true
  end.

Definition is_string (v : value) : bool :=
  match v with VStr _ => true | _ => false end.

(** The binary [+]. *)
Definition js_add (a b : value) : result value :=
  pa <-- ToPrimitive a ;;;
  pb <-- ToPrimitive b ;;;
  if is_string pa || is_string pb then
    sa <-- ToString pa ;;;
    sb <-- ToString pb ;;;
    Ok (VStr (sa ++ sb))
  else Ok (VNum (num_add (prim_to_number pa) (prim_to_number pb))).

(** The binary [*]. *)
Definition js_mul (a b : value) : result number :=
  x <-- ToNumber a ;;;
  y <-- ToNumber b ;;;
  Ok (num_mul x y).

(** Code-unit order on strings. *)
Fixpoint str_lt (a b : jsstring) : bool :=
  match a, b with
  | _, [] => false
  | [], _ :: _ => true
  | x :: a', y :: b' => (x <? y)%N || (N.eqb x y && str_lt a' b')
  end.

(** IsLessThan on primitives: [None] is the undefined result. *)
Definition prim_less (pa pb : value) : option bool :=
  match pa, pb with
  | VStr x, VStr y => Some (str_lt x y)
  | _, _ => num_lt (prim_to_number pa) (prim_to_number pb)
  end.

(** [a <= b]: not [b < a], the operands converted left to right. *)
Definition js_le (a b : value) : result bool :=
  pa <-- ToPrimitive a ;;;
  pb <-- ToPrimitive b ;;;
  Ok (match prim_less pb pa with
      | Some false => true
      | _ => false
      end).

(** [a > b]: [b < a], the operands converted left to right. *)
Definition js_gt (a b : value) : result bool :=
  pa <-- ToPrimitive a ;;;
  pb <-- ToPrimitive b ;;;
  Ok (match prim_less pb pa with
      | Some true => true
      | _ => false
      end).

(** SameValueZero, the equality of [Map] keys. *)
Definition SameValueZero (a b : value) : bool :=
  match a, b with
  | VUndefined, VUndefined => true
  | VNull, VNull => true
  | VBool x, VBool y => Bool.eqb x y
  | VNum x, VNum y => num_same x y
  | VStr x, VStr y => streq x y
  | VArr r _, VArr r' _ => N.eqb r r'
  | VObj r _, VObj r' _ => N.eqb r r'
  | _, _ => false
  end.

(** ** JSON.stringify *)

Definition is_high_surrogate (c : char) : bool := (N.leb 55296 c && N.leb c 56319)%N.
Definition is_low_surrogate (c : char) : bool := (N.leb 56320 c && N.leb c 57343)%N.

Definition hex_char (d : N) : char := if (d <? 10)%N then (48 + d)%N else (87 + d)%N.

Definition hex4 (c : char) : jsstring :=
  [hex_char (c / 4096 mod 16); hex_char (c / 256 mod 16);
   hex_char (c / 16 mod 16); hex_char (c mod 16)]%N.

(** The escape [\uXXXX]. *)
Definition unicode_escape (c : char) : jsstring := 92%N :: 117%N :: hex4 c.

(** The inside of QuoteJSONString. *)
Fixpoint quote_chars (s : jsstring) : jsstring :=
  match s with
  | [] => []
  | c :: s' =>
      if N.eqb c 8 then 92%N :: 98%N :: quote_chars s'
      else if N.eqb c 9 then 92%N :: 116%N :: quote_chars s'
      else if N.eqb c 10 then 92%N :: 110%N :: quote_chars s'
      else if N.eqb c 12 then 92%N :: 102%N :: quote_chars s'
      else if N.eqb c 13 then 92%N :: 114%N :: quote_chars s'
      else if (c <? 32)%N then unicode_escape c ++ quote_chars s'
      else if N.eqb c 34 then 92%N :: 34%N :: quote_chars s'
      else if N.eqb c 92 then 92%N :: 92%N :: quote_chars s'
      else if is_high_surrogate c then
        match s' with
        | d :: s'' =>
            if is_low_surrogate d then c :: d :: quote_chars s''
            else unicode_escape c ++ quote_chars s'
        | [] => unicode_escape c
        end
      else if is_low_surrogate c then unicode_escape c ++ quote_chars s'
      else c :: quote_chars s'
  end.

Definition QuoteJSONString (s : jsstring) : jsstring :=
  34%N :: quote_chars s ++ [34%N].

(** SerializeJSONProperty without replacer or indentation; [None] is the
    undefined result. *)
Fixpoint json_text (v : value) : option jsstring :=
  match v with
  | VUndefined => None
  | VNull => Some (str "null")
  | VBool true => Some (str "true")
  | VBool false => Some (str "false")
  | VNum (Fin d) => Some (Number_toString (Fin d))
  | VNum _ => Some (str "null")
  | VStr s => Some (QuoteJSONString s)
  | VArr _ l =>
      Some (91%N ::
        (fix elems (l : list value) : jsstring :=
           match l with
           | [] => []
           | x :: rest =>
               (match json_text x with Some t => t | None => str "null" end) ++
               (match rest with [] => [] | _ => 44%N :: elems rest end)
           end) l ++ [93%N])
  | VObj _ ps =>
      Some (123%N ::
        (fix members (ps : list (jsstring * value)) (first : bool) : jsstring :=
           match ps with
           | [] => []
           | (k, x) :: rest =>
               match json_text x with
               | None => members rest first
               | Some t =>
                   (if first then [] else [44%N]) ++
                   QuoteJSONString k ++ 58%N :: t ++ members rest false
               end
           end) ps true ++ [125%N])
  end.

Definition JSON_stringify (v : value) : value :=
  match json_text v with
  | Some t => VStr t
  | None => VUndefined
  end.

(** ** JSON.parse *)

Inductive parsed (A : Type) :=
| POk (a : A) (rest : jsstring)
| PFail
| PFuel.

Arguments POk {A} a rest.
Arguments PFail {A}.
Arguments PFuel {A}.

Definition is_json_ws (c : char) : bool :=
  N.eqb c 9 || N.eqb c 10 || N.eqb c 13 || N.eqb c 32.

Definition skip_ws (s : jsstring) : jsstring := drop_while is_json_ws s.

Definition hex_val (c : char) : option N := radix_digit 16 c.

Definition hex4_value (a b c d : char) : option N :=
  match hex_val a, hex_val b, hex_val c, hex_val d with
  | Some x, Some y, Some z, Some w => Some (4096 * x + 256 * y + 16 * z + w)%N
  | _, _, _, _ => None
  end.

Definition simple_escape (e : char) : option char :=
  if N.eqb e 34 then Some 34%N
  else if N.eqb e 92 then Some 92%N
  else if N.eqb e 47 then Some 47%N
  else if N.eqb e 98 then Some 8%N
  else if N.eqb e 102 then Some 12%N
  else if N.eqb e 110 then Some 10%N
  else if N.eqb e 114 then Some 13%N
  else if N.eqb e 116 then Some 9%N
  else None.

(** A JSON string from after its opening quote: its code units and the text
    after the closing quote. *)
Fixpoint parse_string_chars (s : jsstring) : option (jsstring * jsstring) :=
  match s with
  | [] => None
  | c :: s1 =>
      if N.eqb c 34 then Some ([], s1)
      else if N.eqb c 92 then
        match s1 with
        | [] => None
        | e :: s2 =>
            if N.eqb e 117 then
              match s2 with
              | h1 :: h2 :: h3 :: h4 :: s3 =>
                  match hex4_value h1 h2 h3 h4, parse_string_chars s3 with
                  | Some u, Some (x, r) => Some (u :: x, r)
                  | _, _ => None
                  end
              | _ => None
              end
            else
              match simple_escape e, parse_string_chars s2 with
              | Some u, Some (x, r) => Some (u :: x, r)
              | _, _ => None
              end
        end
      else if (c <? 32)%N then None
      else
        match parse_string_chars s1 with
        | Some (x, r) => Some (c :: x, r)
        | None => None
        end
  end.

(** A JSON number: [-? int frac? exp?], read as the exact decimal it writes,
    not rounded to binary64, finite whatever its exponent. *)
Definition parse_json_number (s : jsstring) : option (number * jsstring) :=
  let '(neg, s0) :=
    match s with
    | c :: t => if N.eqb c 45 then (true, t) else (false, s)
    | [] => (false, s)
    end in
  match s0 with
  | [] => None
  | c :: s1 =>
      if negb (is_digit c) then None else
      let '(ip, s2) :=
        if N.eqb c 48 then ([c], s1)
        else (c :: take_while is_digit s1, drop_while is_digit s1) in
      let frac :=
        match after_point s2 with
        | Some s3 =>
            match take_while is_digit s3 with
            | [] => None
            | fp => Some (fp, drop_while is_digit s3)
            end
        | None => Some ([], s2)
        end in
      match frac with
      | None => None
      | Some (fp, s4) =>
          match s4 with
          | e :: s5 =>
              if N.eqb e 101 || N.eqb e 69 then
                let '(eneg, s6) := scan_sign s5 in
                match take_while is_digit s6 with
                | [] => None
                | ds =>
                    let v := Z.of_N (digits_value ds) in
                    Some (Fin (make_decimal neg ip fp (if eneg then - v else v)),
                          drop_while is_digit s6)
                end
              else Some (Fin (make_decimal neg ip fp 0), s4)
          | [] => Some (Fin (make_decimal neg ip fp 0), s4)
          end
      end
  end.

(** An array index: the canonical numeric string of an integer below 2^32-1. *)
Definition array_index (k : jsstring) : option N :=
  match k with
  | [] => None
  | _ =>
      let n := digits_value k in
      if forallb is_digit k && streq (digits n) k && (n <=? 4294967294)%N
      then Some n else None
  end.

Fixpoint props_replace {A} (k : jsstring) (v : A) (ps : list (jsstring * A)) :=
  match ps with
  | [] => []
  | (k', v') :: r =>
      if streq k k' then (k', v) :: r else (k', v') :: props_replace k v r
  end.

(** A new index key goes before the first key that is a greater index or no
    index. *)
Fixpoint props_insert_index {A} (i : N) (k : jsstring) (v : A)
    (ps : list (jsstring * A)) :=
  match ps with
  | [] => [(k, v)]
  | (k', v') :: r =>
      match array_index k' with
      | Some j =>
          if (j <? i)%N then (k', v') :: props_insert_index i k v r
          else (k, v) :: ps
      | None => (k, v) :: ps
      end
  end.

(** CreateDataProperty on an ordinary object, keeping the order of
    OrdinaryOwnPropertyKeys: indices ascending, then the other keys as
    created. *)
Definition props_set {A} (k : jsstring) (v : A) (ps : list (jsstring * A)) :=
  if props_has k ps then props_replace k v ps
  else
    match array_index k with
    | Some i => props_insert_index i k v ps
    | None => ps ++ [(k, v)]
    end.

(** What follows a parsed element or member: a comma, the closing bracket
    [close], or an error. *)
Inductive separator := SepComma (rest : jsstring) | SepClose (rest : jsstring) | SepBad.

Definition scan_separator (close : char) (s : jsstring) : separator :=
  match skip_ws s with
  | c :: t =>
      if N.eqb c 44 then SepComma t
      else if N.eqb c close then SepClose t
      else SepBad
  | [] => SepBad
  end.

(** The text after the code unit [c], when [s] starts with it after white
    space. *)
Definition expect (c : char) (s : jsstring) : option jsstring :=
  match skip_ws s with
  | x :: t => if N.eqb x c then Some t else None
  | [] => None
  end.

(** The JSON grammar.  Every reference is 0 here: [alloc] gives the arrays
    and objects their own. *)
Fixpoint parse_value (fuel : nat) (s : jsstring) : parsed value :=
  match fuel with
  | O => PFuel
  | S f =>
      match skip_ws s with
      | [] => PFail
      | c :: s1 =>
          if N.eqb c 34 then
            match parse_string_chars s1 with
            | Some (x, r) => POk (VStr x) r
            | None => PFail
            end
          else if N.eqb c 91 then
            match expect 93%N s1 with
            | Some s2 => POk (VArr 0%N []) s2
            | None => parse_elements f s1 []
            end
          else if N.eqb c 123 then
            match expect 125%N s1 with
            | Some s2 => POk (VObj 0%N []) s2
            | None => parse_members f s1 []
            end
          else if starts_with (str "true") (c :: s1) then POk (VBool true) (skipn 3 s1)
          else if starts_with (str "false") (c :: s1) then POk (VBool false) (skipn 4 s1)
          else if starts_with (str "null") (c :: s1) then POk VNull (skipn 3 s1)
          else
            match parse_json_number (c :: s1) with
            | Some (n, r) => POk (VNum n) r
            | None => PFail
            end
      end
  end

with parse_elements (fuel : nat) (s : jsstring) (acc : list value) : parsed value :=
  match fuel with
  | O => PFuel
  | S f =>
      match parse_value f s with
      | POk v s1 =>
          match scan_separator 93%N s1 with
          | SepComma s2 => parse_elements f s2 (v :: acc)
          | SepClose s2 => POk (VArr 0%N (rev (v :: acc))) s2
          | SepBad => PFail
          end
      | PFail => PFail
      | PFuel => PFuel
      end
  end

with parse_members (fuel : nat) (s : jsstring) (acc : list (jsstring * value))
    : parsed value :=
  match fuel with
  | O => PFuel
  | S f =>
      match expect 34%N s with
      | Some s1 =>
          match parse_string_chars s1 with
          | Some (k, s2) =>
              match expect 58%N s2 with
              | Some s3 =>
                  match parse_value f s3 with
                  | POk v s4 =>
                      match scan_separator 125%N s4 with
                      | SepComma s5 => parse_members f s5 (props_set k v acc)
                      | SepClose s5 => POk (VObj 0%N (props_set k v acc)) s5
                      | SepBad => PFail
                      end
                  | PFail => PFail
                  | PFuel => PFuel
                  end
              | None => PFail
              end
          | None => PFail
          end
      | None => PFail
      end
  end.

(** Each call of the parser reads a code unit before the second next call, so
    twice the length of the text is fuel enough. *)
Definition parse_fuel (s : jsstring) : nat := 2 * length s + 2.

(** The value of a JSON text, [None] where JSON.parse throws a SyntaxError. *)
Definition JSON_parse (s : jsstring) : option value :=
  match parse_value (parse_fuel s) s with
  | POk v r => match skip_ws r with [] => Some v | _ => None end
  | _ => None
  end.

(** Fresh references for the arrays and objects of a parsed value. *)
Fixpoint alloc (v : value) (n : ref) : value * ref :=
  match v with
  | VArr _ l =>
      let '(l', n') :=
        (fix go (l : list value) (n : ref) : list value * ref :=
           match l with
           | [] => ([], n)
           | x :: r =>
               let '(x', n1) := alloc x n in
               let '(r', n2) := go r n1 in
               (x' :: r', n2)
           end) l (n + 1)%N in
      (VArr n l', n')
  | VObj _ ps =>
      let '(ps', n') :=
        (fix go (ps : list (jsstring * value)) (n : ref)
             : list (jsstring * value) * ref :=
           match ps with
           | [] => ([], n)
           | (k, x) :: r =>
               let '(x', n1) := alloc x n in
               let '(r', n2) := go r n1 in
               ((k, x') :: r', n2)
           end) ps (n + 1)%N in
      (VObj n ps', n')
  | _ => (v, n)
  end.

(** ** The environment: localStorage and the console *)

(** One call of [console.error(label, e)]. *)
Record log_entry := Log { log_label : jsstring; log_exn : exn }.

(** [ls_enabled]: whether the page may use [localStorage] (reading the
    property throws a SecurityError otherwise); [ls_quota]: the code units a
    key and its value may take together; [ls_items]: the stored pairs;
    [console]: the errors logged, latest first; [next_ref]: the next fresh
    reference. *)
Record World := mkWorld {
  ls_enabled : bool;
  ls_quota : N;
  ls_items : list (jsstring * jsstring);
  console : list log_entry;
  next_ref : ref
}.

(** ** Producto *)

Record Producto := mkProducto {
  p_id : value;
  nombre : value;
  precio : value;
  categoria : value;
  cantidad : value
}.

(** [new Producto({ id, nombre, precio, categoria = 'general' })]. *)
Definition Producto_new (id nom pre cat : value) : Producto :=
  {| p_id := id;
     nombre := nom;
     precio := pre;
     categoria := match cat with VUndefined => VStr (str "general") | _ => cat end;
     cantidad := VNum (num 1) |}.

Definition getId (p : Producto) : value := p_id p.

(** [p.cantidad = q]. *)
Definition set_cantidad (q : value) (p : Producto) : Producto :=
  {| p_id := p_id p; nombre := nombre p; precio := precio p;
     categoria := categoria p; cantidad := q |}.

(** ** Map *)

(** A [Map]: its entries in insertion order, no two keys the same by
    SameValueZero. *)
Definition jsmap (V : Type) := list (value * V).

Fixpoint map_has {V} (k : value) (m : jsmap V) : bool :=
  match m with
  | [] => false
  | (k', _) :: r => SameValueZero k' k || map_has k r
  end.

Fixpoint map_get {V} (k : value) (m : jsmap V) : option V :=
  match m with
  | [] => None
  | (k', v) :: r => if SameValueZero k' k then Some v else map_get k r
  end.

(** [set] keeps the place and the key of an entry it overwrites. *)
Fixpoint map_set {V} (k : value) (v : V) (m : jsmap V) : jsmap V :=
  match m with
  | [] => [(k, v)]
  | (k', v') :: r =>
      if SameValueZero k' k then (k', v) :: r else (k', v') :: map_set k v r
  end.

Fixpoint map_delete {V} (k : value) (m : jsmap V) : jsmap V :=
  match m with
  | [] => []
  | (k', v') :: r =>
      if SameValueZero k' k then r else (k', v') :: map_delete k r
  end.

Definition map_values {V} (m : jsmap V) : list V := map snd m.

(** ** The state monad with exceptions *)

(** A [Carrito] is its private [#items]. *)
Record Carrito := mkCarrito { items : jsmap Producto }.

Definition State := (Carrito * World)%type.

Definition M (A : Type) := State -> result A * State.

Definition ret {A} (a : A) : M A := fun st => (Ok a, st).

Definition bind {A B} (c : M A) (k : A -> M B) : M B :=
  fun st =>
    match c st with
    | (Ok a, st') => k a st'
    | (Throw e, st') => (Throw e, st')
    end.

Definition throw {A} (e : exn) : M A := fun st => (Throw e, st).

Definition lift {A} (r : result A) : M A := fun st => (r, st).

(** [try { body } catch (e) { handler e }]. *)
Definition try_catch (body : M unit) (handler : exn -> M unit) : M unit :=
  fun st =>
    match body st with
    | (Ok a, st') => (Ok a, st')
    | (Throw e, st') => handler e st'
    end.

Declare Scope js_scope.
Delimit Scope js_scope with js.
Notation "x <- c ;; k" := (bind c (fun x => k))
  (at level 61, c at next level, right associativity) : js_scope.
Notation "c ;; k" := (bind c (fun _ => k))
  (at level 61, right associativity) : js_scope.
Local Open Scope js_scope.

Definition get_items : M (jsmap Producto) := fun st => (Ok (items (fst st)), st).

Definition set_items (m : jsmap Producto) : M unit :=
  fun st => (Ok tt, (mkCarrito m, snd st)).

Definition get_world : M World := fun st => (Ok (snd st), st).

Definition set_world (w : World) : M unit := fun st => (Ok tt, (fst st, w)).

Definition log_error (label : jsstring) (e : exn) (w : World) : World :=
  mkWorld (ls_enabled w) (ls_quota w) (ls_items w) (Log label e :: console w)
          (next_ref w).

(** [console.error(label, e)]. *)
Definition console_error (label : jsstring) (e : exn) : M unit :=
  w <- get_world ;; set_world (log_error label e w).

(** [localStorage.getItem(key)]: the stored string, or null. *)
Definition localStorage_getItem (key : jsstring) : M value :=
  w <- get_world ;;
  if ls_enabled w then
    ret (match props_get key (ls_items w) with
         | Some s => VStr s
         | None => VNull
         end)
  else throw SecurityError.

Definition storage_put (key v : jsstring) (l : list (jsstring * jsstring)) :=
  if props_has key l then props_replace key v l else l ++ [(key, v)].

Definition store (key v : jsstring) (w : World) : World :=
  mkWorld (ls_enabled w) (ls_quota w) (storage_put key v (ls_items w))
          (console w) (next_ref w).

(** [localStorage.setItem(key, v)]. *)
Definition localStorage_setItem (key : jsstring) (v : value) : M unit :=
  w <- get_world ;;
  if ls_enabled w then
    s <- lift (ToString v) ;;
    if (ls_quota w <? N.of_nat (length key + length s))%N
    then throw QuotaExceededError
    else set_world (store key s w)
  else throw SecurityError.

Definition with_next_ref (n : ref) (w : World) : World :=
  mkWorld (ls_enabled w) (ls_quota w) (ls_items w) (console w) n.

(** [JSON.parse(text)] of a string. *)
Definition JSON_parse_m (text : jsstring) : M value :=
  match JSON_parse text with
  | None => throw SyntaxError
  | Some v =>
      w <- get_world ;;
      let '(v', n) := alloc v (next_ref w) in
      set_world (with_next_ref n w) ;;
      ret v'
  end.

(** The strings a string iterates to: one per code point. *)
Fixpoint code_points (s : jsstring) : list value :=
  match s with
  | [] => []
  | c :: s' =>
      if is_high_surrogate c then
        match s' with
        | d :: s'' =>
            if is_low_surrogate d then VStr [c; d] :: code_points s''
            else VStr [c] :: code_points s'
        | [] => [VStr [c]]
        end
      else VStr [c] :: code_points s'
  end.

(** The values [for (const o of v)] runs over; a TypeError when [v] is not
    iterable. *)
Definition iterate (v : value) : result (list value) :=
  match v with
  | VArr _ l => Ok l
  | VStr s => Ok (code_points s)
  | _ => Throw TypeError
  end.

(** [o.name], for a name that no prototype defines and that is neither an
    index nor [length]: the five fields of a record are such names. *)
Definition get_field (o : value) (name : jsstring) : result value :=
  match o with
  | VUndefined | VNull => Throw TypeError
  | VObj _ ps =>
      Ok (match props_get name ps with Some v => v | None => VUndefined end)
  | _ => Ok VUndefined
  end.

(** ** Helpers: parsePrice *)

(** [v.toString()]: Number.prototype.toString and its like for a primitive,
    the conversion of ToString for an array or an object ([toString] of an
    object that has a property of this name is not a function). *)
Definition call_toString (v : value) : result jsstring :=
  match v with
  | VUndefined | VNull => Throw TypeError
  | _ => ToString v
  end.

(** The class [[\d.,]]. *)
Definition price_char (c : char) : bool :=
  is_digit c || N.eqb c 46 || N.eqb c 44.

(** [s.replace(',', '.')]: the first comma only. *)
Fixpoint replace_first_comma (s : jsstring) : jsstring :=
  match s with
  | [] => []
  | c :: s' => if N.eqb c 44 then 46%N :: s' else c :: replace_first_comma s'
  end.

(** [s.replace(/[^\d.,]/g, '').replace(',', '.')]. *)
Definition cleaned (s : jsstring) : jsstring :=
  replace_first_comma (filter price_char s).

(** [Number(x) || 0] for a number [x]. *)
Definition number_or_zero (x : number) : number :=
  if ToBoolean (VNum x) then x else num 0.

Definition parsePrice (priceStr : value) : result number :=
  if negb (ToBoolean priceStr) then Ok (num 0)
  else
    (s <-- call_toString priceStr ;;;
     Ok (number_or_zero (parseFloat (cleaned s))))%result.

(** ** Carrito *)

Definition storage_key : jsstring := str "skb_carrito".

Definition getItemsArray : M (list Producto) :=
  m <- get_items ;; ret (map_values m).

(** The record [saveToStorage] writes for an entry. *)
Definition record_of (p : Producto) : value :=
  VObj 0%N [(str "id", getId p); (str "nombre", nombre p);
            (str "precio", precio p); (str "categoria", categoria p);
            (str "cantidad", cantidad p)].

Definition saveToStorage : M unit :=
  try_catch
    (ps <- getItemsArray ;;
     let arr := VArr 0%N (map record_of ps) in
     localStorage_setItem storage_key (JSON_stringify arr))
    (fun e => console_error (str "guardar carrito") e).

(** [const p = new Producto({ id: o.id, nombre: o.nombre, precio: o.precio,
    categoria: o.categoria }); p.cantidad = o.cantidad]. *)
Definition record_product (o : value) : result Producto :=
  (id <-- get_field o (str "id") ;;;
   nom <-- get_field o (str "nombre") ;;;
   pre <-- get_field o (str "precio") ;;;
   cat <-- get_field o (str "categoria") ;;;
   let p := Producto_new id nom pre cat in
   q <-- get_field o (str "cantidad") ;;;
   Ok (set_cantidad q p))%result.

(** The body of the loop of [loadFromStorage]. *)
Definition load_record (o : value) : M unit :=
  p <- lift (record_product o) ;;
  m <- get_items ;;
  set_items (map_set (getId p) p m).

Fixpoint for_each {A} (body : A -> M unit) (l : list A) : M unit :=
  match l with
  | [] => ret tt
  | x :: r => body x ;; for_each body r
  end.

Definition loadFromStorage : M unit :=
  try_catch
    (raw <- localStorage_getItem storage_key ;;
     if negb (ToBoolean raw) then ret tt
     else
       text <- lift (ToString raw) ;;
       arr <- JSON_parse_m text ;;
       os <- lift (iterate arr) ;;
       for_each load_record os)
    (fun e => console_error (str "cargar carrito") e).

(** [new Carrito()]: an empty map, then [loadFromStorage]. *)
Definition Carrito_new (w : World) : result unit * State :=
  loadFromStorage (mkCarrito [], w).

Definition add (producto : Producto) : M unit :=
  let id := getId producto in
  m <- get_items ;;
  (if map_has id m then
     match map_get id m with
     | Some p =>
         q <- lift (js_add (cantidad p) (VNum (num 1))) ;;
         set_items (map_set id (set_cantidad q p) m)
     | None => ret tt
     end
   else set_items (map_set id producto m)) ;;
  saveToStorage.

Definition remove (id : value) : M unit :=
  m <- get_items ;;
  set_items (map_delete id m) ;;
  saveToStorage.

Definition updateQty (id qty : value) : M unit :=
  m <- get_items ;;
  if negb (map_has id m) then ret tt
  else
    match map_get id m with
    | None => ret tt
    | Some p =>
        let p := set_cantidad qty p in
        set_items (map_set id p m) ;;
        b <- lift (js_le (cantidad p) (VNum (num 0))) ;;
        (if b then m' <- get_items ;; set_items (map_delete id m')
         else ret tt) ;;
        saveToStorage
    end.

Definition clear : M unit :=
  set_items [] ;;
  saveToStorage.

(** [total += p.precio * p.cantidad]: the sum is a number on both sides. *)
Fixpoint sum_total (total : number) (ps : list Producto) : result number :=
  match ps with
  | [] => Ok total
  | p :: r =>
      (x <-- js_mul (precio p) (cantidad p) ;;;
       sum_total (num_add total x) r)%result
  end.

Definition getTotal : M number :=
  m <- get_items ;; lift (sum_total (num 0) (map_values m)).

(** [c += p.cantidad]. *)
Fixpoint sum_count (c : value) (ps : list Producto) : result value :=
  match ps with
  | [] => Ok c
  | p :: r => (c' <-- js_add c (cantidad p) ;;; sum_count c' r)%result
  end.

Definition getCount : M value :=
  m <- get_items ;; lift (sum_count (VNum (num 0)) (map_values m)).

(** ** Scenarios and derived notions *)

(** The text [saveToStorage] hands to [setItem]. *)
Definition cart_text (c : Carrito) : jsstring :=
  match json_text (VArr 0%N (map record_of (map_values (items c)))) with
  | Some t => t
  | None => []
  end.

(** Whether [setItem] throws for this text. *)
Definition setItem_throws (w : World) (text : jsstring) : bool :=
  negb (ls_enabled w)
  || (ls_quota w <? N.of_nat (length storage_key + length text))%N.

(** Whether the write of [saveToStorage] fails for the cart [c]. *)
Definition write_fails (w : World) (c : Carrito) : bool :=
  setItem_throws w (cart_text c).

Definition write_error (w : World) : exn :=
  if ls_enabled w then QuotaExceededError else SecurityError.

(** The page may use [localStorage], and it holds [raw] under the key of the
    cart. *)
Definition persisted (w : World) (raw : jsstring) : Prop :=
  ls_enabled w = true /\ props_get storage_key (ls_items w) = Some raw.

(** A world whose [localStorage] holds [raw] under the key of the cart, with
    room to write. *)
Definition world_with (raw : jsstring) : World :=
  mkWorld true 5000000%N [(storage_key, raw)] [] 1%N.

(** A world whose [localStorage] is empty. *)
Definition empty_world : World := mkWorld true 5000000%N [] [] 1%N.

(** What the loop of [loadFromStorage] makes of the map: the records
    stored until one throws, and the exception if one does. *)
Fixpoint load_items (os : list value) (m : jsmap Producto)
    : option exn * jsmap Producto :=
  match os with
  | [] => (None, m)
  | o :: r =>
      match record_product o with
      | Ok p => load_items r (map_set (getId p) p m)
      | Throw e => (Some e, m)
      end
  end.

(** The cart a page load builds. *)
Definition hydrate (w : World) : State := snd (Carrito_new w).

(** The scenario of the specification, with the field names it writes. *)
Definition blob_spec : jsstring :=
  jsq "[{'id':'p2','name':'Torta','price':300,'category':'general','quantity':2}]".

(** The same records under the names [saveToStorage] writes and
    [loadFromStorage] reads. *)
Definition blob_code : jsstring :=
  jsq "[{'id':'p2','nombre':'Torta','precio':300,'categoria':'general','cantidad':2}]".

(** No two keys of the map are the same. *)
Fixpoint map_wf {V} (m : jsmap V) : Prop :=
  match m with
  | [] => True
  | (k, _) :: r => map_has k r = false /\ map_wf r
  end.

(** What [add] does to the map; the exception if [+=] throws. *)
Definition add_items (p : Producto) (m : jsmap Producto)
    : result (jsmap Producto) :=
  if map_has (getId p) m then
    match map_get (getId p) m with
    | Some e =>
        (q <-- js_add (cantidad e) (VNum (num 1)) ;;;
         Ok (map_set (getId p) (set_cantidad q e) m))%result
    | None => Ok m
    end
  else Ok (map_set (getId p) p m).

(** The four mutations of the store. *)
Inductive mutation :=
| MAdd (p : Producto)
| MRemove (id : value)
| MUpdateQty (id qty : value)
| MClear.

Definition run_mutation (mu : mutation) : M unit :=
  match mu with
  | MAdd p => add p
  | MRemove id => remove id
  | MUpdateQty id qty => updateQty id qty
  | MClear => clear
  end.

(** Whether the mutation reaches its [saveToStorage]: [updateQty] returns
    before it for an id the cart does not hold. *)
Definition writes (mu : mutation) (c : Carrito) : bool :=
  match mu with
  | MUpdateQty id _ => map_has id (items c)
  | _ => true
  end.

(** An integer. *)
Definition is_integer (n : number) : bool :=
  match n with
  | Fin d => Nat.eqb (dscale (dnorm d)) 0
  | _ => false
  end.

(** The product of the scenarios: [{id: "p1", nombre: "Cupcake", precio: 5}]. *)
Definition cupcake : Producto :=
  Producto_new (VStr (str "p1")) (VStr (str "Cupcake")) (VNum (num 5)) VUndefined.

(** The cart that holds one cupcake. *)
Definition cart_cupcake : Carrito := mkCarrito [(VStr (str "p1"), cupcake)].

(** One half. *)
Definition half : number := Fin (Dec 5 1).

(** A payload from which [loadFromStorage] stores nothing: the empty string,
    a text that is not JSON, or the JSON text of a value that [for ... of]
    cannot iterate (a number, a boolean, null, an object). *)
Definition unreadable (raw : jsstring) : bool :=
  match raw with
  | [] => true
  | _ =>
      match JSON_parse raw with
      | None => true
      | Some (VArr _ _) | Some (VStr _) => false
      | Some _ => true
      end
  end.

(** An array whose second element is null, after a well-formed record. *)
Definition blob_truncated : jsstring :=
  jsq "[{'id':'p1','nombre':'Cupcake','precio':5,'categoria':'general','cantidad':1},null]".

(** A world whose page may not use [localStorage]. *)
Definition disabled_world : World := mkWorld false 5000000%N [] [] 1%N.

(** A world whose [localStorage] has no room left. *)
Definition full_world : World := mkWorld true 0%N [] [] 1%N.

(** A primitive value: no array, no object. *)
Definition is_primitive (v : value) : bool :=
  match v with
  | VArr _ _ | VObj _ _ => false
  | _ => true
  end.

Definition is_comma (c : char) : bool := N.eqb c 44.

(** A digit or a decimal point. *)
Definition plain_char (c : char) : bool := is_digit c || N.eqb c 46.

(** A quantity that is a number and at least 1. *)
Definition qty_ge1 (v : value) : bool :=
  match v with
  | VNum n => match num_lt n (num 1) with Some false => true | _ => false end
  | _ => false
  end.

(** Every entry of the cart has a quantity of at least 1. *)
Definition quantities_ok (c : Carrito) : Prop :=
  Forall (fun p => qty_ge1 (cantidad p) = true) (map_values (items c)).

(** The values the loop of [loadFromStorage] runs over in the world [w];
    none when it does not get to the loop. *)
Definition hydration_records (w : World) : list value :=
  if ls_enabled w then
    match props_get storage_key (ls_items w) with
    | None | Some [] => []
    | Some raw =>
        match JSON_parse raw with
        | None => []
        | Some v =>
            match iterate (fst (alloc v (next_ref w))) with
            | Ok os => os
            | Throw _ => []
            end
        end
    end
  else [].

(** What [loadFromStorage] catches in the world [w], if anything fails: the
    SecurityError of a page that may not use [localStorage], the SyntaxError
    of [JSON.parse], the TypeError of a value that cannot be iterated, or
    what the first record that cannot be read throws. *)
Definition hydration_failure (w : World) : option exn :=
  if ls_enabled w then
    match props_get storage_key (ls_items w) with
    | None | Some [] => None
    | Some raw =>
        match JSON_parse raw with
        | None => Some SyntaxError
        | Some v =>
            match iterate (fst (alloc v (next_ref w))) with
            | Ok os => fst (load_items os [])
            | Throw e => Some e
            end
        end
    end
  else Some SecurityError.

(** The label [loadFromStorage] logs under. *)
Definition load_label : jsstring := str "cargar carrito".


(** A record that, if it can be read, carries a quantity of at least 1. *)
Definition record_qty_ok (o : value) : bool :=
  match get_field o (str "cantidad") with
  | Ok q => qty_ge1 q
  | Throw _ => true
  end.

(** One operation on the store, in any environment: [add] of a freshly
    constructed product, [remove], [clear], [updateQty] with a quantity that
    is [<= 0] or a number of at least 1, and [loadFromStorage] of a payload
    whose records carry quantities of at least 1. *)
Inductive step (c : Carrito) : Carrito -> Prop :=
| step_add (id nom pre cat : value) (w : World) :
    step c (fst (snd (add (Producto_new id nom pre cat) (c, w))))
| step_remove (id : value) (w : World) :
    step c (fst (snd (remove id (c, w))))
| step_updateQty (id qty : value) (w : World) :
    js_le qty (VNum (num 0)) = Ok true \/ qty_ge1 qty = true ->
    step c (fst (snd (updateQty id qty (c, w))))
| step_clear (w : World) :
    step c (fst (snd (clear (c, w))))
| step_load (w : World) :
    forallb record_qty_ok (hydration_records w) = true ->
    step c (fst (snd (loadFromStorage (c, w)))).

(** The carts these operations reach from the empty one. *)
Inductive reachable : Carrito -> Prop :=
| reach_new : reachable (mkCarrito [])
| reach_step (c c' : Carrito) : reachable c -> step c c' -> reachable c'.

(** A persisted record whose quantity is 0. *)
Definition blob_zero : jsstring :=
  jsq "[{'id':'p1','nombre':'Cupcake','precio':5,'categoria':'general','cantidad':0}]".

(** A text that ends a JSON number: it does not go on with a digit, a point
    or an exponent. *)
Definition number_end (rest : jsstring) : Prop :=
  match rest with
  | [] => True
  | c :: _ =>
      is_digit c = false /\ c <> 46%N /\ c <> 101%N /\ c <> 69%N
  end.

(** The digits of a JSON number: the sign, the integer part, the fraction
    and the exponent, as written. *)
Definition number_text (neg : bool) (ip fp : jsstring) (e : option Z)
    : jsstring :=
  (if neg then [45%N] else []) ++ ip ++
  (match fp with [] => [] | _ => 46%N :: fp end) ++
  (match e with
   | None => []
   | Some z => 101%N :: (if z <? 0 then 45%N else 43%N) :: digits (Z.abs_N z)
   end).

(** The texts of the elements of an array, with their commas. *)
Fixpoint json_elems (l : list value) : jsstring :=
  match l with
  | [] => []
  | x :: rest =>
      (match json_text x with Some t => t | None => str "null" end) ++
      (match rest with [] => [] | _ => 44%N :: json_elems rest end)
  end.

(** The references [alloc] gives the elements of an array. *)
Fixpoint alloc_list (l : list value) (n : ref) : list value * ref :=
  match l with
  | [] => ([], n)
  | x :: r =>
      let '(x', n1) := alloc x n in
      let '(r', n2) := alloc_list r n1 in
      (x' :: r', n2)
  end.

(** A decimal in its canonical form. *)
Definition canonical (d : decimal) : Prop := dnorm d = d.

(** A cart entry as the specification types it: strings for the id, the name
    and the category, finite numbers for the price and the quantity.  The
    numbers stand in their canonical form, as every number that is parsed or
    computed does. *)
Inductive typed : Producto -> Prop :=
| typed_intro (id nom cat : jsstring) (pr q : decimal) :
    canonical pr -> canonical q ->
    typed (mkProducto (VStr id) (VStr nom) (VNum (Fin pr)) (VStr cat)
                      (VNum (Fin q))).

(** Every entry stands under the id of its product, as [add] and
    [loadFromStorage] store it. *)
Definition keyed (m : jsmap Producto) : Prop :=
  Forall (fun kv => fst kv = getId (snd kv)) m.

(** The text of the record of a typed entry. *)
Definition record_text (id nom cat : jsstring) (pr q : decimal) : jsstring :=
  jsq "{'id':" ++ QuoteJSONString id ++
  jsq ",'nombre':" ++ QuoteJSONString nom ++
  jsq ",'precio':" ++ Number_toString (Fin pr) ++
  jsq ",'categoria':" ++ QuoteJSONString cat ++
  jsq ",'cantidad':" ++ Number_toString (Fin q) ++ [125%N].

(** The cart in which [updateQty("p1", Infinity)] has left its quantity. *)
Definition cart_infinite : Carrito :=
  mkCarrito [(VStr (str "p1"), set_cantidad (VNum (Inf false)) cupcake)].

(** ** Helpers: formatPrice *)

(** For [x >= 0], the integer [n] for which [n / 10^f - x] is as close to
    zero as possible, the larger one where there are two. *)
Definition nearest_scaled (x : decimal) (f : nat) : Z :=
  (2 * dmant x * pow10 f + pow10 (dscale x)) / (2 * pow10 (dscale x)).

(** The absolute value. *)
Definition dabs (d : decimal) : decimal := Dec (Z.abs (dmant d)) (dscale d).

(** Number.prototype.toFixed(f), for the [f] from 0 to 100 it accepts. *)
Definition toFixed (x : number) (f : nat) : jsstring :=
  match x with
  | Fin d =>
      let s := if dmant d <? 0 then str "-" else [] in
      let a := dabs d in
      if dleb (dint (10 ^ 21)) a then s ++ Number_toString (Fin a)
      else
        let n := nearest_scaled a f in
        let m := if n =? 0 then str "0" else digits (Z.to_N n) in
        match f with
        | O => s ++ m
        | _ =>
            let k := length m in
            let m := if (k <=? f)%nat then zeros (f + 1 - k) ++ m else m in
            let k := length m in
            s ++ firstn (k - f) m ++ str "." ++ skipn (k - f) m
        end
  | _ => Number_toString x
  end.

Definition formatPrice (v : value) : result jsstring :=
  (x <-- ToNumber v ;;; Ok (str "S/ " ++ toFixed x 2))%result.

(** A finite number below 10^21 in absolute value: [toFixed] writes these in
    fixed notation. *)
Definition below_1e21 (d : decimal) : bool :=
  negb (dleb (dint (10 ^ 21)) (dabs d)).

(** The sign [toFixed] writes. *)
Definition sign_text (d : decimal) : jsstring :=
  if dmant d <? 0 then str "-" else [].

(** ** Producto: the texts of a product *)

(** The em dash of [mostrarInfo]. *)
Definition em_dash : char := 8212%N.

Definition mostrarInfo (p : Producto) : result jsstring :=
  (n <-- ToString (nombre p) ;;;
   f <-- formatPrice (precio p) ;;;
   Ok (n ++ str " " ++ [em_dash] ++ str " " ++ f))%result.

Definition getLabel (p : Producto) : result jsstring :=
  (n <-- ToString (nombre p) ;;;
   c <-- ToString (categoria p) ;;;
   Ok (n ++ str " (" ++ c ++ str ")"))%result.

(** ** The id generator *)

(** [Date.now() % 100000]: the remainder has the sign of the time value. *)
Definition contador_inicial (now : Z) : Z := Z.rem now 100000.

(** One call of [generarId] on the counter of its closure: the id, and the
    counter it leaves. *)
Definition generarId (contador : Z) : jsstring * Z :=
  let c := contador + 1 in
  (str "p-" ++ Number_toString (num c), c).

(** The ids of [n] calls in a row. *)
Fixpoint generarId_calls (n : nat) (contador : Z) : list jsstring :=
  match n with
  | O => []
  | S n' =>
      let '(id, c) := generarId contador in
      id :: generarId_calls n' c
  end.

(** ** The examples of the rubric *)

(** Number::equal. *)
Definition num_equal (a b : number) : bool :=
  match a, b with
  | Inf s, Inf t => Bool.eqb s t
  | Fin x, Fin y => deqb x y
  | _, _ => false
  end.

(** [a === b]. *)
Definition strict_equals (a b : value) : bool :=
  match a, b with
  | VNum x, VNum y => num_equal x y
  | _, _ => SameValueZero a b
  end.

(** [a < b], the operands converted left to right. *)
Definition js_lt (a b : value) : result bool :=
  (pa <-- ToPrimitive a ;;;
   pb <-- ToPrimitive b ;;;
   Ok (match prim_less pa pb with
       | Some true => true
       | _ => false
       end))%result.

(** The binary [-]. *)
Definition js_sub (a b : value) : result number :=
  (x <-- ToNumber a ;;;
   y <-- ToNumber b ;;;
   Ok (num_add x (num_neg y)))%result.


(** [x / 100] for a number [x]: a division that is exact in decimals. *)
Definition num_div100 (x : number) : number :=
  match x with
  | Fin d => Fin (dnorm (Dec (dmant d) (dscale d + 2)))
  | _ => x
  end.

(** What the function that [generadorDescuentoPorCupon(porcentaje)] returns
    gives for [monto]: [monto * (porcentaje / 100)]. *)
Definition generadorDescuentoPorCupon (porcentaje monto : value)
    : result number :=
  (p <-- ToNumber porcentaje ;;; js_mul monto (VNum (num_div100 p)))%result.

Definition descuento10 : value -> result number :=
  generadorDescuentoPorCupon (VNum (num 10)).

(** [factorial(n)] within [fuel] nested calls: [None] when the recursion has
    not come to an end by then. *)
Fixpoint factorial (fuel : nat) (n : value) : option (result value) :=
  match fuel with
  | O => None
  | S f =>
      match js_lt n (VNum (num 0)) with
      | Throw e => Some (Throw e)
      | Ok true => Some (Ok VNull)
      | Ok false =>
          if strict_equals n (VNum (num 0)) then Some (Ok (VNum (num 1)))
          else
            match js_sub n (VNum (num 1)) with
            | Throw e => Some (Throw e)
            | Ok n1 =>
                match factorial f (VNum n1) with
                | None => None
                | Some (Throw e) => Some (Throw e)
                | Some (Ok r) =>
                    Some (x <-- js_mul n r ;;; Ok (VNum x))%result
                end
            end
      end
  end.

(** The line of [reporteInventario] for a product. *)
Definition reporte_linea (p : Producto) : result jsstring :=
  if strict_equals (precio p) (VNum (num 0)) then
    (n <-- ToString (nombre p) ;;;
     Ok (n ++ str ": precio no disponible" ++ [10%N]))%result
  else
    (n <-- ToString (nombre p) ;;;
     f <-- formatPrice (precio p) ;;;
     Ok (n ++ str ": " ++ f ++ [10%N]))%result.

(** The loop of [reporteInventario]: [reporte += ...] for each product. *)
Fixpoint reporte_desde (reporte : jsstring) (arr : list Producto)
    : result jsstring :=
  match arr with
  | [] => Ok reporte
  | p :: r =>
      (l <-- reporte_linea p ;;; reporte_desde (reporte ++ l) r)%result
  end.

Definition reporteInventario (productosMap : jsmap Producto) : result jsstring :=
  reporte_desde [] (map_values productosMap).

(** ** The products of the page *)

(** What [descubrirProductosEnPagina] reads of a [.product-card]: its
    attribute [data-id] (null when it has none), its [id] (empty when it has
    none), the text of its first [h3] or [h2] and the text of its first
    [.price], if there are such elements. *)
Record Card := mkCard {
  card_data_id : option jsstring;
  card_id : jsstring;
  card_title : option jsstring;
  card_price : option jsstring
}.

(** The text of the price of the card, if it has one, holds at most [n]
    digits, points and commas. *)
Definition price_within (n : nat) (card : Card) : bool :=
  match card_price card with
  | Some t => (length (filter price_char t) <=? n)%nat
  | None => true
  end.

(** [card.getAttribute('data-id') || card.id || generarId()]. *)
Definition card_product_id (card : Card) (contador : Z) : jsstring * Z :=
  match card_data_id card with
  | Some (c :: s) => (c :: s, contador)
  | _ =>
      match card_id card with
      | c :: s => (c :: s, contador)
      | [] => generarId contador
      end
  end.

(** The loop of [descubrirProductosEnPagina] from the card after the [i]-th:
    the map of the products and the counter of [generarId] it leaves. *)
Fixpoint descubrir (i : Z) (cards : list Card) (productosMap : jsmap Producto)
    (contador : Z) : result (jsmap Producto * Z) :=
  match cards with
  | [] => Ok (productosMap, contador)
  | card :: rest =>
      let i := i + 1 in
      let '(id, contador) := card_product_id card contador in
      if map_has (VStr id) productosMap then
        descubrir i rest productosMap contador
      else
        let nombre :=
          match card_title card with
          | Some t => trim t
          | None => str "Producto " ++ Number_toString (num i)
          end in
        (precio <-- match card_price card with
                    | Some t => parsePrice (VStr t)
                    | None => Ok (num 0)
                    end ;;;
         let producto :=
           Producto_new (VStr id) (VStr nombre) (VNum precio) VUndefined in
         descubrir i rest (map_set (VStr id) producto productosMap) contador)%result
  end.

Definition descubrirProductosEnPagina (cards : list Card)
    (productosMap : jsmap Producto) (contador : Z)
    : result (jsmap Producto * Z) :=
  descubrir 0 cards productosMap contador.

(** ** The controls of the cart *)

(** What the handlers below do to the cart.  Each of them goes on to redraw
    the mini cart and the counter, which read the cart and do not change
    it. *)

Definition agregarProductoAlCarritoDesdeBoton (productosMap : jsmap Producto)
    (id : value) : M unit :=
  match map_get id productosMap with
  | None => ret tt
  | Some p => add (Producto_new (getId p) (nombre p) (precio p) (categoria p))
  end.

(** [carrito.getItemsArray().find(x => x.getId() === id)]. *)
Definition find_by_id (id : value) : M (option Producto) :=
  ps <- getItemsArray ;;
  ret (find (fun x => strict_equals (getId x) id) ps).

(** The click on [.skb-decrease] of the row whose [data-id] is [id]. *)
Definition click_decrease (id : jsstring) : M unit :=
  o <- find_by_id (VStr id) ;;
  match o with
  | None => ret tt
  | Some p =>
      q <- lift (js_sub (cantidad p) (VNum (num 1))) ;;
      updateQty (VStr id) (VNum q)
  end.

(** The click on [.skb-increase]. *)
Definition click_increase (id : jsstring) : M unit :=
  o <- find_by_id (VStr id) ;;
  match o with
  | None => ret tt
  | Some p =>
      q <- lift (js_add (cantidad p) (VNum (num 1))) ;;
      updateQty (VStr id) q
  end.

(** The click on [.skb-remove]. *)
Definition click_remove (id : jsstring) : M unit := remove (VStr id).

(** The click on [#skb-clear-cart]. *)
Definition click_clear : M unit := clear.

(** "El carrito está vacío." *)
Definition aviso_vacio : jsstring :=
  str "El carrito est" ++ [225%N] ++ str " vac" ++ [237%N] ++ str "o.".

(** "Gracias por tu compra (simulación). Total: " *)
Definition aviso_gracias : jsstring :=
  str "Gracias por tu compra (simulaci" ++ [243%N] ++ str "n). Total: ".

(** The click on [#skb-checkout]: the text it alerts. *)
Definition click_checkout : M jsstring :=
  c <- getCount ;;
  if strict_equals c (VNum (num 0)) then ret aviso_vacio
  else
    t <- getTotal ;;
    f <- lift (formatPrice (VNum t)) ;;
    clear ;;
    ret (aviso_gracias ++ f).

(** The text [actualizarContadorCarrito] gives the counter of the button. *)
Definition contador_texto : M jsstring :=
  c <- getCount ;; lift (ToString c).

(** ** Series of calls and the state they keep *)

(** The storage holds the text of the cart. *)
Definition in_sync (c : Carrito) (w : World) : Prop :=
  persisted w (cart_text c).

(** A mutation whose arguments are typed as the entries are: a typed product
    to add, a finite number for the new quantity. *)
Definition typed_mutation (mu : mutation) : Prop :=
  match mu with
  | MAdd p => typed p
  | MUpdateQty _ qty => exists q, qty = VNum (Fin q) /\ canonical q
  | _ => True
  end.

(** A product as [descubrirProductosEnPagina] builds it: a non-empty text for
    its id, a text for its name, a finite price that is not negative, the
    category and the quantity of the constructor. *)
Inductive listed : Producto -> Prop :=
| listed_intro (id nom : jsstring) (pr : decimal) :
    id <> [] -> canonical pr -> 0 <= dmant pr ->
    listed (Producto_new (VStr id) (VStr nom) (VNum (Fin pr)) VUndefined).

(** A map of such products, each under its id. *)
Definition catalogue (m : jsmap Producto) : Prop :=
  map_wf m /\ keyed m /\ Forall listed (map_values m).

(** An entry of a cart filled from such products: typed, with a price that
    is not negative and a positive integer for its quantity. *)
Inductive ui_entry : Producto -> Prop :=
| ui_entry_intro (id nom cat : jsstring) (pr : decimal) (n : Z) :
    canonical pr -> 0 <= dmant pr -> 1 <= n ->
    ui_entry (mkProducto (VStr id) (VStr nom) (VNum (Fin pr)) (VStr cat)
                         (VNum (num n))).

Definition ui_cart (c : Carrito) : Prop :=
  map_wf (items c) /\ keyed (items c) /\ Forall ui_entry (map_values (items c)).

(** The controls of the page that change the cart: the button of a product,
    the three buttons of a row of the mini cart, and the two of its foot. *)
Inductive evento :=
| EAgregar (id : jsstring)
| EAumentar (id : jsstring)
| EDisminuir (id : jsstring)
| EEliminar (id : jsstring)
| EVaciar
| EFinalizar.

Definition run_evento (productosMap : jsmap Producto) (ev : evento) : M unit :=
  match ev with
  | EAgregar id => agregarProductoAlCarritoDesdeBoton productosMap (VStr id)
  | EAumentar id => click_increase id
  | EDisminuir id => click_decrease id
  | EEliminar id => click_remove id
  | EVaciar => click_clear
  | EFinalizar => _ <- click_checkout ;; ret tt
  end.

(** The quantity of an entry, when it is an integer. *)
Definition unidades_de (p : Producto) : Z :=
  match cantidad p with
  | VNum (Fin d) => dmant (dnorm d)
  | _ => 0
  end.

(** The units a cart holds. *)
Definition unidades (c : Carrito) : Z :=
  fold_right (fun p s => unidades_de p + s) 0 (map_values (items c)).

(** ** Auxiliary notions of the proofs *)

(** A text that does not go on with [f] ends the scan where it starts. *)
Definition stops (f : char -> bool) (w : jsstring) : Prop :=
  match w with
  | [] => True
  | c :: _ => f c = false
  end.

(** The number a run of digits writes after the digits read so far. *)
Definition dv (acc : N) (ds : jsstring) : N :=
  fold_left (fun a c => (10 * a + digit_val c)%N) ds acc.

(** The integer part of a JSON number: a lone 0, or digits that do not start
    with 0. *)
Definition int_part (ip : jsstring) : Prop :=
  ip = [48%N] \/
  (exists c t, ip = c :: t /\ c <> 48%N /\ forallb is_digit ip = true).

(** The store the operations keep: distinct keys, quantities of at least 1. *)
Definition store_ok (m : jsmap Producto) : Prop :=
  map_wf m /\ Forall (fun p => qty_ge1 (cantidad p) = true) (map_values m).

(** The entry a product is stored as. *)
Definition entry (p : Producto) : value * Producto := (getId p, p).

(** * Properties *)

(** ** Strings and keys *)

Lemma streq_refl (s : jsstring) : streq s s = true.
Proof.
  induction s as [|c s IH]; simpl; [reflexivity|].
  now rewrite N.eqb_refl, IH.
Qed.

Lemma streq_eq (a b : jsstring) : streq a b = true <-> a = b.
Proof.
  split; [|intros ->; apply streq_refl].
  revert b; induction a as [|x a IH]; intros [|y b]; simpl; try easy.
  rewrite andb_true_iff, N.eqb_eq. intros [-> H]. now rewrite (IH _ H).
Qed.

Lemma deqb_refl (d : decimal) : deqb d d = true.
Proof. unfold deqb. apply Z.eqb_refl. Qed.

Lemma num_same_refl (n : number) : num_same n n = true.
Proof.
  destruct n as [|s|d]; simpl; [reflexivity|apply eqb_reflx|apply deqb_refl].
Qed.

Lemma SameValueZero_refl (v : value) : SameValueZero v v = true.
Proof.
  destruct v; simpl; auto using eqb_reflx, num_same_refl, streq_refl, N.eqb_refl.
Qed.

(** ** The map *)

Lemma map_has_get {V} (k : value) (m : jsmap V) :
  map_has k m = true <-> exists v, map_get k m = Some v.
Proof.
  induction m as [|[k' v'] m IH]; simpl.
  - split; [discriminate|intros [v H]; discriminate].
  - destruct (SameValueZero k' k); simpl; [|exact IH].
    split; [intros _; now exists v'|reflexivity].
Qed.

Lemma map_get_none {V} (k : value) (m : jsmap V) :
  map_has k m = false <-> map_get k m = None.
Proof.
  induction m as [|[k' v'] m IH]; simpl; [easy|].
  destruct (SameValueZero k' k); simpl; [easy|exact IH].
Qed.

Lemma map_get_set_new {V} (k : value) (v : V) (m : jsmap V) :
  map_has k m = false -> map_get k (map_set k v m) = Some v.
Proof.
  induction m as [|[k' v'] m IH]; simpl.
  - now rewrite SameValueZero_refl.
  - destruct (SameValueZero k' k) eqn:E; simpl; [discriminate|].
    intros H. now rewrite E, IH.
Qed.

Lemma map_get_set_old {V} (k : value) (v : V) (m : jsmap V) :
  map_has k m = true -> map_get k (map_set k v m) = Some v.
Proof.
  induction m as [|[k' v'] m IH]; simpl; [discriminate|].
  destruct (SameValueZero k' k) eqn:E; simpl; rewrite E; [reflexivity|exact IH].
Qed.

Lemma map_get_set {V} (k : value) (v : V) (m : jsmap V) :
  map_get k (map_set k v m) = Some v.
Proof.
  destruct (map_has k m) eqn:E;
    [now apply map_get_set_old|now apply map_get_set_new].
Qed.

Lemma map_has_set {V} (k : value) (v : V) (m : jsmap V) :
  map_has k (map_set k v m) = true.
Proof. apply map_has_get. exists v. apply map_get_set. Qed.

Lemma map_set_new {V} (k : value) (v : V) (m : jsmap V) :
  map_has k m = false -> map_set k v m = m ++ [(k, v)].
Proof.
  induction m as [|[k' v'] m IH]; simpl; [reflexivity|].
  destruct (SameValueZero k' k); simpl; [discriminate|].
  intros H. now rewrite IH.
Qed.

Lemma map_delete_absent {V} (k : value) (m : jsmap V) :
  map_has k m = false -> map_delete k m = m.
Proof.
  induction m as [|[k' v'] m IH]; simpl; [reflexivity|].
  destruct (SameValueZero k' k); simpl; [discriminate|].
  intros H. now rewrite IH.
Qed.

(** ** saveToStorage *)

Ltac munfold :=
  repeat (progress unfold bind, ret, lift, throw, try_catch, get_items,
            set_items, get_world, set_world, console_error);
  cbn [fst snd items].

Lemma json_text_array (r : ref) (l : list value) :
  exists t, json_text (VArr r l) = Some t.
Proof. simpl. eauto. Qed.

Lemma JSON_stringify_cart (c : Carrito) :
  JSON_stringify (VArr 0%N (map record_of (map_values (items c))))
  = VStr (cart_text c).
Proof. unfold JSON_stringify, cart_text. simpl. reflexivity. Qed.

Lemma setItem_string (k s : jsstring) (c : Carrito) (w : World) :
  localStorage_setItem k (VStr s) (c, w)
  = if ls_enabled w then
      if (ls_quota w <? N.of_nat (length k + length s))%N
      then (Throw QuotaExceededError, (c, w))
      else (Ok tt, (c, store k s w))
    else (Throw SecurityError, (c, w)).
Proof.
  unfold localStorage_setItem. munfold. cbn [ToString].
  destruct (ls_enabled w); [|reflexivity].
  destruct (ls_quota w <? N.of_nat (length k + length s))%N; reflexivity.
Qed.

Lemma saveToStorage_unfold (c : Carrito) (w : World) :
  saveToStorage (c, w)
  = match localStorage_setItem storage_key (VStr (cart_text c)) (c, w) with
    | (Ok a, st') => (Ok a, st')
    | (Throw e, st') => console_error (str "guardar carrito") e st'
    end.
Proof.
  unfold saveToStorage, getItemsArray. munfold.
  rewrite JSON_stringify_cart. reflexivity.
Qed.

(** The write succeeds: the text of the cart is stored. *)
Lemma saveToStorage_written (c : Carrito) (w : World) :
  write_fails w c = false ->
  saveToStorage (c, w) = (Ok tt, (c, store storage_key (cart_text c) w)).
Proof.
  unfold write_fails, setItem_throws. intros H.
  apply orb_false_iff in H as [Hen Hq]. apply negb_false_iff in Hen.
  rewrite saveToStorage_unfold, setItem_string, Hen, Hq. reflexivity.
Qed.

(** The write fails: the exception is caught and logged, nothing else
    changes. *)
Lemma saveToStorage_failed (c : Carrito) (w : World) :
  write_fails w c = true ->
  saveToStorage (c, w)
  = (Ok tt, (c, log_error (str "guardar carrito") (write_error w) w)).
Proof.
  unfold write_fails, setItem_throws, write_error. intros H.
  rewrite saveToStorage_unfold, setItem_string.
  destruct (ls_enabled w); cbn [negb orb] in H; [rewrite H|]; reflexivity.
Qed.

(** [saveToStorage] never throws and never touches the cart. *)
Lemma saveToStorage_safe (c : Carrito) (w : World) :
  exists w', saveToStorage (c, w) = (Ok tt, (c, w')).
Proof.
  destruct (write_fails w c) eqn:E.
  - eexists. now apply saveToStorage_failed.
  - eexists. now apply saveToStorage_written.
Qed.

(** ** loadFromStorage *)

Lemma load_record_spec (o : value) (c : Carrito) (w : World) :
  load_record o (c, w)
  = match record_product o with
    | Ok p => (Ok tt, (mkCarrito (map_set (getId p) p (items c)), w))
    | Throw e => (Throw e, (c, w))
    end.
Proof.
  unfold load_record. munfold. destruct (record_product o); reflexivity.
Qed.

Lemma for_each_load (os : list value) (c : Carrito) (w : World) :
  for_each load_record os (c, w)
  = match load_items os (items c) with
    | (None, m) => (Ok tt, (mkCarrito m, w))
    | (Some e, m) => (Throw e, (mkCarrito m, w))
    end.
Proof.
  revert c; induction os as [|o os IH]; intros [m]; cbn [for_each load_items items].
  - reflexivity.
  - unfold bind at 1. rewrite load_record_spec.
    destruct (record_product o) as [p|e]; cbn [items]; [apply IH|reflexivity].
Qed.

(** The cases of [loadFromStorage], one by one. *)
Lemma loadFromStorage_unfold (c : Carrito) (w : World) :
  loadFromStorage (c, w)
  = if ls_enabled w then
      match props_get storage_key (ls_items w) with
      | None | Some [] => (Ok tt, (c, w))
      | Some raw =>
          match JSON_parse raw with
          | None => (Ok tt, (c, log_error (str "cargar carrito") SyntaxError w))
          | Some v =>
              let w1 := with_next_ref (snd (alloc v (next_ref w))) w in
              match iterate (fst (alloc v (next_ref w))) with
              | Throw e => (Ok tt, (c, log_error (str "cargar carrito") e w1))
              | Ok os =>
                  match load_items os (items c) with
                  | (None, m) => (Ok tt, (mkCarrito m, w1))
                  | (Some e, m) =>
                      (Ok tt, (mkCarrito m, log_error (str "cargar carrito") e w1))
                  end
              end
          end
      end
    else (Ok tt, (c, log_error (str "cargar carrito") SecurityError w)).
Proof.
  unfold loadFromStorage, localStorage_getItem. munfold.
  destruct (ls_enabled w); [|reflexivity].
  destruct (props_get storage_key (ls_items w)) as [[|x raw]|];
    cbn [ToBoolean negb ToString]; try reflexivity.
  unfold JSON_parse_m.
  destruct (JSON_parse (x :: raw)) as [v|]; munfold; [|reflexivity].
  destruct (alloc v (next_ref w)) as [v' n]; munfold.
  destruct (iterate v') as [os|e]; [|reflexivity].
  rewrite for_each_load. cbn [items].
  destruct (load_items os (items c)) as [[e|] m]; reflexivity.
Qed.

(** What [loadFromStorage] leaves in the map. *)
Lemma loadFromStorage_items (c : Carrito) (w : World) :
  items (fst (snd (loadFromStorage (c, w))))
  = snd (load_items (hydration_records w) (items c)).
Proof.
  rewrite loadFromStorage_unfold. unfold hydration_records.
  destruct (ls_enabled w); [|reflexivity].
  destruct (props_get storage_key (ls_items w)) as [[|x raw]|];
    try reflexivity.
  destruct (JSON_parse (x :: raw)) as [v|]; [|reflexivity].
  cbv zeta. destruct (iterate _) as [os|e]; [|reflexivity].
  destruct (load_items os (items c)) as [[e|] m]; reflexivity.
Qed.

(** [loadFromStorage] never throws. *)
Lemma loadFromStorage_safe (st : State) :
  exists st', loadFromStorage st = (Ok tt, st').
Proof.
  destruct st as [c w]. rewrite loadFromStorage_unfold.
  destruct (ls_enabled w); [|eauto].
  destruct (props_get storage_key (ls_items w)) as [[|x raw]|]; eauto.
  destruct (JSON_parse (x :: raw)) as [v|]; eauto.
  cbv zeta. destruct (iterate _); eauto.
  destruct (load_items _ _) as [[e|] m]; eauto.
Qed.

(** ** C1 *)

Lemma blob_code_parsed :
  JSON_parse blob_code
  = Some (VArr 0%N
      [VObj 0%N
         [(str "id", VStr (str "p2")); (str "nombre", VStr (str "Torta"));
          (str "precio", VNum (num 300));
          (str "categoria", VStr (str "general"));
          (str "cantidad", VNum (num 2))]]).
Proof. vm_compute. reflexivity. Qed.

Lemma blob_spec_parsed :
  JSON_parse blob_spec
  = Some (VArr 0%N
      [VObj 0%N
         [(str "id", VStr (str "p2")); (str "name", VStr (str "Torta"));
          (str "price", VNum (num 300));
          (str "category", VStr (str "general"));
          (str "quantity", VNum (num 2))]]).
Proof. vm_compute. reflexivity. Qed.

(** The cart hydrated from the blob under the field names of the code. *)
Lemma hydrate_blob_code (w : World) :
  persisted w blob_code ->
  items (fst (hydrate w))
  = [(VStr (str "p2"),
      mkProducto (VStr (str "p2")) (VStr (str "Torta")) (VNum (num 300))
                 (VStr (str "general")) (VNum (num 2)))].
Proof.
  intros [Hen Hget]. unfold hydrate, Carrito_new.
  rewrite loadFromStorage_unfold, Hen, Hget.
  change blob_code with (91%N :: tl blob_code) at 1.
  change (91%N :: tl blob_code) with blob_code.
  rewrite blob_code_parsed. reflexivity.
Qed.

(** C1, as the code has it: the persisted blob
    [[{"id":"p2","nombre":"Torta","precio":300,"categoria":"general","cantidad":2}]],
    under the field names [saveToStorage] writes and [loadFromStorage] reads,
    hydrates to a cart whose [getTotal()] is 600. *)
Theorem C1_hydrated_total (w : World) :
  persisted w blob_code ->
  fst (getTotal (hydrate w)) = Ok (num 600).
Proof.
  intros H. pose proof (hydrate_blob_code w H) as Hitems.
  unfold getTotal. munfold. rewrite Hitems. reflexivity.
Qed.

Lemma C1_hydrated_total_witness :
  persisted (world_with blob_code) blob_code /\
  fst (getTotal (hydrate (world_with blob_code))) = Ok (num 600).
Proof.
  assert (H : persisted (world_with blob_code) blob_code)
    by (split; reflexivity).
  split; [exact H|exact (C1_hydrated_total (world_with blob_code) H)].
Defined.

(** The blob as the specification writes it, with the keys [name], [price]
    and [quantity], hydrates to one entry whose name, price and quantity are
    undefined: its total is NaN, not 600. *)
Lemma C1_spec_blob_total_NaN :
  persisted (world_with blob_spec) blob_spec /\
  items (fst (hydrate (world_with blob_spec)))
  = [(VStr (str "p2"),
      mkProducto (VStr (str "p2")) VUndefined VUndefined
                 (VStr (str "general")) VUndefined)] /\
  fst (getTotal (hydrate (world_with blob_spec))) = Ok NaN /\
  fst (getTotal (hydrate (world_with blob_spec))) <> Ok (num 600).
Proof.
  split; [split; reflexivity|].
  assert (Hitems : items (fst (hydrate (world_with blob_spec)))
    = [(VStr (str "p2"),
        mkProducto (VStr (str "p2")) VUndefined VUndefined
                   (VStr (str "general")) VUndefined)]).
  { unfold hydrate, Carrito_new. rewrite loadFromStorage_unfold.
    cbn [world_with ls_enabled ls_items props_get].
    rewrite streq_refl.
    change blob_spec with (91%N :: tl blob_spec) at 1.
    change (91%N :: tl blob_spec) with blob_spec.
    rewrite blob_spec_parsed. reflexivity. }
  split; [exact Hitems|].
  assert (Htot : fst (getTotal (hydrate (world_with blob_spec))) = Ok NaN).
  { unfold getTotal. munfold. rewrite Hitems. reflexivity. }
  split; [exact Htot|]. rewrite Htot. discriminate.
Qed.

(** ** The mutations, case by case *)

Lemma deqb_sym (a b : decimal) : deqb a b = deqb b a.
Proof. unfold deqb. apply Z.eqb_sym. Qed.

Lemma streq_sym (a b : jsstring) : streq a b = streq b a.
Proof.
  revert b; induction a as [|x a IH]; intros [|y b]; simpl; try reflexivity.
  now rewrite N.eqb_sym, IH.
Qed.

Lemma SameValueZero_sym (a b : value) : SameValueZero a b = SameValueZero b a.
Proof.
  destruct a, b; simpl; try reflexivity;
    auto using streq_sym, N.eqb_sym.
  - destruct b, b0; reflexivity.
  - destruct n, n0; simpl; try reflexivity;
      [destruct neg, neg0; reflexivity|apply deqb_sym].
Qed.

Lemma map_delete_set {V} (k : value) (v : V) (m : jsmap V) :
  map_delete k (map_set k v m) = map_delete k m.
Proof.
  induction m as [|[k' v'] m IH]; simpl.
  - now rewrite SameValueZero_refl.
  - destruct (SameValueZero k' k) eqn:E; simpl; rewrite E; [reflexivity|].
    now rewrite IH.
Qed.

Lemma map_has_delete_other {V} (k k' : value) (m : jsmap V) :
  map_has k m = false -> map_has k (map_delete k' m) = false.
Proof.
  induction m as [|[k0 v0] m IH]; simpl; [reflexivity|].
  intros H. apply orb_false_iff in H as [H0 H1].
  destruct (SameValueZero k0 k'); simpl; [exact H1|].
  now rewrite H0, IH.
Qed.

Lemma map_has_delete {V} (k : value) (m : jsmap V) :
  map_wf m -> map_has k (map_delete k m) = false.
Proof.
  induction m as [|[k0 v0] m IH]; simpl; [reflexivity|].
  intros [Hk Hwf]. destruct (SameValueZero k0 k) eqn:E; simpl.
  - (* the entry found: no later key is the same as [k0], nor as [k] *)
    clear IH. induction m as [|[k1 v1] m IH]; simpl in *; [reflexivity|].
    apply orb_false_iff in Hk as [H1 H2]. destruct Hwf as [_ Hwf].
    rewrite (IH H2 Hwf), orb_false_r.
    destruct k0, k, k1; simpl in *; try discriminate; try reflexivity;
      try congruence.
    + destruct b, b0, b1; simpl in *; congruence.
    + destruct n as [|s|d], n0 as [|s0|d0], n1 as [|s1|d1]; simpl in *;
        try discriminate; try reflexivity; try congruence.
      * destruct s, s0, s1; simpl in *; congruence.
      * unfold deqb in *. rewrite Z.eqb_eq in E. rewrite Z.eqb_neq in H1.
        apply Z.eqb_neq. intros H3. apply H1.
        assert (Hp : forall n, 0 < pow10 n)
          by (intros n; unfold pow10; apply Z.pow_pos_nonneg; lia).
        apply (Z.mul_cancel_r _ _ (pow10 (dscale d0)));
          [pose proof (Hp (dscale d0)); lia|].
        replace (dmant d1 * pow10 (dscale d) * pow10 (dscale d0))
          with (dmant d1 * pow10 (dscale d0) * pow10 (dscale d)) by ring.
        replace (dmant d * pow10 (dscale d1) * pow10 (dscale d0))
          with (dmant d * pow10 (dscale d0) * pow10 (dscale d1)) by ring.
        rewrite H3, E. ring.
    + apply streq_eq in E. subst. exact H1.
    + apply N.eqb_eq in E. subst. exact H1.
    + apply N.eqb_eq in E. subst. exact H1.
  - rewrite E. simpl. auto.
Qed.

Lemma add_unfold (p : Producto) (c : Carrito) (w : World) :
  add p (c, w)
  = match add_items p (items c) with
    | Ok m' => saveToStorage (mkCarrito m', w)
    | Throw e => (Throw e, (c, w))
    end.
Proof.
  unfold add, add_items. munfold.
  destruct (map_has (getId p) (items c)); [|reflexivity].
  destruct (map_get (getId p) (items c)) as [e|]; munfold.
  - destruct (js_add (cantidad e) (VNum (num 1))); reflexivity.
  - destruct c; reflexivity.
Qed.

Lemma remove_unfold (id : value) (c : Carrito) (w : World) :
  remove id (c, w) = saveToStorage (mkCarrito (map_delete id (items c)), w).
Proof. unfold remove. munfold. reflexivity. Qed.

Lemma clear_unfold (c : Carrito) (w : World) :
  clear (c, w) = saveToStorage (mkCarrito [], w).
Proof. unfold clear. munfold. reflexivity. Qed.

Lemma updateQty_unfold (id qty : value) (c : Carrito) (w : World) :
  updateQty id qty (c, w)
  = match map_get id (items c) with
    | None => (Ok tt, (c, w))
    | Some p =>
        let m1 := map_set id (set_cantidad qty p) (items c) in
        match js_le qty (VNum (num 0)) with
        | Ok true => saveToStorage (mkCarrito (map_delete id (items c)), w)
        | Ok false => saveToStorage (mkCarrito m1, w)
        | Throw e => (Throw e, (mkCarrito m1, w))
        end
    end.
Proof.
  unfold updateQty. munfold.
  destruct (map_has id (items c)) eqn:Hhas; cbn [negb].
  - destruct (map_get id (items c)) as [p|]; [|reflexivity].
    munfold. cbn [cantidad set_cantidad].
    destruct (js_le qty (VNum (num 0))) as [[|]|e]; munfold;
      [rewrite map_delete_set|..]; reflexivity.
  - apply map_get_none in Hhas. rewrite Hhas. reflexivity.
Qed.

(** A well-formed map without one key. *)
Lemma map_delete_filter {V} (k : value) (m : jsmap V) :
  map_wf m ->
  map_delete k m = filter (fun kv => negb (SameValueZero (fst kv) k)) m.
Proof.
  induction m as [|[k0 v0] m IH]; simpl; [reflexivity|].
  intros [Hk Hwf]. destruct (SameValueZero k0 k) eqn:E; simpl.
  - pose proof (map_has_delete k ((k0, v0) :: m) (conj Hk Hwf)) as H.
    simpl in H. rewrite E in H.
    clear - H. induction m as [|[k1 v1] m IH]; simpl in *; [reflexivity|].
    apply orb_false_iff in H as [H1 H2]. rewrite H1. simpl.
    now rewrite <- IH.
  - now rewrite IH.
Qed.

Lemma js_gt_not_le (a b : value) :
  js_gt a b = Ok true -> js_le a b = Ok false.
Proof.
  unfold js_gt, js_le, rbind.
  destruct (ToPrimitive a); [|discriminate].
  destruct (ToPrimitive b); [|discriminate].
  destruct (prim_less a1 a0) as [[|]|]; try discriminate. reflexivity.
Qed.

(** ** C4 *)

(** C4: [updateQty(id, qty)] leaves the store and the environment as they are
    when the cart does not hold [id]; removes the entry of [id], and nothing
    else, when it holds it and [qty <= 0], so that what [getCount] sums
    afterwards leaves it out; and stores [qty] as the quantity of that entry,
    the others as they were, when it holds it and [qty > 0]. *)
Theorem C4_updateQty_cases (id qty : value) (c : Carrito) (w : World) :
  map_wf (items c) ->
  (map_has id (items c) = false ->
   updateQty id qty (c, w) = (Ok tt, (c, w))) /\
  (map_has id (items c) = true ->
   js_le qty (VNum (num 0)) = Ok true ->
   exists w',
     let c' := mkCarrito (filter (fun kv => negb (SameValueZero (fst kv) id))
                                 (items c)) in
     updateQty id qty (c, w) = (Ok tt, (c', w')) /\
     map_has id (items c') = false /\
     getCount (c', w')
     = (sum_count (VNum (num 0))
          (map snd (filter (fun kv => negb (SameValueZero (fst kv) id))
                           (items c))),
        (c', w'))) /\
  (map_has id (items c) = true ->
   js_gt qty (VNum (num 0)) = Ok true ->
   exists p w',
     map_get id (items c) = Some p /\
     updateQty id qty (c, w)
     = (Ok tt, (mkCarrito (map_set id (set_cantidad qty p) (items c)), w')) /\
     map_get id (map_set id (set_cantidad qty p) (items c))
     = Some (set_cantidad qty p) /\
     cantidad (set_cantidad qty p) = qty).
Proof.
  intros Hwf. repeat split.
  - intros Hno. rewrite updateQty_unfold.
    apply map_get_none in Hno. now rewrite Hno.
  - intros Hhas Hle. apply map_has_get in Hhas as [p Hp].
    rewrite updateQty_unfold, Hp, Hle. cbv zeta.
    destruct (saveToStorage_safe (mkCarrito (map_delete id (items c))) w)
      as [w' Hw'].
    exists w'. rewrite Hw', <- (map_delete_filter id (items c) Hwf).
    repeat split. now apply map_has_delete.
  - intros Hhas Hgt. apply map_has_get in Hhas as [p Hp].
    apply js_gt_not_le in Hgt.
    rewrite updateQty_unfold, Hp, Hgt. cbv zeta.
    destruct (saveToStorage_safe
                (mkCarrito (map_set id (set_cantidad qty p) (items c))) w)
      as [w' Hw'].
    exists p, w'. rewrite Hw'. repeat split. apply map_get_set.
Qed.

Lemma C4_updateQty_cases_witness :
  map_wf (items cart_cupcake) /\
  updateQty (VStr (str "p9")) (VNum (num 3)) (cart_cupcake, empty_world)
  = (Ok tt, (cart_cupcake, empty_world)) /\
  (exists w',
     updateQty (VStr (str "p1")) (VNum (num (-1))) (cart_cupcake, empty_world)
     = (Ok tt, (mkCarrito [], w'))) /\
  (exists w',
     updateQty (VStr (str "p1")) (VNum (num 3)) (cart_cupcake, empty_world)
     = (Ok tt,
        (mkCarrito [(VStr (str "p1"), set_cantidad (VNum (num 3)) cupcake)], w'))).
Proof.
  assert (Hwf : map_wf (items cart_cupcake)) by (simpl; auto).
  split; [exact Hwf|]. split; [|split].
  - exact (proj1 (C4_updateQty_cases (VStr (str "p9")) (VNum (num 3))
                    cart_cupcake empty_world Hwf) eq_refl).
  - destruct (proj1 (proj2 (C4_updateQty_cases (VStr (str "p1"))
                              (VNum (num (-1))) cart_cupcake empty_world Hwf))
                eq_refl eq_refl) as [w' [H _]].
    exists w'. exact H.
  - destruct (proj2 (proj2 (C4_updateQty_cases (VStr (str "p1"))
                              (VNum (num 3)) cart_cupcake empty_world Hwf))
                eq_refl eq_refl) as [p [w' [Hp [H _]]]].
    exists w'. injection Hp as <-. exact H.
Defined.

(** ** Numbers: the canonical form *)

Lemma dnorm_aux_canonical (m : Z) (k : nat) :
  dnorm (dnorm_aux m k) = dnorm_aux m k.
Proof.
  revert m; induction k as [|k IH]; intros m; cbn [dnorm_aux].
  - reflexivity.
  - destruct (m mod 10 =? 0) eqn:E; [apply IH|].
    unfold dnorm. cbn [dmant dscale dnorm_aux]. now rewrite E.
Qed.

Lemma dnorm_idem (d : decimal) : dnorm (dnorm d) = dnorm d.
Proof. apply dnorm_aux_canonical. Qed.

Lemma dadd_zero_l (d : decimal) : dadd (dint 0) d = dnorm d.
Proof.
  destruct d as [m k]. unfold dadd, dint. cbn [dmant dscale Nat.max].
  rewrite Nat.sub_diag. unfold pow10 at 2. cbn [Z.of_nat Z.pow].
  rewrite Z.mul_0_l, Z.add_0_l, Z.mul_1_r. reflexivity.
Qed.

Lemma dadd_int (a b : Z) : dadd (dint a) (dint b) = dint (a + b).
Proof.
  unfold dadd, dint, dnorm, pow10. cbn.
  now rewrite !Z.mul_1_r.
Qed.

Lemma num_add_int (a b : Z) : num_add (num a) (num b) = num (a + b).
Proof. unfold num. cbn [num_add]. now rewrite dadd_int. Qed.

Lemma is_integer_add_zero (q : number) :
  is_integer (num_add (num 0) q) = is_integer q.
Proof.
  destruct q as [|s|d]; try reflexivity.
  unfold num. cbn [num_add is_integer]. now rewrite dadd_zero_l, dnorm_idem.
Qed.

Lemma js_le_number (q : number) :
  js_le (VNum q) (VNum (num 0))
  = Ok (match num_lt (num 0) q with Some false => true | _ => false end).
Proof. reflexivity. Qed.

(** ** C10 *)

(** C10: for every id the cart holds and every number [q > 0],
    [updateQty(id, q)] stores [q] itself as the quantity of the entry: no
    rounding, no test that it is an integer.  In a cart whose only entry it
    is, [getCount()] then returns [0 + q], an integer only if [q] is one. *)
Theorem C10_updateQty_keeps_fraction (id : value) (q : number) (c : Carrito)
    (w : World) :
  map_has id (items c) = true ->
  num_lt (num 0) q = Some true ->
  exists p w',
    map_get id (items c) = Some p /\
    updateQty id (VNum q) (c, w)
    = (Ok tt, (mkCarrito (map_set id (set_cantidad (VNum q) p) (items c)), w')) /\
    map_get id (map_set id (set_cantidad (VNum q) p) (items c))
    = Some (set_cantidad (VNum q) p) /\
    cantidad (set_cantidad (VNum q) p) = VNum q /\
    (forall k, items c = [(k, p)] ->
       fst (getCount (snd (updateQty id (VNum q) (c, w))))
       = Ok (VNum (num_add (num 0) q)) /\
       is_integer (num_add (num 0) q) = is_integer q).
Proof.
  intros Hhas Hq. pose proof Hhas as Hhas'.
  apply map_has_get in Hhas as [p Hp].
  destruct (saveToStorage_safe
              (mkCarrito (map_set id (set_cantidad (VNum q) p) (items c))) w)
    as [w' Hw'].
  assert (Hrun : updateQty id (VNum q) (c, w)
    = (Ok tt, (mkCarrito (map_set id (set_cantidad (VNum q) p) (items c)), w'))).
  { rewrite updateQty_unfold, Hp, js_le_number, Hq. cbv zeta. exact Hw'. }
  exists p, w'. repeat split; try assumption.
  - apply map_get_set.
  - rewrite Hrun. unfold getCount. munfold. rewrite H in *.
    cbn [map_has map_set] in *. rewrite orb_false_r in Hhas'.
    rewrite Hhas'. reflexivity.
  - apply is_integer_add_zero.
Qed.

Lemma C10_updateQty_keeps_fraction_witness :
  map_has (VStr (str "p1")) (items cart_cupcake) = true /\
  num_lt (num 0) half = Some true /\
  (exists w',
     updateQty (VStr (str "p1")) (VNum half) (cart_cupcake, empty_world)
     = (Ok tt,
        (mkCarrito [(VStr (str "p1"), set_cantidad (VNum half) cupcake)], w'))) /\
  fst (getCount (snd (updateQty (VStr (str "p1")) (VNum half)
                        (cart_cupcake, empty_world))))
  = Ok (VNum half) /\
  is_integer half = false.
Proof.
  split; [reflexivity|]. split; [reflexivity|].
  destruct (C10_updateQty_keeps_fraction (VStr (str "p1")) half cart_cupcake
              empty_world eq_refl eq_refl)
    as [p [w' [Hp [Hrun [_ [_ Hcount]]]]]].
  injection Hp as <-.
  split; [exists w'; exact Hrun|].
  split; [exact (proj1 (Hcount _ eq_refl))|reflexivity].
Defined.

(** ** C3 *)

Lemma set_cantidad_twice (q q' : value) (p : Producto) :
  set_cantidad q (set_cantidad q' p) = set_cantidad q p.
Proof. reflexivity. Qed.

(** [add] of a product whose id the cart holds with a numeric quantity. *)
Lemma add_existing (p e : Producto) (k : Z) (c : Carrito) (w : World) :
  map_get (getId p) (items c) = Some e ->
  cantidad e = VNum (num k) ->
  exists w',
    add p (c, w)
    = (Ok tt,
       (mkCarrito (map_set (getId p) (set_cantidad (VNum (num (k + 1))) e)
                           (items c)), w')).
Proof.
  intros Hget Hq.
  assert (Hhas : map_has (getId p) (items c) = true)
    by (apply map_has_get; eauto).
  rewrite add_unfold. unfold add_items. rewrite Hhas, Hget, Hq.
  unfold js_add. cbn [ToPrimitive rbind is_string orb prim_to_number].
  rewrite num_add_int. apply saveToStorage_safe.
Qed.

Lemma add_repeated (X : value) (rest : list Producto) :
  Forall (fun p => getId p = X) rest ->
  forall (e : Producto) (k : Z) (c : Carrito) (w : World),
    map_get X (items c) = Some e ->
    cantidad e = VNum (num k) ->
    exists c' w',
      for_each add rest (c, w) = (Ok tt, (c', w')) /\
      map_get X (items c')
      = Some (set_cantidad (VNum (num (k + Z.of_nat (length rest)))) e).
Proof.
  induction 1 as [|p rest Hp _ IH]; intros e k c w Hget Hq.
  - exists c, w. split; [reflexivity|].
    cbn [length Z.of_nat]. rewrite Z.add_0_r, Hget. f_equal.
    destruct e; cbn in *. now subst.
  - subst X. destruct (add_existing p e k c w Hget Hq) as [w1 Hadd].
    destruct (IH (set_cantidad (VNum (num (k + 1))) e) (k + 1)
                 (mkCarrito (map_set (getId p)
                    (set_cantidad (VNum (num (k + 1))) e) (items c))) w1)
      as [c' [w' [Hrun Hget']]].
    + cbn [items]. apply map_get_set.
    + reflexivity.
    + exists c', w'. split.
      * cbn [for_each]. unfold bind at 1. rewrite Hadd. exact Hrun.
      * rewrite Hget', set_cantidad_twice. do 4 f_equal.
        cbn [length]. lia.
Qed.

(** C3: from a cart that does not hold the id [X], [add] called with
    [first], a freshly constructed product of id [X], and then with every
    product of [rest], all of id [X], leaves for [X] an entry whose quantity
    is the number of calls and whose name, price and category are those of
    [first]. *)
Theorem C3_add_merges (X nom pre cat : value) (rest : list Producto)
    (c : Carrito) (w : World) :
  map_has X (items c) = false ->
  Forall (fun p => getId p = X) rest ->
  exists c' w',
    for_each add (Producto_new X nom pre cat :: rest) (c, w)
    = (Ok tt, (c', w')) /\
    map_get X (items c')
    = Some (mkProducto X nom pre (categoria (Producto_new X nom pre cat))
              (VNum (num (Z.of_nat (length (Producto_new X nom pre cat :: rest)))))).
Proof.
  intros Hno Hrest. set (first := Producto_new X nom pre cat).
  destruct (saveToStorage_safe (mkCarrito (map_set X first (items c))) w)
    as [w1 Hsave].
  assert (Hadd : add first (c, w)
    = (Ok tt, (mkCarrito (map_set X first (items c)), w1))).
  { rewrite add_unfold. unfold add_items.
    change (getId first) with X. rewrite Hno. exact Hsave. }
  destruct (add_repeated X rest Hrest first 1
              (mkCarrito (map_set X first (items c))) w1)
    as [c' [w' [Hrun Hget]]].
  - cbn [items]. apply map_get_set.
  - reflexivity.
  - exists c', w'. split.
    + cbn [for_each]. unfold bind at 1. rewrite Hadd. exact Hrun.
    + rewrite Hget. unfold set_cantidad, first. cbn [p_id nombre precio
        categoria Producto_new]. do 4 f_equal. cbn [length]. lia.
Qed.

Lemma C3_add_merges_witness :
  map_has (VStr (str "p1")) (items (mkCarrito [])) = false /\
  Forall (fun p => getId p = VStr (str "p1"))
    [Producto_new (VStr (str "p1")) (VStr (str "Muffin")) (VNum (num 9))
       (VStr (str "otros"))] /\
  exists c' w',
    for_each add
      [cupcake;
       Producto_new (VStr (str "p1")) (VStr (str "Muffin")) (VNum (num 9))
         (VStr (str "otros"))]
      (mkCarrito [], empty_world)
    = (Ok tt, (c', w')) /\
    map_get (VStr (str "p1")) (items c')
    = Some (mkProducto (VStr (str "p1")) (VStr (str "Cupcake")) (VNum (num 5))
              (VStr (str "general")) (VNum (num 2))).
Proof.
  assert (H : Forall (fun p => getId p = VStr (str "p1"))
    [Producto_new (VStr (str "p1")) (VStr (str "Muffin")) (VNum (num 9))
       (VStr (str "otros"))])
    by (constructor; [reflexivity|constructor]).
  split; [reflexivity|]. split; [exact H|].
  exact (C3_add_merges (VStr (str "p1")) (VStr (str "Cupcake")) (VNum (num 5))
           VUndefined _ (mkCarrito []) empty_world eq_refl H).
Defined.

(** ** C8 *)

(** C8: take a mutation that reaches its [saveToStorage] and, where it
    completes, leaves the cart [c'].  Run it where the write of [c'] fails
    (the page may not use [localStorage], or the quota is exceeded): it
    returns normally, the store is [c'], the exception is logged with
    [console.error], and [localStorage] keeps what it held. *)
Theorem C8_write_failure_is_caught (mu : mutation) (c c' : Carrito)
    (w w0 w0' : World) :
  run_mutation mu (c, w0) = (Ok tt, (c', w0')) ->
  writes mu c = true ->
  write_fails w c' = true ->
  exists w',
    run_mutation mu (c, w) = (Ok tt, (c', w')) /\
    w' = log_error (str "guardar carrito") (write_error w) w /\
    console w' = Log (str "guardar carrito") (write_error w) :: console w /\
    ls_items w' = ls_items w.
Proof.
  intros Hrun Hwrites Hfail.
  exists (log_error (str "guardar carrito") (write_error w) w).
  split; [|repeat split].
  destruct mu as [p|id|id qty|]; cbn [run_mutation writes] in *.
  - rewrite add_unfold in *.
    destruct (add_items p (items c)) as [m'|e]; [|discriminate].
    destruct (saveToStorage_safe (mkCarrito m') w0) as [w1 H1].
    rewrite H1 in Hrun. injection Hrun as <- _.
    now apply saveToStorage_failed.
  - rewrite remove_unfold in *.
    destruct (saveToStorage_safe (mkCarrito (map_delete id (items c))) w0)
      as [w1 H1].
    rewrite H1 in Hrun. injection Hrun as <- _.
    now apply saveToStorage_failed.
  - rewrite updateQty_unfold in *.
    apply map_has_get in Hwrites as [p Hp]. rewrite Hp in *. cbv zeta in *.
    destruct (js_le qty (VNum (num 0))) as [[|]|e]; [| |discriminate].
    + destruct (saveToStorage_safe (mkCarrito (map_delete id (items c))) w0)
        as [w1 H1].
      rewrite H1 in Hrun. injection Hrun as <- _.
      now apply saveToStorage_failed.
    + destruct (saveToStorage_safe
                  (mkCarrito (map_set id (set_cantidad qty p) (items c))) w0)
        as [w1 H1].
      rewrite H1 in Hrun. injection Hrun as <- _.
      now apply saveToStorage_failed.
  - rewrite clear_unfold in *.
    destruct (saveToStorage_safe (mkCarrito []) w0) as [w1 H1].
    rewrite H1 in Hrun. injection Hrun as <- _.
    now apply saveToStorage_failed.
Qed.

Lemma C8_write_failure_is_caught_witness :
  run_mutation (MAdd cupcake) (mkCarrito [], empty_world)
  = (Ok tt, (cart_cupcake,
             store storage_key (cart_text cart_cupcake) empty_world)) /\
  writes (MAdd cupcake) (mkCarrito []) = true /\
  write_fails disabled_world cart_cupcake = true /\
  write_fails full_world cart_cupcake = true /\
  (exists w',
     run_mutation (MAdd cupcake) (mkCarrito [], disabled_world)
     = (Ok tt, (cart_cupcake, w')) /\
     w' = log_error (str "guardar carrito") SecurityError disabled_world /\
     console w' = [Log (str "guardar carrito") SecurityError] /\
     ls_items w' = []) /\
  (exists w',
     run_mutation (MAdd cupcake) (mkCarrito [], full_world)
     = (Ok tt, (cart_cupcake, w')) /\
     w' = log_error (str "guardar carrito") QuotaExceededError full_world /\
     console w' = [Log (str "guardar carrito") QuotaExceededError] /\
     ls_items w' = []).
Proof.
  assert (H0 : run_mutation (MAdd cupcake) (mkCarrito [], empty_world)
    = (Ok tt, (cart_cupcake,
               store storage_key (cart_text cart_cupcake) empty_world)))
    by (vm_compute; reflexivity).
  assert (H1 : write_fails disabled_world cart_cupcake = true)
    by reflexivity.
  assert (H2 : write_fails full_world cart_cupcake = true)
    by (vm_compute; reflexivity).
  split; [exact H0|]. split; [reflexivity|].
  split; [exact H1|]. split; [exact H2|]. split.
  - exact (C8_write_failure_is_caught (MAdd cupcake) (mkCarrito [])
             cart_cupcake disabled_world empty_world _ H0 eq_refl H1).
  - exact (C8_write_failure_is_caught (MAdd cupcake) (mkCarrito [])
             cart_cupcake full_world empty_world _ H0 eq_refl H2).
Defined.

(** ** C6 *)

Lemma iterate_alloc_throws (v : value) (n : ref) :
  match v with VArr _ _ | VStr _ => False | _ => True end ->
  iterate (fst (alloc v n)) = Throw TypeError.
Proof.
  destruct v; cbn [alloc fst iterate]; try reflexivity; try contradiction.
  intros _.
  match goal with
  | |- context [let '(a, b) := ?t in _] => destruct t
  end. reflexivity.
Qed.

(** C6, as the code has it: [new Carrito()] never throws, whatever
    [localStorage] holds.  What fails is caught and logged: one call of
    [console.error] under the label of the load, with the SecurityError of a
    page that may not use [localStorage], the SyntaxError of a payload that
    is not JSON text, the TypeError of a payload that cannot be iterated, or
    what the first record that cannot be read throws; nothing is logged and
    nothing changes where the key is absent or holds the empty string; and
    [localStorage] is never written.  The cart is empty when the page may
    not use [localStorage], when the key is absent, and when the payload is
    the empty string, is not JSON text, or is the JSON text of a value the
    loop cannot iterate.  In every case the cart holds the records the loop
    stored before the first one that throws. *)
Theorem C6_hydration_never_throws (w : World) :
  (exists st', Carrito_new w = (Ok tt, st')) /\
  (ls_enabled w = false \/
   props_get storage_key (ls_items w) = None \/
   (exists raw,
      props_get storage_key (ls_items w) = Some raw /\ unreadable raw = true) ->
   items (fst (hydrate w)) = []) /\
  items (fst (hydrate w)) = snd (load_items (hydration_records w) []) /\
  console (snd (hydrate w))
  = match hydration_failure w with
    | Some e => Log load_label e :: console w
    | None => console w
    end /\
  (ls_enabled w = false ->
   console (snd (hydrate w)) = Log load_label SecurityError :: console w) /\
  (ls_enabled w = true ->
   forall (x : char) (raw : jsstring),
     props_get storage_key (ls_items w) = Some (x :: raw) ->
     unreadable (x :: raw) = true ->
     console (snd (hydrate w))
     = Log load_label
           (match JSON_parse (x :: raw) with
            | None => SyntaxError
            | Some _ => TypeError
            end) :: console w) /\
  (ls_enabled w = true ->
   props_get storage_key (ls_items w) = None \/
   props_get storage_key (ls_items w) = Some [] ->
   snd (hydrate w) = w) /\
  ls_items (snd (hydrate w)) = ls_items w.
Proof.
  split; [apply loadFromStorage_safe|].
  split; [|split; [apply (loadFromStorage_items (mkCarrito []) w)|]].
  { unfold hydrate, Carrito_new. rewrite loadFromStorage_unfold.
    intros [Hoff|[Hnone|[raw [Hraw Hbad]]]].
    - now rewrite Hoff.
    - rewrite Hnone. now destruct (ls_enabled w).
    - rewrite Hraw. destruct (ls_enabled w); [|reflexivity].
      destruct raw as [|x raw]; [reflexivity|].
      unfold unreadable in Hbad.
      destruct (JSON_parse (x :: raw)) as [v|]; [|reflexivity].
      cbv zeta. rewrite iterate_alloc_throws; [reflexivity|].
      destruct v; try exact I; discriminate. }
  unfold hydrate, Carrito_new, hydration_failure, load_label.
  rewrite loadFromStorage_unfold.
  split; [|split; [|split; [|split]]].
  - destruct (ls_enabled w); [|reflexivity].
    destruct (props_get storage_key (ls_items w)) as [[|x raw]|];
      try reflexivity.
    destruct (JSON_parse (x :: raw)) as [v|]; [|reflexivity].
    cbv zeta. destruct (iterate _) as [os|e]; [|reflexivity].
    destruct (load_items os _) as [[e|] m]; reflexivity.
  - intros Hoff. now rewrite Hoff.
  - intros Hon x raw Hraw Hbad. rewrite Hon, Hraw.
    unfold unreadable in Hbad.
    destruct (JSON_parse (x :: raw)) as [v|]; [|reflexivity].
    cbv zeta. rewrite iterate_alloc_throws; [reflexivity|].
    destruct v; try exact I; discriminate.
  - intros Hon [Hnone|Hempty]; rewrite Hon;
      [rewrite Hnone|rewrite Hempty]; reflexivity.
  - destruct (ls_enabled w); [|reflexivity].
    destruct (props_get storage_key (ls_items w)) as [[|x raw]|];
      try reflexivity.
    destruct (JSON_parse (x :: raw)) as [v|]; [|reflexivity].
    cbv zeta. destruct (iterate _) as [os|e]; [|reflexivity].
    destruct (load_items os _) as [[e|] m]; reflexivity.
Qed.

(** A payload that is JSON text but no array of cart-entry records: the
    record before the null is stored, the TypeError at the null is caught,
    and the cart is not empty. *)
Lemma C6_truncated_array_is_loaded :
  persisted (world_with blob_truncated) blob_truncated /\
  (exists v, JSON_parse blob_truncated = Some v) /\
  items (fst (hydrate (world_with blob_truncated)))
  = [(VStr (str "p1"), cupcake)] /\
  console (snd (hydrate (world_with blob_truncated)))
  = [Log (str "cargar carrito") TypeError] /\
  items (fst (hydrate (world_with blob_truncated))) <> [].
Proof.
  split; [split; reflexivity|].
  split; [eexists; vm_compute; reflexivity|].
  assert (H : hydrate (world_with blob_truncated)
    = (cart_cupcake,
       log_error (str "cargar carrito") TypeError
         (with_next_ref 3%N (world_with blob_truncated))))
    by (vm_compute; reflexivity).
  rewrite H. cbn [fst snd items cart_cupcake].
  split; [reflexivity|]. split; [reflexivity|discriminate].
Qed.

(** ** Scanning *)

Section Scanning.

Variable f : char -> bool.

Lemma take_drop_while (s : jsstring) :
  take_while f s ++ drop_while f s = s.
Proof.
  induction s as [|c s IH]; simpl; [reflexivity|].
  destruct (f c); simpl; [now rewrite IH|reflexivity].
Qed.

Lemma take_while_app (u w : jsstring) :
  stops f w -> take_while f (u ++ w) = take_while f u.
Proof.
  intros Hw. induction u as [|c u IH]; simpl.
  - destruct w as [|x w]; simpl in *; [reflexivity|now rewrite Hw].
  - destruct (f c); [now rewrite IH|reflexivity].
Qed.

Lemma drop_while_app (u w : jsstring) :
  stops f w -> drop_while f (u ++ w) = drop_while f u ++ w.
Proof.
  intros Hw. induction u as [|c u IH]; simpl.
  - destruct w as [|x w]; simpl in *; [reflexivity|now rewrite Hw].
  - destruct (f c); [now rewrite IH|reflexivity].
Qed.

Lemma take_while_all (u : jsstring) :
  forallb f u = true -> take_while f u = u.
Proof.
  induction u as [|c u IH]; simpl; [reflexivity|].
  destruct (f c); simpl; [intros H; now rewrite IH|discriminate].
Qed.

Lemma drop_while_all (u : jsstring) :
  forallb f u = true -> drop_while f u = [].
Proof.
  induction u as [|c u IH]; simpl; [reflexivity|].
  destruct (f c); simpl; [exact IH|discriminate].
Qed.


Lemma forallb_drop_while (g : char -> bool) (u : jsstring) :
  forallb g u = true -> forallb g (drop_while f u) = true.
Proof.
  induction u as [|c u IH]; simpl; [reflexivity|].
  intros H. apply andb_true_iff in H as [Hc Hu].
  destruct (f c); [auto|]. simpl. now rewrite Hc, Hu.
Qed.

Lemma drop_while_head (u : jsstring) : stops f (drop_while f u).
Proof.
  induction u as [|c u IH]; simpl; [exact I|].
  destruct (f c) eqn:E; [exact IH|exact E].
Qed.

End Scanning.

Lemma forallb_filter (g : char -> bool) (s : jsstring) :
  forallb g (filter g s) = true.
Proof.
  induction s as [|c s IH]; simpl; [reflexivity|].
  destruct (g c) eqn:E; simpl; [now rewrite E|exact IH].
Qed.

Lemma filter_all (g : char -> bool) (s : jsstring) :
  forallb g s = true -> filter g s = s.
Proof.
  induction s as [|c s IH]; simpl; [reflexivity|].
  destruct (g c); simpl; [intros H; now rewrite IH|discriminate].
Qed.

Lemma is_space_not_price (c : char) :
  is_space c = true -> price_char c = false.
Proof.
  unfold is_space. rewrite existsb_exists. intros [x [Hin Hx]].
  apply N.eqb_eq in Hx. subst x.
  repeat (destruct Hin as [<-|Hin]; [reflexivity|]). destruct Hin.
Qed.

Lemma price_char_cases (c : char) :
  price_char c = true -> plain_char c = true \/ c = 44%N.
Proof.
  unfold price_char, plain_char. intros H.
  apply orb_true_iff in H as [H|H]; [now left|].
  apply N.eqb_eq in H. now right.
Qed.

Lemma plain_is_price (c : char) : plain_char c = true -> price_char c = true.
Proof. unfold plain_char, price_char. now intros ->. Qed.

(** What a price character is not. *)
Lemma price_char_facts (c : char) :
  price_char c = true ->
  is_space c = false /\ N.eqb c 43 = false /\ N.eqb c 45 = false /\
  N.eqb c 73 = false /\ N.eqb c 101 = false /\ N.eqb c 69 = false.
Proof.
  intros H. split.
  - destruct (is_space c) eqn:E; [|reflexivity].
    apply is_space_not_price in E. congruence.
  - unfold price_char, is_digit in H.
    repeat split; apply N.eqb_neq; intros ->; discriminate.
Qed.

Lemma plain_not_digit_is_point (c : char) :
  plain_char c = true -> is_digit c = false -> N.eqb c 46 = true.
Proof. unfold plain_char. intros H E. now rewrite E in H. Qed.

(** The scanner on a text that starts with a price character. *)
Lemma parseFloat_price (c : char) (s : jsstring) :
  price_char c = true ->
  parseFloat (c :: s)
  = match scan_unsigned (c :: s) with Some (n, _) => n | None => NaN end.
Proof.
  intros H. destruct (price_char_facts c H) as [Hsp [Hplus [Hminus _]]].
  unfold parseFloat. cbn [drop_while]. rewrite Hsp.
  unfold scan_decimal, scan_sign. rewrite Hplus, Hminus.
  destruct (scan_unsigned (c :: s)) as [[n r]|]; reflexivity.
Qed.

Lemma scan_exponent_stop (s : jsstring) :
  match s with
  | [] => True
  | c :: _ => N.eqb c 101 = false /\ N.eqb c 69 = false
  end ->
  scan_exponent s = (0, s).
Proof.
  destruct s as [|c s]; [reflexivity|]. intros [H1 H2].
  unfold scan_exponent. now rewrite H1, H2.
Qed.

(** Where the number ends in a text of digits and points: at its second
    point, or at its end. *)
Lemma scan_unsigned_plain (u w : jsstring) :
  forallb plain_char u = true ->
  match w with [] => True | c :: _ => c = 44%N end ->
  match u ++ w with [] => True | c :: _ => price_char c = true end ->
  scan_unsigned (u ++ w)
  = match scan_unsigned u with
    | Some (n, r) => Some (n, r ++ w)
    | None => None
    end.
Proof.
  intros Hu Hw Hhead.
  assert (Hstop : stops is_digit w)
    by (destruct w as [|x w]; [exact I|subst x; reflexivity]).
  assert (Hinf : forall x, match x with [] => True | c :: _ => price_char c = true end ->
                           starts_with (str "Infinity") x = false).
  { intros [|c x] Hc; [reflexivity|].
    destruct (price_char_facts c Hc) as [_ [_ [_ [HI _]]]].
    cbn. rewrite N.eqb_sym in HI. cbn in HI. now rewrite HI. }
  unfold scan_unsigned.
  rewrite (Hinf (u ++ w) Hhead).
  rewrite (Hinf u)
    by (destruct u as [|c u]; [exact I|];
        cbn in Hu; apply andb_true_iff in Hu as [Hc _];
        now apply plain_is_price).
  rewrite (take_while_app is_digit u w Hstop).
  rewrite (drop_while_app is_digit u w Hstop).
  pose proof (forallb_drop_while is_digit plain_char u Hu) as Hr.
  pose proof (drop_while_head is_digit u) as Hrh.
  destruct (drop_while is_digit u) as [|c r] eqn:Er; cbn [app].
  - (* only digits: the text ends the number *)
    assert (after_point w = None) as ->
      by (destruct w as [|x w]; [reflexivity|subst x; reflexivity]).
    cbn [after_point].
    destruct (take_while is_digit u); [reflexivity|].
    rewrite (scan_exponent_stop w)
      by (destruct w as [|x w]; [exact I|subst x; split; reflexivity]).
    reflexivity.
  - cbn in Hr. apply andb_true_iff in Hr as [Hc Hr].
    cbn in Hrh. pose proof (plain_not_digit_is_point c Hc Hrh) as Hpt.
    unfold after_point. rewrite Hpt.
    rewrite (take_while_app is_digit r w Hstop).
    rewrite (drop_while_app is_digit r w Hstop).
    pose proof (forallb_drop_while is_digit plain_char r Hr) as Hr2.
    pose proof (drop_while_head is_digit r) as Hrh2.
    assert (Hw' : scan_exponent w = (0, w))
      by (apply scan_exponent_stop; destruct w as [|x w];
          [exact I|subst x; split; reflexivity]).
    assert (Hexp : forall x, scan_exponent x = (0, x) ->
                             scan_exponent (drop_while is_digit r ++ x)
                             = (0, drop_while is_digit r ++ x)).
    { intros x Hx. destruct (drop_while is_digit r) as [|c2 r2]; [exact Hx|].
      cbn in Hr2. apply andb_true_iff in Hr2 as [Hc2 _].
      cbn in Hrh2. pose proof (plain_not_digit_is_point c2 Hc2 Hrh2) as Hpt2.
      apply N.eqb_eq in Hpt2. subst c2. reflexivity. }
    rewrite (Hexp w Hw').
    pose proof (Hexp [] eq_refl) as Hnil. rewrite app_nil_r in Hnil.
    rewrite Hnil.
    destruct (take_while is_digit u) as [|i ip];
      destruct (take_while is_digit r) as [|g fp]; reflexivity.
Qed.

(** [parseFloat] reads nothing from a comma on. *)
Lemma parseFloat_stops_at_comma (u v : jsstring) :
  forallb plain_char u = true ->
  parseFloat (u ++ 44%N :: v) = parseFloat u.
Proof.
  intros Hu. destruct u as [|c u].
  - reflexivity.
  - assert (Hc : price_char c = true).
    { cbn in Hu. apply andb_true_iff in Hu as [Hc _].
      now apply plain_is_price. }
    cbn [app]. rewrite !parseFloat_price by exact Hc.
    change (c :: u ++ 44%N :: v) with ((c :: u) ++ 44%N :: v).
    rewrite scan_unsigned_plain; [|exact Hu|reflexivity|exact Hc].
    destruct (scan_unsigned (c :: u)) as [[n r]|]; reflexivity.
Qed.

(** ** parsePrice *)


Lemma number_or_zero_NaN : number_or_zero NaN = num 0.
Proof. reflexivity. Qed.

Lemma parsePrice_string (s : jsstring) :
  parsePrice (VStr s) = Ok (number_or_zero (parseFloat (cleaned s))).
Proof. destruct s; reflexivity. Qed.

Lemma replace_first_comma_none (s : jsstring) :
  forallb (fun c => negb (is_comma c)) s = true -> replace_first_comma s = s.
Proof.
  induction s as [|c s IH]; cbn; [reflexivity|].
  unfold is_comma at 1. destruct (N.eqb c 44); cbn; [discriminate|].
  intros H. now rewrite IH.
Qed.

Lemma replace_first_comma_app (a b : jsstring) :
  forallb (fun c => negb (is_comma c)) a = true ->
  replace_first_comma (a ++ 44%N :: b) = a ++ 46%N :: b.
Proof.
  induction a as [|c a IH]; cbn; [reflexivity|].
  unfold is_comma at 1. destruct (N.eqb c 44); cbn; [discriminate|].
  intros H. now rewrite IH.
Qed.


Lemma plain_of_price (a : jsstring) :
  forallb price_char a = true ->
  forallb (fun c => negb (is_comma c)) a = true ->
  forallb plain_char a = true.
Proof.
  induction a as [|c a IH]; cbn; [reflexivity|].
  intros H1 H2. apply andb_true_iff in H1 as [Hc H1].
  apply andb_true_iff in H2 as [Hn H2]. rewrite (IH H1 H2), andb_true_r.
  unfold price_char in Hc. unfold is_comma in Hn. unfold plain_char.
  destruct (N.eqb c 44); [discriminate|]. now rewrite orb_false_r in Hc.
Qed.


(** A run of digits, a point, a run of digits: the number they write. *)
Lemma parseFloat_literal (ip fp : jsstring) :
  ip <> [] ->
  forallb is_digit ip = true ->
  forallb is_digit fp = true ->
  parseFloat (ip ++ 46%N :: fp) = Fin (make_decimal false ip fp 0).
Proof.
  intros Hne Hip Hfp.
  destruct ip as [|i ip]; [contradiction|].
  assert (Hi : price_char i = true).
  { cbn in Hip. apply andb_true_iff in Hip as [Hi _].
    unfold price_char. now rewrite Hi. }
  cbn [app]. rewrite parseFloat_price by exact Hi.
  change (i :: ip ++ 46%N :: fp) with ((i :: ip) ++ 46%N :: fp).
  unfold scan_unsigned.
  assert (starts_with (str "Infinity") ((i :: ip) ++ 46%N :: fp) = false)
    as ->.
  { destruct (price_char_facts i Hi) as [_ [_ [_ [HI _]]]].
    cbn. rewrite N.eqb_sym in HI. cbn in HI. now rewrite HI. }
  rewrite (take_while_app is_digit (i :: ip) (46%N :: fp)) by reflexivity.
  rewrite (drop_while_app is_digit (i :: ip) (46%N :: fp)) by reflexivity.
  rewrite (take_while_all is_digit _ Hip), (drop_while_all is_digit _ Hip).
  cbn [app after_point N.eqb Pos.eqb].
  rewrite (take_while_all is_digit _ Hfp), (drop_while_all is_digit _ Hfp).
  reflexivity.
Qed.

(** ** C7 *)




(** ** C9 *)

(** C9: [parsePrice] turns only the first comma of the cleaned text into a
    point.  When the cleaned text has a second comma, that comma stays where
    it is and [parseFloat] stops there at the latest: the price is read from
    what stands before it. *)
Theorem C9_later_commas_end_the_number (s a b c : jsstring) :
  filter price_char s = a ++ 44%N :: b ++ 44%N :: c ->
  forallb (fun x => negb (is_comma x)) a = true ->
  forallb (fun x => negb (is_comma x)) b = true ->
  cleaned s = a ++ 46%N :: b ++ 44%N :: c /\
  parsePrice (VStr s) = Ok (number_or_zero (parseFloat (a ++ 46%N :: b))) /\
  parsePrice (VStr s) = parsePrice (VStr (a ++ 44%N :: b)).
Proof.
  intros Hs Ha Hb.
  assert (Hclean : cleaned s = a ++ 46%N :: b ++ 44%N :: c)
    by (unfold cleaned; rewrite Hs; now apply replace_first_comma_app).
  pose proof (forallb_filter price_char s) as Hp. rewrite Hs in Hp.
  rewrite forallb_app in Hp. apply andb_true_iff in Hp as [Hpa Hp].
  cbn [forallb] in Hp. apply andb_true_iff in Hp as [_ Hp].
  rewrite forallb_app in Hp. apply andb_true_iff in Hp as [Hpb _].
  assert (Hplain : forallb plain_char (a ++ 46%N :: b) = true).
  { rewrite forallb_app. cbn [forallb].
    rewrite (plain_of_price a Hpa Ha), (plain_of_price b Hpb Hb). reflexivity. }
  assert (Hval : parsePrice (VStr s)
                 = Ok (number_or_zero (parseFloat (a ++ 46%N :: b)))).
  { rewrite parsePrice_string, Hclean.
    replace (a ++ 46%N :: b ++ 44%N :: c)
      with ((a ++ 46%N :: b) ++ 44%N :: c) by (now rewrite <- app_assoc).
    now rewrite (parseFloat_stops_at_comma (a ++ 46%N :: b) c Hplain). }
  split; [exact Hclean|]. split; [exact Hval|].
  rewrite Hval, parsePrice_string. unfold cleaned.
  rewrite filter_all.
  - now rewrite replace_first_comma_app.
  - rewrite forallb_app. cbn [forallb]. now rewrite Hpa, Hpb.
Qed.

Lemma C9_later_commas_end_the_number_witness :
  filter price_char (str "S/ 1,2,3") = str "1" ++ 44%N :: str "2" ++ 44%N :: str "3" /\
  forallb (fun x => negb (is_comma x)) (str "1") = true /\
  forallb (fun x => negb (is_comma x)) (str "2") = true /\
  cleaned (str "S/ 1,2,3") = str "1.2,3" /\
  parsePrice (VStr (str "S/ 1,2,3")) = Ok (Fin (Dec 12 1)) /\
  parsePrice (VStr (str "1,2,3")) = Ok (Fin (Dec 12 1)).
Proof.
  pose proof (C9_later_commas_end_the_number (str "S/ 1,2,3") (str "1")
                (str "2") (str "3") eq_refl eq_refl eq_refl)
    as [Hclean [Hval _]].
  pose proof (C9_later_commas_end_the_number (str "1,2,3") (str "1")
                (str "2") (str "3") eq_refl eq_refl eq_refl)
    as [_ [Hval' _]].
  repeat split; try reflexivity; assumption.
Defined.

(** ** The invariants of the store *)

Lemma map_has_set_other {V} (k x : value) (v : V) (m : jsmap V) :
  SameValueZero k x = false -> map_has x (map_set k v m) = map_has x m.
Proof.
  intros H. induction m as [|[k' v'] m IH]; cbn.
  - now rewrite H.
  - destruct (SameValueZero k' k); cbn; [reflexivity|now rewrite IH].
Qed.

Lemma map_set_wf {V} (k : value) (v : V) (m : jsmap V) :
  map_wf m -> map_wf (map_set k v m).
Proof.
  induction m as [|[k' v'] m IH]; cbn; [auto|].
  intros [Hk Hwf]. destruct (SameValueZero k' k) eqn:E; cbn; [auto|].
  split; [|auto]. rewrite map_has_set_other; [exact Hk|].
  now rewrite SameValueZero_sym.
Qed.

Lemma map_delete_wf {V} (k : value) (m : jsmap V) :
  map_wf m -> map_wf (map_delete k m).
Proof.
  induction m as [|[k' v'] m IH]; cbn; [auto|].
  intros [Hk Hwf]. destruct (SameValueZero k' k); cbn; [exact Hwf|].
  split; [now apply map_has_delete_other|auto].
Qed.

Section Entries.

Variable P : Producto -> Prop.

Lemma map_set_values (k : value) (p : Producto) (m : jsmap Producto) :
  P p -> Forall P (map_values m) -> Forall P (map_values (map_set k p m)).
Proof.
  intros Hp. unfold map_values.
  induction m as [|[k' v'] m IH]; cbn; intros H.
  - now constructor.
  - inversion H; subst.
    destruct (SameValueZero k' k); cbn; constructor; auto.
Qed.

Lemma map_delete_values (k : value) (m : jsmap Producto) :
  Forall P (map_values m) -> Forall P (map_values (map_delete k m)).
Proof.
  unfold map_values. induction m as [|[k' v'] m IH]; cbn; intros H.
  - constructor.
  - inversion H; subst.
    destruct (SameValueZero k' k); cbn; [assumption|constructor; auto].
Qed.

Lemma map_get_values (k : value) (p : Producto) (m : jsmap Producto) :
  map_get k m = Some p -> Forall P (map_values m) -> P p.
Proof.
  unfold map_values. induction m as [|[k' v'] m IH]; cbn; [discriminate|].
  intros Hg H. inversion H; subst.
  destruct (SameValueZero k' k); [now injection Hg as <-|auto].
Qed.

End Entries.

Lemma pow10_pos (k : nat) : 0 < pow10 k.
Proof. unfold pow10. apply Z.pow_pos_nonneg; lia. Qed.

(** The value of a decimal is that of its canonical form. *)
Lemma dnorm_aux_value (m : Z) (k : nat) :
  dmant (dnorm_aux m k) * pow10 k = m * pow10 (dscale (dnorm_aux m k)).
Proof.
  revert m; induction k as [|k IH]; intros m; cbn [dnorm_aux].
  - reflexivity.
  - destruct (m mod 10 =? 0) eqn:E; [|reflexivity].
    apply Z.eqb_eq in E. specialize (IH (m / 10)).
    assert (Hm : m = 10 * (m / 10))
      by (rewrite (Z.div_mod m 10) at 1 by lia; lia).
    assert (Hp : pow10 (S k) = 10 * pow10 k).
    { unfold pow10. rewrite Nat2Z.inj_succ, Z.pow_succ_r by lia. reflexivity. }
    rewrite Hp. set (D := dnorm_aux (m / 10) k) in *.
    replace (dmant D * (10 * pow10 k)) with (10 * (dmant D * pow10 k)) by ring.
    rewrite IH.
    replace (10 * (m / 10 * pow10 (dscale D)))
      with (10 * (m / 10) * pow10 (dscale D)) by ring.
    now rewrite <- Hm.
Qed.

Lemma dltb_dnorm_r (a d : decimal) : dltb (dnorm d) a = dltb d a.
Proof.
  destruct d as [m k]. unfold dnorm, dltb. cbn [dmant dscale].
  pose proof (dnorm_aux_value m k) as H.
  set (c := dnorm_aux m k) in *.
  pose proof (pow10_pos k). pose proof (pow10_pos (dscale c)).
  pose proof (pow10_pos (dscale a)).
  apply eq_true_iff_eq. rewrite !Z.ltb_lt. split; intros Hlt; nia.
Qed.

(** A quantity of at least 1 is still one after [+= 1]. *)
Lemma increment_keeps (q : value) :
  qty_ge1 q = true ->
  exists q', js_add q (VNum (num 1)) = Ok q' /\ qty_ge1 q' = true.
Proof.
  destruct q as [| | |n| | |]; try discriminate. intros H.
  exists (VNum (num_add n (num 1))). split; [reflexivity|].
  cbn [qty_ge1] in *. destruct n as [|s|d]; try discriminate.
  - destruct s; [discriminate|reflexivity].
  - unfold num in *. cbn [num_add num_lt] in *.
    destruct (dltb d (dint 1)) eqn:E; [discriminate|].
    unfold dadd. rewrite dltb_dnorm_r.
    destruct d as [m k]. unfold dltb, dint in *. cbn [dmant dscale] in *.
    rewrite Nat.max_0_r, Nat.sub_diag, Nat.sub_0_r.
    apply Z.ltb_ge in E. unfold pow10 in *. cbn [Z.of_nat Z.pow] in *.
    rewrite !Z.mul_1_r in *.
    assert (H0 : 0 < 10 ^ Z.of_nat k) by (apply Z.pow_pos_nonneg; lia).
    assert (Hge : ~ (m * 1 + 1 * 10 ^ Z.of_nat k < 1 * 10 ^ Z.of_nat k)) by lia.
    apply Z.ltb_nlt in Hge. rewrite Z.mul_1_r in Hge. now rewrite Hge.
Qed.

Lemma add_keeps (p : Producto) (m : jsmap Producto) :
  store_ok m -> qty_ge1 (cantidad p) = true ->
  exists m', add_items p m = Ok m' /\ store_ok m'.
Proof.
  intros [Hwf Hq] Hp. unfold add_items.
  destruct (map_has (getId p) m) eqn:Hhas.
  - apply map_has_get in Hhas as [e He]. rewrite He.
    pose proof (map_get_values _ _ e m He Hq) as Hqe. cbn beta in Hqe.
    destruct (increment_keeps _ Hqe) as [q' [Hadd Hq']].
    rewrite Hadd. cbn [rbind]. eexists. split; [reflexivity|].
    split; [now apply map_set_wf|now apply map_set_values].
  - eexists. split; [reflexivity|].
    split; [now apply map_set_wf|now apply map_set_values].
Qed.

Lemma load_items_keeps (os : list value) (m : jsmap Producto) :
  forallb record_qty_ok os = true -> store_ok m ->
  store_ok (snd (load_items os m)).
Proof.
  revert m; induction os as [|o os IH]; intros m Hos Hm; cbn [load_items].
  - exact Hm.
  - cbn in Hos. apply andb_true_iff in Hos as [Ho Hos].
    destruct (record_product o) as [p|e] eqn:Hrec; [|exact Hm].
    apply IH; [exact Hos|]. destruct Hm as [Hwf Hq].
    split; [now apply map_set_wf|]. apply map_set_values; [|exact Hq].
    unfold record_product, record_qty_ok in *.
    destruct (get_field o (str "id")); [|discriminate].
    destruct (get_field o (str "nombre")); [|discriminate].
    destruct (get_field o (str "precio")); [|discriminate].
    destruct (get_field o (str "categoria")); [|discriminate].
    destruct (get_field o (str "cantidad")); [|discriminate].
    cbn [rbind] in Hrec. injection Hrec as <-. exact Ho.
Qed.

Lemma step_keeps (c c' : Carrito) :
  step c c' -> store_ok (items c) -> store_ok (items c').
Proof.
  intros Hstep Hok. destruct Hstep as [id nom pre cat w|id w|id qty w Hqty|w|w Hw].
  - rewrite add_unfold.
    destruct (add_keeps (Producto_new id nom pre cat) (items c) Hok eq_refl)
      as [m' [Hadd Hm']].
    rewrite Hadd. destruct (saveToStorage_safe (mkCarrito m') w) as [w' ->].
    exact Hm'.
  - rewrite remove_unfold.
    destruct (saveToStorage_safe (mkCarrito (map_delete id (items c))) w)
      as [w' ->].
    destruct Hok as [Hwf Hq].
    split; [now apply map_delete_wf|now apply map_delete_values].
  - rewrite updateQty_unfold.
    destruct (map_get id (items c)) as [p|] eqn:Hp; [|exact Hok].
    cbv zeta. destruct Hok as [Hwf Hq].
    assert (Hdel : store_ok (map_delete id (items c)))
      by (split; [now apply map_delete_wf|now apply map_delete_values]).
    destruct Hqty as [Hle|Hge].
    + rewrite Hle.
      destruct (saveToStorage_safe (mkCarrito (map_delete id (items c))) w)
        as [w' ->].
      exact Hdel.
    + destruct qty as [| | |n| | |]; try discriminate.
      rewrite js_le_number.
      destruct (match num_lt (num 0) n with Some false => true | _ => false end).
      * destruct (saveToStorage_safe (mkCarrito (map_delete id (items c))) w)
          as [w' ->].
        exact Hdel.
      * destruct (saveToStorage_safe
                    (mkCarrito (map_set id (set_cantidad (VNum n) p) (items c))) w)
          as [w' ->].
        split; [now apply map_set_wf|now apply map_set_values].
  - rewrite clear_unfold.
    destruct (saveToStorage_safe (mkCarrito []) w) as [w' ->].
    split; [exact I|constructor].
  - rewrite loadFromStorage_items. now apply load_items_keeps.
Qed.

Lemma reachable_ok (c : Carrito) : reachable c -> store_ok (items c).
Proof.
  induction 1 as [|c c' _ IH Hstep].
  - split; [exact I|constructor].
  - exact (step_keeps c c' Hstep IH).
Qed.

(** ** C2 *)

(** C2, as the code has it: in every cart reached from the empty one by
    [add] of freshly constructed products, [remove], [clear], [updateQty]
    with a quantity that is [<= 0] or a number of at least 1 (every integer
    is one or the other), and hydration from a payload whose records carry
    quantities of at least 1, every entry has a quantity of at least 1; and
    [updateQty] with a quantity [<= 0] removes the entry instead of storing
    the quantity. *)
Theorem C2_quantities_stay_positive (c : Carrito) :
  reachable c ->
  quantities_ok c /\
  (forall (id qty : value) (w : World),
     js_le qty (VNum (num 0)) = Ok true ->
     map_has id (items (fst (snd (updateQty id qty (c, w))))) = false).
Proof.
  intros Hreach. destruct (reachable_ok c Hreach) as [Hwf Hq].
  split; [exact Hq|]. intros id qty w Hle.
  rewrite updateQty_unfold.
  destruct (map_get id (items c)) as [p|] eqn:Hp.
  - cbv zeta. rewrite Hle.
    destruct (saveToStorage_safe (mkCarrito (map_delete id (items c))) w)
      as [w' ->].
    now apply map_has_delete.
  - now apply map_get_none.
Qed.

Lemma reachable_cupcake : reachable cart_cupcake.
Proof.
  apply (reach_step (mkCarrito [])); [exact reach_new|].
  exact (step_add (mkCarrito []) (VStr (str "p1")) (VStr (str "Cupcake"))
           (VNum (num 5)) VUndefined empty_world).
Defined.

Lemma C2_quantities_stay_positive_witness :
  reachable cart_cupcake /\
  quantities_ok cart_cupcake /\
  map_has (VStr (str "p1"))
    (items (fst (snd (updateQty (VStr (str "p1")) (VNum (num 0))
                        (cart_cupcake, empty_world))))) = false.
Proof.
  split; [exact reachable_cupcake|].
  destruct (C2_quantities_stay_positive cart_cupcake reachable_cupcake)
    as [Hq Hdel].
  split; [exact Hq|].
  exact (Hdel (VStr (str "p1")) (VNum (num 0)) empty_world eq_refl).
Defined.

(** Two carts with a quantity below 1, reached by [add] and [updateQty] and
    by hydration: [updateQty] stores one half as it is, and hydration stores
    the 0 of a persisted record. *)
Lemma C2_quantity_below_one :
  fst (snd (add cupcake (mkCarrito [], empty_world))) = cart_cupcake /\
  fst (snd (updateQty (VStr (str "p1")) (VNum half) (cart_cupcake, empty_world)))
  = mkCarrito [(VStr (str "p1"), set_cantidad (VNum half) cupcake)] /\
  qty_ge1 (VNum half) = false /\
  num_lt half (num 1) = Some true /\
  fst (hydrate (world_with blob_zero))
  = mkCarrito [(VStr (str "p1"), set_cantidad (VNum (num 0)) cupcake)] /\
  qty_ge1 (VNum (num 0)) = false.
Proof.
  repeat split; vm_compute; reflexivity.
Qed.

(** ** Decimal digits *)

Section Digits.

Local Open Scope N_scope.

Lemma digits_value_dv (ds : jsstring) : digits_value ds = dv 0 ds.
Proof. reflexivity. Qed.

Lemma dv_acc (ds : jsstring) (acc : N) :
  dv acc ds = acc * 10 ^ N.of_nat (length ds) + dv 0 ds.
Proof.
  revert acc; induction ds as [|c ds IH]; intros acc; cbn [dv fold_left length].
  - cbn. lia.
  - fold (dv (10 * acc + digit_val c) ds). fold (dv (10 * 0 + digit_val c) ds).
    rewrite IH, (IH (10 * 0 + digit_val c)).
    rewrite Nat2N.inj_succ, N.pow_succ_r'. lia.
Qed.

Lemma dv_cons (c : char) (ds : jsstring) :
  dv 0 (c :: ds) = digit_val c * 10 ^ N.of_nat (length ds) + dv 0 ds.
Proof.
  cbn [dv fold_left]. fold (dv (10 * 0 + digit_val c) ds).
  rewrite dv_acc. lia.
Qed.

Lemma dv_app (a b : jsstring) :
  dv 0 (a ++ b) = dv 0 a * 10 ^ N.of_nat (length b) + dv 0 b.
Proof.
  unfold dv at 1. rewrite fold_left_app. fold (dv 0 a).
  fold (dv (dv 0 a) b). apply dv_acc.
Qed.

Lemma dv_single (c : char) : dv 0 [c] = digit_val c.
Proof. unfold dv. cbn [fold_left]. lia. Qed.

Lemma dv_zeros (j : nat) : dv 0 (zeros j) = 0.
Proof.
  induction j as [|j IH]; [reflexivity|].
  cbn [zeros repeat]. fold (zeros j). rewrite dv_cons, IH.
  unfold digit_val. lia.
Qed.

Lemma length_zeros (j : nat) : length (zeros j) = j.
Proof. apply repeat_length. Qed.

Lemma digit_val_char (d : N) : digit_val (digit_char d) = d.
Proof. unfold digit_val, digit_char. lia. Qed.

Lemma is_digit_char (d : N) : d < 10 -> is_digit (digit_char d) = true.
Proof.
  intros H. unfold is_digit, digit_char.
  apply andb_true_iff. split; apply N.leb_le; lia.
Qed.

Lemma size_nat_div10 (n : N) :
  10 <= n -> (N.size_nat (n / 10) < N.size_nat n)%nat.
Proof.
  intros H.
  assert (Hlt : n / 10 < n) by (apply N.div_lt; lia).
  assert (Hlog : N.log2 (n / 10) < N.log2 n).
  { assert (H2 : n / 10 <= n / 2)
      by (apply N.div_le_compat_l; lia).
    assert (Hlog2 : N.log2 (n / 2) < N.log2 n).
    { change 2 with (2 ^ 1). rewrite <- N.shiftr_div_pow2, N.log2_shiftr.
      assert (1 <= N.log2 n).
      { change 1 with (N.log2 2). apply N.log2_le_mono. lia. }
      lia. }
    pose proof (N.log2_le_mono _ _ H2). lia. }
  assert (Hs : forall x, 0 < x -> N.size_nat x = S (N.to_nat (N.log2 x))).
  { intros x Hx. destruct x as [|p]; [lia|].
    cbn [N.size_nat N.log2].
    induction p; cbn; try reflexivity;
      rewrite ?IHp; destruct p; cbn in *; lia. }
  assert (1 <= n / 10) by (apply N.div_le_lower_bound; lia).
  rewrite (Hs n), (Hs (n / 10)) by lia. lia.
Qed.

(** What [digits_fuel] computes, given fuel. *)
Lemma digits_fuel_spec (fuel : nat) (n : N) (acc : jsstring) :
  (N.size_nat n < fuel)%nat ->
  exists ds,
    digits_fuel fuel n acc = ds ++ acc /\
    ds <> [] /\
    forallb is_digit ds = true /\
    dv 0 ds = n /\
    (n <> 0 -> exists c t, ds = c :: t /\ c <> 48) /\
    (exists t, ds = t ++ [digit_char (n mod 10)]).
Proof.
  revert n acc; induction fuel as [|fuel IH]; intros n acc Hf; [lia|].
  cbn [digits_fuel]. destruct (n <? 10) eqn:E.
  - apply N.ltb_lt in E. exists [digit_char n]. repeat split.
    + discriminate.
    + cbn [forallb]. now rewrite is_digit_char.
    + now rewrite dv_single, digit_val_char.
    + intros Hn. exists (digit_char n), []. split; [reflexivity|].
      unfold digit_char. lia.
    + exists []. cbn [app]. now rewrite N.mod_small.
  - apply N.ltb_ge in E.
    destruct (IH (n / 10) (digit_char (n mod 10) :: acc)) as
      [ds [Heq [Hne [Hdig [Hval [Hhd _]]]]]].
    { pose proof (size_nat_div10 n E). lia. }
    exists (ds ++ [digit_char (n mod 10)]). repeat split.
    + rewrite Heq, <- app_assoc. reflexivity.
    + destruct ds; discriminate.
    + rewrite forallb_app, Hdig. cbn [forallb andb].
      rewrite is_digit_char; [reflexivity|]. apply N.mod_lt. lia.
    + rewrite dv_app, Hval, dv_single, digit_val_char. cbn [length].
      change (N.of_nat 1) with 1. rewrite N.pow_1_r.
      rewrite (N.div_mod n 10) at 3 by lia. lia.
    + intros _. destruct Hhd as [c [t [-> Hc]]].
      { assert (1 <= n / 10) by (apply N.div_le_lower_bound; lia). lia. }
      exists c, (t ++ [digit_char (n mod 10)]). split; [reflexivity|exact Hc].
    + now exists ds.
Qed.

Lemma digits_spec (n : N) :
  digits n <> [] /\
  forallb is_digit (digits n) = true /\
  dv 0 (digits n) = n /\
  (n <> 0 -> exists c t, digits n = c :: t /\ c <> 48) /\
  (exists t, digits n = t ++ [digit_char (n mod 10)]).
Proof.
  unfold digits.
  destruct (digits_fuel_spec (S (N.size_nat n)) n []) as [ds [Heq H]];
    [lia|].
  rewrite Heq, app_nil_r. exact H.
Qed.

(** Trailing zeros. *)
Lemma strip_zeros_end_spec (ds : jsstring) :
  exists j, ds = strip_zeros_end ds ++ zeros j.
Proof.
  unfold strip_zeros_end.
  assert (H : forall l, exists j, l = zeros j ++ drop_while is_zero_char l).
  { induction l as [|c l [j IH]]; [exists 0%nat; reflexivity|].
    cbn [drop_while]. destruct (is_zero_char c) eqn:E.
    - exists (S j). unfold is_zero_char in E. apply N.eqb_eq in E. subst c.
      cbn [zeros repeat app]. fold (zeros j). now rewrite <- IH.
    - exists 0%nat. reflexivity. }
  destruct (H (rev ds)) as [j Hj]. exists j.
  rewrite <- (rev_involutive ds) at 1. rewrite Hj at 1.
  rewrite rev_app_distr. f_equal.
  unfold zeros. clear. induction j as [|j IH]; [reflexivity|].
  cbn [repeat rev]. rewrite IH. clear.
  induction j as [|j IH]; [reflexivity|]. cbn. now rewrite <- IH.
Qed.

Lemma strip_zeros_end_nonzero (t : jsstring) (c : char) :
  c <> 48 -> strip_zeros_end (t ++ [c]) = t ++ [c].
Proof.
  intros Hc. unfold strip_zeros_end. rewrite rev_app_distr. cbn [rev app].
  cbn [drop_while]. unfold is_zero_char.
  destruct (N.eqb_spec c 48); [contradiction|].
  cbn [rev]. now rewrite rev_involutive.
Qed.

Lemma strip_zeros_end_digits (ds : jsstring) :
  forallb is_digit ds = true -> forallb is_digit (strip_zeros_end ds) = true.
Proof.
  intros H. destruct (strip_zeros_end_spec ds) as [j Hj].
  rewrite Hj, forallb_app in H. now apply andb_true_iff in H as [H _].
Qed.

Lemma strip_zeros_end_head (c : char) (t : jsstring) :
  c <> 48 -> exists t', strip_zeros_end (c :: t) = c :: t'.
Proof.
  intros Hc. destruct (strip_zeros_end_spec (c :: t)) as [j Hj].
  destruct (strip_zeros_end (c :: t)) as [|x t'] eqn:E.
  - cbn in Hj. destruct j; [discriminate|]. cbn in Hj. congruence.
  - cbn in Hj. injection Hj as -> _. now exists t'.
Qed.

End Digits.

(** ** Numbers: from the text back to the number *)

Lemma digits_value_digits (n : N) : digits_value (digits n) = n.
Proof. rewrite digits_value_dv. apply digits_spec. Qed.

Lemma number_end_stops (rest : jsstring) :
  number_end rest -> stops is_digit rest.
Proof. destruct rest as [|c rest]; [auto|]. now intros [H _]. Qed.

Lemma number_end_no_point (rest : jsstring) :
  number_end rest -> after_point rest = None.
Proof.
  destruct rest as [|c rest]; [reflexivity|]. intros [_ [H _]].
  unfold after_point. now destruct (N.eqb_spec c 46).
Qed.

Lemma parse_number_text (neg : bool) (ip fp : jsstring) (e : option Z)
    (rest : jsstring) :
  int_part ip ->
  forallb is_digit fp = true ->
  number_end rest ->
  parse_json_number (number_text neg ip fp e ++ rest)
  = Some (Fin (make_decimal neg ip fp (match e with Some z => z | None => 0 end)),
          rest).
Proof.
  intros Hip Hfp Hrest.
  set (exps := match e with
               | None => []
               | Some z =>
                   101%N :: (if z <? 0 then 45%N else 43%N) :: digits (Z.abs_N z)
               end).
  set (fracs := match fp with [] => [] | _ => 46%N :: fp end).
  (* what stands after the optional sign *)
  assert (Hsign : parse_json_number (number_text neg ip fp e ++ rest)
    = match ip ++ fracs ++ exps ++ rest with
      | [] => None
      | c :: s1 =>
          if negb (is_digit c) then None else
          let '(ip, s2) :=
            if N.eqb c 48 then ([c], s1)
            else (c :: take_while is_digit s1, drop_while is_digit s1) in
          let frac :=
            match after_point s2 with
            | Some s3 =>
                match take_while is_digit s3 with
                | [] => None
                | fp => Some (fp, drop_while is_digit s3)
                end
            | None => Some ([], s2)
            end in
          match frac with
          | None => None
          | Some (fp, s4) =>
              match s4 with
              | e :: s5 =>
                  if N.eqb e 101 || N.eqb e 69 then
                    let '(eneg, s6) := scan_sign s5 in
                    match take_while is_digit s6 with
                    | [] => None
                    | ds =>
                        let v := Z.of_N (digits_value ds) in
                        Some (Fin (make_decimal neg ip fp (if eneg then - v else v)),
                              drop_while is_digit s6)
                    end
                  else Some (Fin (make_decimal neg ip fp 0), s4)
              | [] => Some (Fin (make_decimal neg ip fp 0), s4)
              end
          end
      end).
  { unfold number_text. fold fracs. fold exps. rewrite <- !app_assoc.
    destruct neg; cbn [app].
    - unfold parse_json_number. cbn [N.eqb Pos.eqb]. reflexivity.
    - unfold parse_json_number.
      destruct Hip as [->|[c [t [-> [Hc Hd]]]]]; cbn [app].
      + reflexivity.
      + cbn [forallb] in Hd. apply andb_true_iff in Hd as [Hcd _].
        assert (Hc45 : N.eqb c 45 = false).
        { apply N.eqb_neq. intros ->. discriminate. }
        rewrite Hc45. reflexivity. }
  rewrite Hsign. clear Hsign.
  (* the exponent and what follows *)
  assert (Hexps : stops is_digit (exps ++ rest) /\
                  after_point (exps ++ rest) = None).
  { destruct e as [z|]; cbn [exps app].
    - split; reflexivity.
    - split; [now apply number_end_stops|now apply number_end_no_point]. }
  destruct Hexps as [Hstop Hnopt].
  assert (Hfracs : stops is_digit (fracs ++ exps ++ rest)).
  { destruct fp as [|x fp']; cbn [fracs app]; [exact Hstop|reflexivity]. }
  (* the integer part *)
  assert (Hint : match ip ++ fracs ++ exps ++ rest with
                 | [] => None
                 | c :: s1 =>
                     if negb (is_digit c) then None else
                     Some (if N.eqb c 48 then ([c], s1)
                           else (c :: take_while is_digit s1,
                                 drop_while is_digit s1))
                 end = Some (ip, fracs ++ exps ++ rest)).
  { destruct Hip as [->|[c [t [-> [Hc Hd]]]]]; cbn [app].
    - reflexivity.
    - cbn [forallb] in Hd. apply andb_true_iff in Hd as [Hcd Htd].
      rewrite Hcd. cbn [negb].
      destruct (N.eqb_spec c 48); [contradiction|].
      rewrite (take_while_app is_digit t _ Hfracs).
      rewrite (drop_while_app is_digit t _ Hfracs).
      now rewrite (take_while_all is_digit t Htd), (drop_while_all is_digit t Htd). }
  destruct (ip ++ fracs ++ exps ++ rest) as [|c s1]; [discriminate|].
  destruct (negb (is_digit c)); [discriminate|].
  injection Hint as Hint. rewrite Hint. clear Hint c s1.
  cbv beta iota zeta.
  (* the fraction *)
  match goal with
  | |- match ?X with _ => _ end = _ =>
      assert (Hfrac : X = Some (fp, exps ++ rest))
  end.
  { destruct fp as [|x fp']; cbn [fracs app].
    - now rewrite Hnopt.
    - cbn [after_point N.eqb Pos.eqb].
      change (x :: fp' ++ exps ++ rest) with ((x :: fp') ++ exps ++ rest).
      rewrite (take_while_app is_digit _ _ Hstop).
      rewrite (drop_while_app is_digit _ _ Hstop).
      rewrite (take_while_all is_digit _ Hfp), (drop_while_all is_digit _ Hfp).
      reflexivity. }
  rewrite Hfrac. clear Hfrac.
  (* the exponent *)
  destruct e as [z|]; subst exps; cbn [app].
  - cbn [N.eqb Pos.eqb orb].
    pose proof (digits_spec (Z.abs_N z)) as [Hne [Hdig _]].
    pose proof (number_end_stops rest Hrest) as Hrs.
    match goal with
    | |- context [scan_sign ?x] =>
        replace (scan_sign x) with (z <? 0, digits (Z.abs_N z) ++ rest)
          by (destruct (z <? 0); reflexivity)
    end.
    rewrite (take_while_app is_digit _ rest Hrs).
    rewrite (drop_while_app is_digit _ rest Hrs).
    rewrite (take_while_all is_digit _ Hdig), (drop_while_all is_digit _ Hdig).
    destruct (digits (Z.abs_N z)) as [|x t] eqn:Ed; [contradiction|].
    rewrite <- Ed, digits_value_digits. cbn [app].
    assert (Hz : (if z <? 0 then - Z.of_N (Z.abs_N z) else Z.of_N (Z.abs_N z))
                 = z)
      by (destruct (Z.ltb_spec z 0); rewrite N2Z.inj_abs_N; lia).
    now rewrite Hz.
  - destruct rest as [|c rest']; [reflexivity|].
    destruct Hrest as [_ [_ [H1 H2]]].
    destruct (N.eqb_spec c 101); [contradiction|].
    destruct (N.eqb_spec c 69); [contradiction|]. reflexivity.
Qed.

(** ** Numbers: the text of a canonical decimal *)

Lemma dnorm_aux_scale (m : Z) (k : nat) : (dscale (dnorm_aux m k) <= k)%nat.
Proof.
  revert m; induction k as [|k IH]; intros m; cbn [dnorm_aux]; [cbn; lia|].
  destruct (m mod 10 =? 0); [specialize (IH (m / 10)); lia|cbn; lia].
Qed.

Lemma canonical_cases (m : Z) (k : nat) :
  dnorm (Dec m k) = Dec m k -> k = 0%nat \/ m mod 10 <> 0.
Proof.
  intros H. destruct k as [|k]; [now left|]. right.
  unfold dnorm in H. cbn [dmant dscale dnorm_aux] in H.
  destruct (m mod 10 =? 0) eqn:E; [|now apply Z.eqb_neq].
  pose proof (dnorm_aux_scale (m / 10) k) as Hs. rewrite H in Hs.
  cbn in Hs. lia.
Qed.

Lemma dnorm_int (m : Z) : dnorm (Dec m 0) = Dec m 0.
Proof. reflexivity. Qed.

Lemma abs_N_mod10 (m : Z) : m mod 10 <> 0 -> (Z.abs_N m mod 10 <> 0)%N.
Proof.
  intros H E. apply H.
  assert (Hz : Z.of_N (Z.abs_N m mod 10) = 0) by (rewrite E; reflexivity).
  rewrite N2Z.inj_mod, N2Z.inj_abs_N in Hz.
  change (Z.of_N 10) with 10 in Hz.
  apply Z.mod_divide in Hz; [|lia].
  apply Z.mod_divide; [lia|]. now apply Z.divide_abs_r.
Qed.

Lemma signed_abs (m : Z) :
  (if m <? 0 then - Z.of_N (Z.abs_N m) else Z.of_N (Z.abs_N m)) = m.
Proof. destruct (Z.ltb_spec m 0); rewrite N2Z.inj_abs_N; lia. Qed.

Lemma fraction_text (fp : jsstring) :
  fp <> [] -> match fp with [] => [] | _ => 46%N :: fp end = 46%N :: fp.
Proof. destruct fp; [contradiction|reflexivity]. Qed.

Lemma forallb_firstn (g : char -> bool) (n : nat) (l : jsstring) :
  forallb g l = true -> forallb g (firstn n l) = true.
Proof.
  revert n; induction l as [|c l IH]; intros [|n]; cbn; try reflexivity.
  intros H. apply andb_true_iff in H as [Hc Hl]. now rewrite Hc, IH.
Qed.

Lemma forallb_skipn (g : char -> bool) (n : nat) (l : jsstring) :
  forallb g l = true -> forallb g (skipn n l) = true.
Proof.
  revert n; induction l as [|c l IH]; intros [|n]; cbn; try reflexivity.
  - now intros ->.
  - intros H. apply andb_true_iff in H as [Hc Hl]. now apply IH.
Qed.

Lemma forallb_zeros (j : nat) : forallb is_digit (zeros j) = true.
Proof. induction j as [|j IH]; [reflexivity|exact IH]. Qed.

(** [make_decimal] on the digits of a canonical decimal. *)
Lemma make_decimal_fraction (m : Z) (k : nat) (ip fp : jsstring) (e : Z) :
  dnorm (Dec m k) = Dec m k ->
  digits_value (ip ++ fp) = Z.abs_N m ->
  e - Z.of_nat (length fp) = - Z.of_nat k ->
  (0 < k)%nat ->
  make_decimal (m <? 0) ip fp e = Dec m k.
Proof.
  intros Hc Hv He Hk. unfold make_decimal. rewrite Hv, signed_abs, He.
  destruct (Z.leb_spec 0 (- Z.of_nat k)); [lia|].
  rewrite Z.opp_involutive, Nat2Z.id. exact Hc.
Qed.

Lemma make_decimal_integer (m : Z) (ip fp : jsstring) (e : Z) (j : nat) :
  (digits_value (ip ++ fp) * 10 ^ N.of_nat j)%N = Z.abs_N m ->
  e - Z.of_nat (length fp) = Z.of_nat j ->
  make_decimal (m <? 0) ip fp e = Dec m 0.
Proof.
  intros Hv He. unfold make_decimal. rewrite He.
  destruct (Z.leb_spec 0 (Z.of_nat j)); [|lia].
  rewrite dnorm_int. f_equal.
  rewrite <- (signed_abs m) at 2. rewrite <- Hv.
  rewrite N2Z.inj_mul, N2Z.inj_pow, nat_N_Z. change (Z.of_N 10) with 10.
  destruct (m <? 0); ring.
Qed.

(** The text [Number::toString] gives a canonical decimal is a JSON number
    that writes this decimal. *)
Lemma Number_toString_text (d : decimal) :
  dnorm d = d ->
  exists ip fp e,
    Number_toString (Fin d) = number_text (dmant d <? 0) ip fp e /\
    int_part ip /\
    forallb is_digit fp = true /\
    make_decimal (dmant d <? 0) ip fp (match e with Some z => z | None => 0 end)
    = d.
Proof.
  destruct d as [m k]. intros Hc. cbn [dmant].
  unfold Number_toString. rewrite Hc. cbn [dmant dscale].
  destruct (Z.eqb_spec m 0) as [->|Hm].
  - (* zero *)
    exists [48%N], [], None. repeat split; [now left|].
    destruct (canonical_cases 0 k Hc) as [->|H]; [reflexivity|].
    now contradiction H.
  - pose proof (digits_spec (Z.abs_N m)) as [Hne [Hdig [Hval [Hhd [t Hlast]]]]].
    destruct Hhd as [c [t0 [Hds Hc48]]]; [lia|].
    destruct (strip_zeros_end_spec (digits (Z.abs_N m))) as [j Hj].
    pose proof (strip_zeros_end_digits _ Hdig) as Hsdig.
    destruct (strip_zeros_end_head c t0 Hc48) as [srest Hs].
    rewrite <- Hds in Hs.
    assert (Hsign : (if m <? 0 then str "-" else []) = (if m <? 0 then [45%N] else []))
      by reflexivity.
    rewrite Hsign. clear Hsign.
    set (ds := digits (Z.abs_N m)) in *.
    set (s := strip_zeros_end ds) in *.
    assert (HL : length ds = (length s + j)%nat)
      by (rewrite Hj at 1; now rewrite length_app, length_zeros).
    assert (Hcanon : k = 0%nat \/ (0 < k)%nat /\ s = ds).
    { destruct (canonical_cases m k Hc) as [->|Hmod]; [now left|].
      destruct k as [|k']; [now left|]. right. split; [lia|].
      unfold s. rewrite Hlast. apply strip_zeros_end_nonzero.
      pose proof (abs_N_mod10 m Hmod). unfold digit_char. lia. }
    set (n := Z.of_nat (length ds) - Z.of_nat k).
    destruct ((Z.of_nat (length s) <=? n) && (n <=? 21)) eqn:EA.
    + (* digits only *)
      apply andb_true_iff in EA as [E1 E2].
      apply Z.leb_le in E1. apply Z.leb_le in E2.
      assert (Hk : k = 0%nat).
      { destruct Hcanon as [Hk|[Hk Hsd]]; [exact Hk|].
        unfold n in E1. rewrite Hsd in E1. lia. }
      subst k. exists ds, [], None.
      assert (Hz : Z.to_nat (n - Z.of_nat (length s)) = j) by (unfold n; lia).
      rewrite Hz, <- Hj.
      split; [unfold number_text; now rewrite !app_nil_r|].
      split; [right; exists c, t0; now rewrite <- Hds|].
      split; [reflexivity|].
      apply (make_decimal_integer m ds [] 0 0).
      * rewrite app_nil_r, digits_value_dv, Hval. cbn. lia.
      * reflexivity.
    + destruct ((0 <? n) && (n <=? 21)) eqn:EB.
      * (* digits, a point, digits *)
        apply andb_true_iff in EB as [E1 E2].
        apply Z.ltb_lt in E1. apply Z.leb_le in E2.
        assert (Hk : (0 < k)%nat /\ s = ds).
        { destruct Hcanon as [Hk|H]; [|exact H]. subst k.
          apply andb_false_iff in EA as [EA|EA];
            [apply Z.leb_gt in EA|apply Z.leb_gt in EA]; unfold n in *; lia. }
        destruct Hk as [Hk Hsd]. rewrite Hsd.
        exists (firstn (Z.to_nat n) ds), (skipn (Z.to_nat n) ds), None.
        assert (Hlen : length (skipn (Z.to_nat n) ds)
                       = (length ds - Z.to_nat n)%nat) by apply length_skipn.
        assert (Hfp : skipn (Z.to_nat n) ds <> []).
        { intros E. rewrite E in Hlen. cbn [length] in Hlen. unfold n in *. lia. }
        split.
        { unfold number_text. rewrite (fraction_text _ Hfp), app_nil_r.
          reflexivity. }
        split.
        { right. rewrite Hds. destruct (Z.to_nat n) as [|n'] eqn:En; [lia|].
          exists c, (firstn n' t0). split; [reflexivity|]. split; [exact Hc48|].
          rewrite <- Hds in *. rewrite <- En. now apply forallb_firstn. }
        split; [now apply forallb_skipn|].
        apply make_decimal_fraction; try assumption.
        { rewrite firstn_skipn, digits_value_dv. exact Hval. }
        { rewrite Hlen. unfold n. lia. }
      * destruct ((-6 <? n) && (n <=? 0)) eqn:EC.
        -- (* 0, a point, zeros, digits *)
           apply andb_true_iff in EC as [E1 E2].
           apply Z.ltb_lt in E1. apply Z.leb_le in E2.
           assert (Hlen1 : (1 <= length ds)%nat)
             by (rewrite Hds; cbn; lia).
           assert (Hk : (0 < k)%nat /\ s = ds).
           { destruct Hcanon as [Hk|H]; [|exact H]. subst k.
             unfold n in *. lia. }
           destruct Hk as [Hk Hsd]. rewrite Hsd.
           exists [48%N], (zeros (Z.to_nat (- n)) ++ ds), None.
           assert (Hfp : zeros (Z.to_nat (- n)) ++ ds <> []).
           { rewrite Hds. destruct (zeros (Z.to_nat (- n))); discriminate. }
           split.
           { unfold number_text. rewrite (fraction_text _ Hfp), app_nil_r.
             reflexivity. }
           split; [now left|].
           split; [rewrite forallb_app, forallb_zeros; exact Hdig|].
           apply make_decimal_fraction; try assumption.
           { rewrite digits_value_dv. cbn [app]. rewrite dv_cons, dv_app, dv_zeros, Hval.
             unfold digit_val. lia. }
           { rewrite length_app, length_zeros. unfold n. lia. }
        -- (* one digit, the others after a point, an exponent *)
           exists [c], srest, (Some (n - 1)).
           assert (Hslen : length s = S (length srest)) by (now rewrite Hs).
           split.
           { unfold number_text. rewrite Hs.
             destruct srest as [|x srest'];
               destruct (n - 1 <? 0); reflexivity. }
           split; [right; exists c, []; repeat split;
                   [exact Hc48|rewrite Hs in Hsdig; cbn in Hsdig |- *;
                    apply andb_true_iff in Hsdig as [-> _]; reflexivity]|].
           split; [rewrite Hs in Hsdig; cbn in Hsdig;
                   now apply andb_true_iff in Hsdig as [_ ->]|].
           destruct Hcanon as [Hk|[Hk Hsd]].
           ++ subst k.
              apply (make_decimal_integer m [c] srest (n - 1) j).
              ** cbn [app]. rewrite <- Hs, <- Hval, Hj, dv_app, dv_zeros,
                   length_zeros, digits_value_dv. lia.
              ** unfold n. lia.
           ++ apply make_decimal_fraction; try assumption.
              ** cbn [app]. rewrite <- Hs, Hsd, digits_value_dv. exact Hval.
              ** unfold n. rewrite <- Hsd. lia.
Qed.

Lemma parse_number_toString (d : decimal) (rest : jsstring) :
  dnorm d = d ->
  number_end rest ->
  parse_json_number (Number_toString (Fin d) ++ rest) = Some (Fin d, rest).
Proof.
  intros Hc Hrest.
  destruct (Number_toString_text d Hc) as [ip [fp [e [Htext [Hip [Hfp Hval]]]]]].
  rewrite Htext, (parse_number_text _ ip fp e rest Hip Hfp Hrest).
  now rewrite Hval.
Qed.

(** ** Strings: from the quoted text back to the string *)

Section Quoting.

Local Open Scope N_scope.

Lemma hex_val_char (d : N) : d < 16 -> hex_val (hex_char d) = Some d.
Proof.
  intros H.
  assert (Hd : d = 0 \/ d = 1 \/ d = 2 \/ d = 3 \/ d = 4 \/ d = 5 \/ d = 6 \/
               d = 7 \/ d = 8 \/ d = 9 \/ d = 10 \/ d = 11 \/ d = 12 \/
               d = 13 \/ d = 14 \/ d = 15) by lia.
  repeat (destruct Hd as [->|Hd]; [reflexivity|]). now subst d.
Qed.

Lemma hex4_value_hex4 (c : char) :
  c < 65536 ->
  hex4_value (hex_char (c / 4096 mod 16)) (hex_char (c / 256 mod 16))
             (hex_char (c / 16 mod 16)) (hex_char (c mod 16)) = Some c.
Proof.
  intros H. unfold hex4_value.
  rewrite !hex_val_char by (apply N.mod_lt; lia).
  f_equal.
  assert (E1 : c / 256 = (c / 16) / 16) by (now rewrite N.Div0.div_div).
  assert (E2 : c / 4096 = (c / 256) / 16) by (now rewrite N.Div0.div_div).
  assert (E3 : c / 4096 < 16) by (apply N.Div0.div_lt_upper_bound; lia).
  rewrite (N.mod_small (c / 4096) 16) by exact E3.
  pose proof (N.div_mod (c / 256) 16). pose proof (N.div_mod (c / 16) 16).
  pose proof (N.div_mod c 16).
  rewrite <- E2 in *. rewrite <- E1 in *. lia.
Qed.

Lemma parse_unicode_escape (c : char) (s : jsstring) :
  c < 65536 ->
  parse_string_chars (unicode_escape c ++ s)
  = match parse_string_chars s with
    | Some (x, r) => Some (c :: x, r)
    | None => None
    end.
Proof.
  intros H. unfold unicode_escape, hex4. cbn [app parse_string_chars].
  cbn [N.eqb Pos.eqb]. rewrite hex4_value_hex4 by exact H.
  destruct (parse_string_chars s) as [[x r]|]; reflexivity.
Qed.

Lemma parse_literal (c : char) (s : jsstring) :
  N.eqb c 34 = false -> N.eqb c 92 = false -> (c <? 32) = false ->
  parse_string_chars (c :: s)
  = match parse_string_chars s with
    | Some (x, r) => Some (c :: x, r)
    | None => None
    end.
Proof. intros H1 H2 H3. cbn [parse_string_chars]. now rewrite H1, H2, H3. Qed.

Lemma surrogate_literal (c : char) :
  is_high_surrogate c = true \/ is_low_surrogate c = true ->
  N.eqb c 34 = false /\ N.eqb c 92 = false /\ (c <? 32) = false /\ c < 65536.
Proof.
  unfold is_high_surrogate, is_low_surrogate.
  intros [H|H]; apply andb_true_iff in H as [H1 H2];
    apply N.leb_le in H1; apply N.leb_le in H2;
    (repeat split; [apply N.eqb_neq|apply N.eqb_neq|apply N.ltb_ge|]; lia).
Qed.

Lemma parse_string_quote_len (n : nat) :
  forall (s rest : jsstring),
    (length s < n)%nat ->
    parse_string_chars (quote_chars s ++ 34 :: rest) = Some (s, rest).
Proof.
  induction n as [|n IH]; intros s rest Hlen; [lia|].
  destruct s as [|c s]; [reflexivity|].
  cbn [length] in Hlen.
  assert (IHs : parse_string_chars (quote_chars s ++ 34 :: rest) = Some (s, rest))
    by (apply IH; lia).
  cbn [quote_chars].
  destruct (N.eqb_spec c 8) as [->|H8];
    [cbn [app parse_string_chars N.eqb Pos.eqb simple_escape]; now rewrite IHs|].
  destruct (N.eqb_spec c 9) as [->|H9];
    [cbn [app parse_string_chars N.eqb Pos.eqb simple_escape]; now rewrite IHs|].
  destruct (N.eqb_spec c 10) as [->|H10];
    [cbn [app parse_string_chars N.eqb Pos.eqb simple_escape]; now rewrite IHs|].
  destruct (N.eqb_spec c 12) as [->|H12];
    [cbn [app parse_string_chars N.eqb Pos.eqb simple_escape]; now rewrite IHs|].
  destruct (N.eqb_spec c 13) as [->|H13];
    [cbn [app parse_string_chars N.eqb Pos.eqb simple_escape]; now rewrite IHs|].
  destruct (N.ltb_spec c 32) as [H32|H32].
  { rewrite <- app_assoc, parse_unicode_escape by lia. now rewrite IHs. }
  destruct (N.eqb_spec c 34) as [->|H34];
    [cbn [app parse_string_chars N.eqb Pos.eqb simple_escape]; now rewrite IHs|].
  destruct (N.eqb_spec c 92) as [->|H92];
    [cbn [app parse_string_chars N.eqb Pos.eqb simple_escape]; now rewrite IHs|].
  assert (Hlit : forall x t,
             N.eqb x 34 = false -> N.eqb x 92 = false -> (x <? 32) = false ->
             parse_string_chars t = Some (s, rest) ->
             parse_string_chars (x :: t) = Some (x :: s, rest)).
  { intros x t0 H1 H2 H3 Ht. now rewrite parse_literal, Ht. }
  destruct (is_high_surrogate c) eqn:Ehi.
  - destruct (surrogate_literal c (or_introl Ehi)) as [L1 [L2 [L3 L4]]].
    destruct s as [|d s'].
    + rewrite parse_unicode_escape by exact L4. reflexivity.
    + destruct (is_low_surrogate d) eqn:Elo.
      * destruct (surrogate_literal d (or_intror Elo)) as [M1 [M2 [M3 M4]]].
        cbn [app]. rewrite parse_literal, parse_literal by assumption.
        cbn [length] in Hlen. rewrite (IH s' rest) by lia. reflexivity.
      * rewrite <- app_assoc, parse_unicode_escape by exact L4.
        now rewrite IHs.
  - destruct (is_low_surrogate c) eqn:Elo.
    + destruct (surrogate_literal c (or_intror Elo)) as [L1 [L2 [L3 L4]]].
      rewrite <- app_assoc, parse_unicode_escape by exact L4. now rewrite IHs.
    + cbn [app]. apply Hlit; try assumption.
      * now apply N.eqb_neq.
      * now apply N.eqb_neq.
      * apply N.ltb_ge. lia.
Qed.

Lemma parse_string_quote (s rest : jsstring) :
  parse_string_chars (quote_chars s ++ 34 :: rest) = Some (s, rest).
Proof. apply (parse_string_quote_len (S (length s))). lia. Qed.

End Quoting.

(** ** JSON: from the text of a cart back to its records *)

Lemma json_text_array_elems (r : ref) (l : list value) :
  json_text (VArr r l) = Some (91%N :: json_elems l ++ [93%N]).
Proof. reflexivity. Qed.

Lemma alloc_array (r : ref) (l : list value) (n : ref) :
  alloc (VArr r l) n
  = (VArr n (fst (alloc_list l (n + 1)%N)), snd (alloc_list l (n + 1)%N)).
Proof.
  change (alloc (VArr r l) n)
    with (let '(l', n') := alloc_list l (n + 1)%N in (VArr n l', n')).
  destruct (alloc_list l (n + 1)%N); reflexivity.
Qed.

Lemma json_text_record (id nom cat : jsstring) (pr q : decimal) :
  json_text (record_of (mkProducto (VStr id) (VStr nom) (VNum (Fin pr))
                                   (VStr cat) (VNum (Fin q))))
  = Some (record_text id nom cat pr q).
Proof.
  unfold record_of, record_text, getId.
  cbn [json_text p_id nombre precio categoria cantidad].
  f_equal. cbn [app]. 
  change (QuoteJSONString (str "id")) with (jsq "'id'").
  change (QuoteJSONString (str "nombre")) with (jsq "'nombre'").
  change (QuoteJSONString (str "precio")) with (jsq "'precio'").
  change (QuoteJSONString (str "categoria")) with (jsq "'categoria'").
  change (QuoteJSONString (str "cantidad")) with (jsq "'cantidad'").
  change (jsq "{'id':") with (123%N :: jsq "'id'" ++ [58%N]).
  change (jsq ",'nombre':") with (44%N :: jsq "'nombre'" ++ [58%N]).
  change (jsq ",'precio':") with (44%N :: jsq "'precio'" ++ [58%N]).
  change (jsq ",'categoria':") with (44%N :: jsq "'categoria'" ++ [58%N]).
  change (jsq ",'cantidad':") with (44%N :: jsq "'cantidad'" ++ [58%N]).
  cbn [app]. f_equal.
  repeat (rewrite <- ?app_assoc; cbn [app]; f_equal).
Qed.

Lemma parse_value_string (f : nat) (s rest : jsstring) :
  parse_value (S f) (QuoteJSONString s ++ rest) = POk (VStr s) rest.
Proof.
  unfold QuoteJSONString. cbn [app]. rewrite <- app_assoc. cbn [app].
  cbn [parse_value skip_ws drop_while is_json_ws N.eqb Pos.eqb orb].
  now rewrite parse_string_quote.
Qed.

(** A text that starts as a number is parsed as one. *)
Lemma parse_value_number_head (f : nat) (x : char) (tl : jsstring) :
  x = 45%N \/ is_digit x = true ->
  parse_value (S f) (x :: tl)
  = match parse_json_number (x :: tl) with
    | Some (n, r) => POk (VNum n) r
    | None => PFail
    end.
Proof.
  intros Hx.
  assert (Hne : forall k, In k [9; 10; 13; 32; 34; 91; 123; 116; 102; 110]%N ->
                          N.eqb x k = false /\ N.eqb k x = false).
  { intros k Hk. rewrite (N.eqb_sym k x). split; apply N.eqb_neq; intros ->.
    all: destruct Hx as [Hx|Hx];
      [subst; cbn in Hk; repeat (destruct Hk as [Hk|Hk]; [discriminate|]);
       destruct Hk
      |cbn in Hk; repeat (destruct Hk as [<-|Hk]; [discriminate|]); destruct Hk]. }
  assert (Hws : is_json_ws x = false).
  { unfold is_json_ws.
    rewrite (proj1 (Hne 9%N ltac:(cbn; tauto))),
      (proj1 (Hne 10%N ltac:(cbn; tauto))),
      (proj1 (Hne 13%N ltac:(cbn; tauto))),
      (proj1 (Hne 32%N ltac:(cbn; tauto))). reflexivity. }
  assert (Ht : starts_with (str "true") (x :: tl) = false).
  { change (str "true") with (116%N :: str "rue"). cbn [starts_with].
    now rewrite (proj2 (Hne 116%N ltac:(cbn; tauto))). }
  assert (Hf : starts_with (str "false") (x :: tl) = false).
  { change (str "false") with (102%N :: str "alse"). cbn [starts_with].
    now rewrite (proj2 (Hne 102%N ltac:(cbn; tauto))). }
  assert (Hn : starts_with (str "null") (x :: tl) = false).
  { change (str "null") with (110%N :: str "ull"). cbn [starts_with].
    now rewrite (proj2 (Hne 110%N ltac:(cbn; tauto))). }
  cbn [parse_value skip_ws drop_while]. rewrite Hws.
  rewrite (proj1 (Hne 34%N ltac:(cbn; tauto))),
    (proj1 (Hne 91%N ltac:(cbn; tauto))),
    (proj1 (Hne 123%N ltac:(cbn; tauto))).
  now rewrite Ht, Hf, Hn.
Qed.

Lemma number_text_head (neg : bool) (ip fp : jsstring) (e : option Z)
    (rest : jsstring) :
  int_part ip ->
  exists x tl,
    number_text neg ip fp e ++ rest = x :: tl /\
    (x = 45%N \/ is_digit x = true).
Proof.
  intros Hip. unfold number_text. destruct neg; cbn [app].
  - eexists _, _. split; [reflexivity|now left].
  - destruct Hip as [->|[c [t [-> [_ Hd]]]]]; cbn [app].
    + eexists _, _. split; [reflexivity|now right].
    + eexists _, _. split; [reflexivity|right].
      cbn in Hd. now apply andb_true_iff in Hd as [-> _].
Qed.

Lemma parse_value_number (f : nat) (d : decimal) (rest : jsstring) :
  canonical d ->
  number_end rest ->
  parse_value (S f) (Number_toString (Fin d) ++ rest) = POk (VNum (Fin d)) rest.
Proof.
  intros Hc Hrest.
  pose proof (parse_number_toString d rest Hc Hrest) as Hparse.
  destruct (Number_toString_text d Hc) as [ip [fp [e [Htext [Hip _]]]]].
  destruct (number_text_head (dmant d <? 0) ip fp e rest Hip)
    as [x [tl [Hshape Hx]]].
  rewrite Htext in *. rewrite Hshape in *.
  now rewrite (parse_value_number_head f x tl Hx), Hparse.
Qed.

(** One member of an object, up to the comma or the closing brace. *)
Lemma parse_members_step (f : nat) (k vt rest : jsstring) (v : value)
    (sep : char) (acc : list (jsstring * value)) :
  parse_value f (vt ++ sep :: rest) = POk v (sep :: rest) ->
  (sep = 44%N \/ sep = 125%N) ->
  parse_members (S f) (QuoteJSONString k ++ 58%N :: vt ++ sep :: rest) acc
  = if N.eqb sep 44 then parse_members f rest (props_set k v acc)
    else POk (VObj 0%N (props_set k v acc)) rest.
Proof.
  intros Hv Hsep. unfold QuoteJSONString. cbn [app]. rewrite <- app_assoc.
  cbn [app parse_members expect skip_ws drop_while is_json_ws N.eqb Pos.eqb orb].
  rewrite parse_string_quote.
  cbn [expect skip_ws drop_while is_json_ws N.eqb Pos.eqb orb].
  rewrite Hv. unfold scan_separator.
  destruct Hsep as [->| ->]; reflexivity.
Qed.

Lemma number_end_comma (rest : jsstring) : number_end (44%N :: rest).
Proof. repeat split; discriminate. Qed.

Lemma number_end_brace (rest : jsstring) : number_end (125%N :: rest).
Proof. repeat split; discriminate. Qed.

(** The record of a typed entry, from its text. *)
Lemma parse_value_record (f : nat) (id nom cat : jsstring) (pr q : decimal)
    (rest : jsstring) :
  canonical pr -> canonical q ->
  parse_value (7 + f) (record_text id nom cat pr q ++ rest)
  = POk (record_of (mkProducto (VStr id) (VStr nom) (VNum (Fin pr)) (VStr cat)
                               (VNum (Fin q)))) rest.
Proof.
  intros Hpr Hq. unfold record_text.
  change (jsq "{'id':") with (123%N :: QuoteJSONString (str "id") ++ [58%N]).
  change (jsq ",'nombre':") with (44%N :: QuoteJSONString (str "nombre") ++ [58%N]).
  change (jsq ",'precio':") with (44%N :: QuoteJSONString (str "precio") ++ [58%N]).
  change (jsq ",'categoria':")
    with (44%N :: QuoteJSONString (str "categoria") ++ [58%N]).
  change (jsq ",'cantidad':")
    with (44%N :: QuoteJSONString (str "cantidad") ++ [58%N]).
  repeat (rewrite <- ?app_assoc; cbn [app]).
  change (7 + f)%nat with (S (S (5 + f))).
  cbn [parse_value skip_ws drop_while is_json_ws N.eqb Pos.eqb orb].
  assert (Hopen : forall x, expect 125%N (QuoteJSONString (str "id") ++ x) = None)
    by reflexivity.
  rewrite Hopen.
  change (S (5 + f)) with (S (S (4 + f))).
  rewrite (parse_members_step _ (str "id") (QuoteJSONString id) _ (VStr id) 44%N)
    by (try apply parse_value_string; now left).
  cbn [N.eqb Pos.eqb].
  change (S (4 + f)) with (S (S (3 + f))).
  rewrite (parse_members_step _ (str "nombre") (QuoteJSONString nom) _ (VStr nom) 44%N)
    by (try apply parse_value_string; now left).
  cbn [N.eqb Pos.eqb].
  change (S (3 + f)) with (S (S (2 + f))).
  rewrite (parse_members_step _ (str "precio") (Number_toString (Fin pr)) _
             (VNum (Fin pr)) 44%N)
    by (try (apply parse_value_number; [exact Hpr|apply number_end_comma]);
        now left).
  cbn [N.eqb Pos.eqb].
  change (S (2 + f)) with (S (S (1 + f))).
  rewrite (parse_members_step _ (str "categoria") (QuoteJSONString cat) _
             (VStr cat) 44%N)
    by (try apply parse_value_string; now left).
  cbn [N.eqb Pos.eqb].
  change (S (1 + f)) with (S (S f)).
  rewrite (parse_members_step _ (str "cantidad") (Number_toString (Fin q)) _
             (VNum (Fin q)) 125%N)
    by (try (apply parse_value_number; [exact Hq|apply number_end_brace]);
        now right).
  reflexivity.
Qed.

Lemma typed_record_text (p : Producto) :
  typed p ->
  exists t, json_text (record_of p) = Some (123%N :: t) /\
            forall f rest, parse_value (7 + f) (123%N :: t ++ rest)
                           = POk (record_of p) rest.
Proof.
  intros [id nom cat pr q Hpr Hq].
  exists (tl (record_text id nom cat pr q)). split.
  - rewrite json_text_record. reflexivity.
  - intros f rest.
    exact (parse_value_record f id nom cat pr q rest Hpr Hq).
Qed.

(** The elements of an array of records, from their text. *)
Lemma parse_elements_records (ps : list Producto) :
  Forall typed ps ->
  forall (acc : list value) (rest : jsstring) (f : nat),
    ps <> [] ->
    (length ps + 7 <= f)%nat ->
    parse_elements f (json_elems (map record_of ps) ++ 93%N :: rest) acc
    = POk (VArr 0%N (rev acc ++ map record_of ps)) rest.
Proof.
  induction 1 as [|p ps Hp Hps IH]; intros acc rest f Hne Hf; [contradiction|].
  destruct (typed_record_text p Hp) as [t [Ht Hparse]].
  cbn [map json_elems length] in *. rewrite Ht.
  destruct f as [|g]; [lia|]. cbn [parse_elements].
  replace g with (7 + (g - 7))%nat by lia.
  destruct ps as [|p' ps'].
  - cbn [map app]. rewrite app_nil_r.
    change ((123%N :: t) ++ 93%N :: rest) with (123%N :: t ++ 93%N :: rest).
    rewrite Hparse. unfold scan_separator.
    cbn [skip_ws drop_while is_json_ws N.eqb Pos.eqb orb].
    cbn [rev]. reflexivity.
  - rewrite <- app_assoc.
    change ((123%N :: t) ++ ?x) with (123%N :: t ++ x).
    rewrite Hparse. unfold scan_separator.
    cbn [map app skip_ws drop_while is_json_ws N.eqb Pos.eqb orb].
    rewrite (IH (record_of p :: acc) rest); [|discriminate|cbn [length] in *; lia].
    cbn [rev map]. now rewrite <- app_assoc.
Qed.

Lemma json_elems_length (ps : list Producto) :
  Forall typed ps ->
  (6 * length ps <= length (json_elems (map record_of ps)))%nat.
Proof.
  induction 1 as [|p ps Hp Hps IH]; [cbn; lia|].
  cbn [map json_elems length]. destruct Hp as [id nom cat pr q Hpr Hq].
  rewrite json_text_record, length_app. unfold record_text.
  rewrite length_app.
  change (length (jsq "{'id':")) with 6%nat.
  destruct (map record_of ps); cbn [length json_elems] in *; lia.
Qed.

(** [JSON.parse] gives back the array [saveToStorage] serialised. *)
Lemma JSON_parse_cart_text (c : Carrito) :
  Forall typed (map_values (items c)) ->
  JSON_parse (cart_text c)
  = Some (VArr 0%N (map record_of (map_values (items c)))).
Proof.
  intros Ht. unfold cart_text. rewrite json_text_array_elems.
  remember (map_values (items c)) as ps eqn:Eps. clear Eps.
  pose proof (json_elems_length ps Ht) as Hlen.
  unfold JSON_parse, parse_fuel.
  cbn [length]. rewrite length_app. cbn [length].
  replace (2 * S (length (json_elems (map record_of ps)) + 1) + 2)%nat
    with (S (2 * length (json_elems (map record_of ps)) + 5)) by lia.
  cbn [parse_value skip_ws drop_while is_json_ws N.eqb Pos.eqb orb].
  destruct ps as [|p ps'].
  - reflexivity.
  - assert (Hopen : expect 93%N (json_elems (map record_of (p :: ps')) ++ [93%N])
                    = None).
    { cbn [map json_elems].
      inversion Ht as [|? ? Hp _]; subst.
      destruct (typed_record_text p Hp) as [t [Htxt _]]. rewrite Htxt.
      reflexivity. }
    rewrite Hopen.
    rewrite (parse_elements_records (p :: ps') Ht [] []);
      [reflexivity|discriminate|cbn [length] in *; lia].
Qed.

(** ** Hydration from the records of a cart *)

Lemma record_product_alloc (p : Producto) (n : ref) :
  typed p ->
  record_product (fst (alloc (record_of p) n)) = Ok p /\
  snd (alloc (record_of p) n) = (n + 1)%N.
Proof. intros [id nom cat pr q Hpr Hq]. split; reflexivity. Qed.

Lemma alloc_list_records (ps : list Producto) :
  Forall typed ps ->
  forall n : ref,
    Forall2 (fun o p => record_product o = Ok p)
            (fst (alloc_list (map record_of ps) n)) ps.
Proof.
  induction 1 as [|p ps Hp Hps IH]; intros n; [constructor|].
  cbn [map alloc_list].
  destruct (record_product_alloc p n Hp) as [H1 H2].
  destruct (alloc (record_of p) n) as [o n1]. cbn [fst snd] in *.
  specialize (IH n1). destruct (alloc_list (map record_of ps) n1) as [os n2].
  cbn [fst] in *. now constructor.
Qed.

Lemma map_has_app {V} (x : value) (a b : jsmap V) :
  map_has x (a ++ b) = map_has x a || map_has x b.
Proof.
  induction a as [|[k v] a IH]; cbn; [reflexivity|].
  now rewrite IH, orb_assoc.
Qed.

Lemma map_wf_app_has {V} (acc rest : jsmap V) (k : value) (v : V) :
  map_wf (acc ++ (k, v) :: rest) -> map_has k acc = false.
Proof.
  induction acc as [|[k0 v0] acc IH]; cbn; [reflexivity|].
  intros [Hk0 Hwf]. rewrite (IH Hwf), orb_false_r.
  rewrite map_has_app in Hk0. apply orb_false_iff in Hk0 as [_ Hk0].
  cbn in Hk0. apply orb_false_iff in Hk0 as [Hk0 _].
  now rewrite SameValueZero_sym.
Qed.

Lemma load_items_records (os : list value) (ps : list Producto) :
  Forall2 (fun o p => record_product o = Ok p) os ps ->
  forall acc : jsmap Producto,
    map_wf (acc ++ map entry ps) ->
    load_items os acc = (None, acc ++ map entry ps).
Proof.
  induction 1 as [|o p os ps Ho _ IH]; intros acc Hwf; cbn [load_items map].
  - now rewrite app_nil_r.
  - rewrite Ho. cbn [map] in Hwf.
    rewrite (map_set_new _ _ _ (map_wf_app_has acc _ _ _ Hwf)).
    rewrite IH; rewrite <- app_assoc; [reflexivity|exact Hwf].
Qed.

Lemma keyed_entries (m : jsmap Producto) :
  keyed m -> map entry (map_values m) = m.
Proof.
  unfold keyed, map_values.
  induction 1 as [|[k p] m Hk _ IH]; [reflexivity|].
  cbn [map snd]. rewrite IH. unfold entry. cbn in Hk. now rewrite Hk.
Qed.

Lemma props_get_put (key v : jsstring) (l : list (jsstring * jsstring)) :
  props_get key (storage_put key v l) = Some v.
Proof.
  unfold storage_put. destruct (props_has key l) eqn:E.
  - induction l as [|[k x] l IH]; [discriminate|].
    cbn in *. destruct (streq key k) eqn:Ek; cbn.
    + now rewrite Ek.
    + rewrite Ek. auto.
  - induction l as [|[k x] l IH]; cbn in *.
    + now rewrite streq_refl.
    + destruct (streq key k); [discriminate|auto].
Qed.

(** ** C5 *)

(** C5, as the code has it: for every cart whose entries are typed as the
    specification types them (strings for id, name and category, finite
    numbers for price and quantity), [saveToStorage] where the write succeeds
    and then [new Carrito()] gives the same entries in the same order: the
    same ids with the same names, prices, categories and quantities. *)
Theorem C5_save_then_load (c : Carrito) (w : World) :
  map_wf (items c) ->
  keyed (items c) ->
  Forall typed (map_values (items c)) ->
  write_fails w c = false ->
  fst (hydrate (snd (snd (saveToStorage (c, w))))) = c.
Proof.
  intros Hwf Hkeyed Htyped Hwrite.
  rewrite (saveToStorage_written c w Hwrite). cbn [snd].
  unfold write_fails, setItem_throws in Hwrite.
  apply orb_false_iff in Hwrite as [Hen _]. apply negb_false_iff in Hen.
  unfold hydrate, Carrito_new. rewrite loadFromStorage_unfold.
  cbn [store ls_enabled ls_items next_ref]. rewrite Hen, props_get_put.
  pose proof (JSON_parse_cart_text c Htyped) as Hparse.
  assert (Htext : exists x t, cart_text c = x :: t).
  { unfold cart_text. rewrite json_text_array_elems. eauto. }
  destruct Htext as [x [t Htext]]. rewrite Htext in *. rewrite Hparse.
  cbv zeta. rewrite alloc_array. cbn [fst snd iterate items].
  rewrite (load_items_records _ _
             (alloc_list_records _ Htyped (next_ref w + 1)%N) []).
  - cbn [app fst items]. rewrite (keyed_entries _ Hkeyed). now destruct c.
  - cbn [app]. now rewrite (keyed_entries _ Hkeyed).
Qed.

Lemma typed_cupcake : typed cupcake.
Proof. apply typed_intro; reflexivity. Defined.

Lemma C5_save_then_load_witness :
  map_wf (items cart_cupcake) /\
  keyed (items cart_cupcake) /\
  Forall typed (map_values (items cart_cupcake)) /\
  write_fails empty_world cart_cupcake = false /\
  fst (hydrate (snd (snd (saveToStorage (cart_cupcake, empty_world)))))
  = cart_cupcake.
Proof.
  assert (Hwf : map_wf (items cart_cupcake)) by (split; [reflexivity|exact I]).
  assert (Hk : keyed (items cart_cupcake))
    by (constructor; [reflexivity|constructor]).
  assert (Ht : Forall typed (map_values (items cart_cupcake)))
    by (constructor; [exact typed_cupcake|constructor]).
  assert (Hw : write_fails empty_world cart_cupcake = false)
    by (vm_compute; reflexivity).
  split; [exact Hwf|]. split; [exact Hk|]. split; [exact Ht|].
  split; [exact Hw|].
  exact (C5_save_then_load cart_cupcake empty_world Hwf Hk Ht Hw).
Defined.

(** A cart state that does not come back: [updateQty("p1", Infinity)] stores
    Infinity, a number above 0; [JSON.stringify] writes it as null, and the
    reloaded entry has the quantity null. *)
Lemma C5_infinite_quantity_is_lost :
  fst (snd (updateQty (VStr (str "p1")) (VNum (Inf false))
              (cart_cupcake, empty_world)))
  = cart_infinite /\
  write_fails empty_world cart_infinite = false /\
  cart_text cart_infinite
  = jsq "[{'id':'p1','nombre':'Cupcake','precio':5,'categoria':'general','cantidad':null}]" /\
  fst (hydrate (snd (snd (saveToStorage (cart_infinite, empty_world)))))
  = mkCarrito [(VStr (str "p1"), set_cantidad VNull cupcake)] /\
  fst (hydrate (snd (snd (saveToStorage (cart_infinite, empty_world)))))
  <> cart_infinite.
Proof.
  assert (H : fst (hydrate (snd (snd (saveToStorage (cart_infinite, empty_world)))))
              = mkCarrito [(VStr (str "p1"), set_cantidad VNull cupcake)])
    by (vm_compute; reflexivity).
  split; [vm_compute; reflexivity|]. split; [vm_compute; reflexivity|].
  split; [vm_compute; reflexivity|]. split; [exact H|].
  rewrite H. discriminate.
Qed.

(** ** The fuel of the parser *)

Lemma drop_while_length (f : char -> bool) (s : jsstring) :
  (length (drop_while f s) <= length s)%nat.
Proof.
  induction s as [|c s IH]; cbn; [lia|]. destruct (f c); cbn; lia.
Qed.

Lemma expect_length (c : char) (s t : jsstring) :
  expect c s = Some t -> (length t < length s)%nat.
Proof.
  unfold expect, skip_ws. pose proof (drop_while_length is_json_ws s) as H.
  destruct (drop_while is_json_ws s) as [|x u]; [discriminate|].
  destruct (N.eqb x c); [|discriminate]. intros [= <-]. cbn in H. lia.
Qed.

Lemma scan_separator_length (c : char) (s : jsstring) :
  match scan_separator c s with
  | SepComma t | SepClose t => (length t < length s)%nat
  | SepBad => True
  end.
Proof.
  unfold scan_separator, skip_ws.
  pose proof (drop_while_length is_json_ws s) as H.
  destruct (drop_while is_json_ws s) as [|x u]; [exact I|].
  cbn in H. destruct (N.eqb x 44); [lia|]. destruct (N.eqb x c); [lia|exact I].
Qed.

Lemma parse_string_chars_length (n : nat) :
  forall s x r,
    (length s <= n)%nat ->
    parse_string_chars s = Some (x, r) -> (length r < length s)%nat.
Proof.
  induction n as [|n IH]; intros s x r Hn.
  - destruct s; [discriminate|cbn in Hn; lia].
  - destruct s as [|c s1]; [discriminate|]. cbn [parse_string_chars length] in *.
    destruct (N.eqb c 34); [intros [= _ <-]; lia|].
    destruct (N.eqb c 92).
    + destruct s1 as [|e s2]; [discriminate|]. cbn [length] in *.
      destruct (N.eqb e 117).
      * destruct s2 as [|h1 [|h2 [|h3 [|h4 s3]]]]; try discriminate.
        cbn [length] in *.
        destruct (hex4_value h1 h2 h3 h4); [|discriminate].
        destruct (parse_string_chars s3) as [[y r']|] eqn:E; [|discriminate].
        intros [= _ <-]. apply IH in E; lia.
      * destruct (simple_escape e); [|discriminate].
        destruct (parse_string_chars s2) as [[y r']|] eqn:E; [|discriminate].
        intros [= _ <-]. apply IH in E; lia.
    + destruct (c <? 32)%N; [discriminate|].
      destruct (parse_string_chars s1) as [[y r']|] eqn:E; [|discriminate].
      intros [= _ <-]. apply IH in E; lia.
Qed.

Lemma parse_json_number_length (s : jsstring) (n : number) (r : jsstring) :
  parse_json_number s = Some (n, r) -> (length r < length s)%nat.
Proof.
  unfold parse_json_number.
  set (p := match s with
            | [] => (false, s)
            | c :: t => if N.eqb c 45 then (true, t) else (false, s)
            end).
  assert (Hp : (length (snd p) <= length s)%nat).
  { unfold p. destruct s as [|c t]; [cbn; lia|].
    destruct (N.eqb c 45); cbn; lia. }
  destruct p as [neg s0]. cbn [snd] in Hp.
  destruct s0 as [|c s1]; [discriminate|]. cbn [length] in Hp.
  destruct (negb (is_digit c)); [discriminate|].
  set (q := if N.eqb c 48 then ([c], s1)
            else (c :: take_while is_digit s1, drop_while is_digit s1)).
  assert (Hq : (length (snd q) <= length s1)%nat).
  { unfold q. destruct (N.eqb c 48); cbn [snd]; [lia|apply drop_while_length]. }
  destruct q as [ip s2]. cbn [snd] in Hq.
  set (fr := match after_point s2 with
             | Some s3 =>
                 match take_while is_digit s3 with
                 | [] => None
                 | fp => Some (fp, drop_while is_digit s3)
                 end
             | None => Some ([], s2)
             end).
  assert (Hfr : forall fp s4, fr = Some (fp, s4) ->
                              (length s4 <= length s2)%nat).
  { unfold fr, after_point. intros fp s4.
    destruct s2 as [|x s3]; [intros [= _ <-]; cbn; lia|].
    destruct (N.eqb x 46).
    - pose proof (drop_while_length is_digit s3).
      destruct (take_while is_digit s3); [discriminate|].
      intros [= _ <-]. cbn [length]. lia.
    - intros [= _ <-]. lia. }
  destruct fr as [[fp s4]|]; [|discriminate].
  specialize (Hfr fp s4 eq_refl).
  destruct s4 as [|e s5]; [intros [= _ <-]; cbn [length]; lia|].
  cbn [length] in Hfr.
  destruct (N.eqb e 101 || N.eqb e 69).
  - assert (Hs : (length (snd (scan_sign s5)) <= length s5)%nat).
    { unfold scan_sign. destruct s5 as [|x t]; [cbn; lia|].
      destruct (N.eqb x 43); [cbn; lia|]. destruct (N.eqb x 45); cbn; lia. }
    destruct (scan_sign s5) as [eneg s6]. cbn [snd] in Hs.
    pose proof (drop_while_length is_digit s6).
    destruct (take_while is_digit s6); [discriminate|].
    intros [= _ <-]. lia.
  - intros [= _ <-]. cbn [length]. lia.
Qed.

(** What the parser leaves is shorter than what it was given. *)
Lemma parse_consumes (f : nat) :
  (forall s v r, parse_value f s = POk v r -> (length r < length s)%nat) /\
  (forall s acc v r,
     parse_elements f s acc = POk v r -> (length r < length s)%nat) /\
  (forall s acc v r,
     parse_members f s acc = POk v r -> (length r < length s)%nat).
Proof.
  induction f as [|f [IHv [IHe IHm]]]; [repeat split; discriminate|].
  repeat split.
  - intros s v r. cbn [parse_value].
    pose proof (drop_while_length is_json_ws s) as Hws. fold (skip_ws s) in Hws.
    destruct (skip_ws s) as [|c s1]; [discriminate|]. cbn [length] in Hws.
    destruct (N.eqb c 34).
    { destruct (parse_string_chars s1) as [[x r']|] eqn:E; [|discriminate].
      intros [= _ <-].
      apply (parse_string_chars_length (length s1)) in E; lia. }
    destruct (N.eqb c 91).
    { destruct (expect 93%N s1) as [s2|] eqn:E.
      - intros [= _ <-]. apply expect_length in E. lia.
      - intros H. apply IHe in H. lia. }
    destruct (N.eqb c 123).
    { destruct (expect 125%N s1) as [s2|] eqn:E.
      - intros [= _ <-]. apply expect_length in E. lia.
      - intros H. apply IHm in H. lia. }
    destruct (starts_with (str "true") (c :: s1));
      [intros [= _ <-];
       do 5 (try (destruct s1 as [|? s1]; cbn [length] in *; try lia))|].
    destruct (starts_with (str "false") (c :: s1));
      [intros [= _ <-];
       do 5 (try (destruct s1 as [|? s1]; cbn [length] in *; try lia))|].
    destruct (starts_with (str "null") (c :: s1));
      [intros [= _ <-];
       do 5 (try (destruct s1 as [|? s1]; cbn [length] in *; try lia))|].
    destruct (parse_json_number (c :: s1)) as [[n r']|] eqn:E; [|discriminate].
    intros [= _ <-]. apply parse_json_number_length in E. cbn [length] in E. lia.
  - intros s acc v r. cbn [parse_elements].
    destruct (parse_value f s) as [v1 s1| |] eqn:E; try discriminate.
    apply IHv in E. pose proof (scan_separator_length 93%N s1) as Hsep.
    destruct (scan_separator 93%N s1) as [s2|s2|]; [| |discriminate].
    + intros H. apply IHe in H. lia.
    + intros [= _ <-]. lia.
  - intros s acc v r. cbn [parse_members].
    destruct (expect 34%N s) as [s1|] eqn:E1; [|discriminate].
    apply expect_length in E1.
    destruct (parse_string_chars s1) as [[k s2]|] eqn:E2; [|discriminate].
    apply (parse_string_chars_length (length s1)) in E2; [|lia].
    destruct (expect 58%N s2) as [s3|] eqn:E3; [|discriminate].
    apply expect_length in E3.
    destruct (parse_value f s3) as [v1 s4| |] eqn:E4; try discriminate.
    apply IHv in E4. pose proof (scan_separator_length 125%N s4) as Hsep.
    destruct (scan_separator 125%N s4) as [s5|s5|]; [| |discriminate].
    + intros H. apply IHm in H. lia.
    + intros [= _ <-]. lia.
Qed.

(** With twice the length of the text and two more, the parser does not run
    out of fuel. *)
Lemma parse_never_starves (f : nat) :
  (forall s, (2 * length s + 2 <= f)%nat -> parse_value f s <> PFuel) /\
  (forall s acc, (2 * length s + 3 <= f)%nat -> parse_elements f s acc <> PFuel) /\
  (forall s acc, (2 * length s + 3 <= f)%nat -> parse_members f s acc <> PFuel).
Proof.
  induction f as [|f [IHv [IHe IHm]]]; [repeat split; intros; lia|].
  destruct (parse_consumes f) as [Cv _].
  repeat split.
  - intros s Hf. cbn [parse_value].
    pose proof (drop_while_length is_json_ws s) as Hws. fold (skip_ws s) in Hws.
    destruct (skip_ws s) as [|c s1]; [discriminate|]. cbn [length] in Hws.
    destruct (N.eqb c 34);
      [destruct (parse_string_chars s1) as [[x r']|]; discriminate|].
    destruct (N.eqb c 91).
    { destruct (expect 93%N s1); [discriminate|]. apply IHe. lia. }
    destruct (N.eqb c 123).
    { destruct (expect 125%N s1); [discriminate|]. apply IHm. lia. }
    destruct (starts_with (str "true") (c :: s1)); [discriminate|].
    destruct (starts_with (str "false") (c :: s1)); [discriminate|].
    destruct (starts_with (str "null") (c :: s1)); [discriminate|].
    destruct (parse_json_number (c :: s1)) as [[n r']|]; discriminate.
  - intros s acc Hf. cbn [parse_elements].
    destruct (parse_value f s) as [v1 s1| |] eqn:E; [|discriminate|].
    + apply Cv in E. pose proof (scan_separator_length 93%N s1) as Hsep.
      destruct (scan_separator 93%N s1) as [s2|s2|]; try discriminate.
      apply IHe. lia.
    + exfalso. revert E. apply IHv. lia.
  - intros s acc Hf. cbn [parse_members].
    destruct (expect 34%N s) as [s1|] eqn:E1; [|discriminate].
    apply expect_length in E1.
    destruct (parse_string_chars s1) as [[k s2]|] eqn:E2; [|discriminate].
    apply (parse_string_chars_length (length s1)) in E2; [|lia].
    destruct (expect 58%N s2) as [s3|] eqn:E3; [|discriminate].
    apply expect_length in E3.
    destruct (parse_value f s3) as [v1 s4| |] eqn:E4; [|discriminate|].
    + apply Cv in E4. pose proof (scan_separator_length 125%N s4) as Hsep.
      destruct (scan_separator 125%N s4) as [s5|s5|]; try discriminate.
      apply IHm. lia.
    + exfalso. revert E4. apply IHv. lia.
Qed.

(** [JSON_parse] fails on a syntax error only: its fuel never runs out. *)
Lemma JSON_parse_fuel (s : jsstring) : parse_value (parse_fuel s) s <> PFuel.
Proof.
  apply (proj1 (parse_never_starves (parse_fuel s))). unfold parse_fuel. lia.
Qed.

(** ** formatPrice *)

(** [toFixed] splits the digits of the rounded number before the last two,
    after padding them to three. *)
Lemma fixed_split (ds : jsstring) :
  forallb is_digit ds = true ->
  (ds = [48%N] \/ exists c t, ds = c :: t /\ c <> 48%N) ->
  let m := if (length ds <=? 2)%nat then zeros (2 + 1 - length ds) ++ ds else ds in
  exists ip c1 c2,
    firstn (length m - 2) m = ip /\
    skipn (length m - 2) m = [c1; c2] /\
    int_part ip /\
    forallb is_digit (ip ++ [c1; c2]) = true /\
    dv 0 (ip ++ [c1; c2]) = dv 0 ds.
Proof.
  intros Hd Hh.
  destruct ds as [|a [|b [|c t]]].
  - destruct Hh as [Hh|[c [t [Hh _]]]]; discriminate.
  - exists [48%N], 48%N, a. cbn in *. rewrite Hd.
    repeat split; try reflexivity. now left.
  - exists [48%N], a, b. cbn in *. rewrite Hd.
    repeat split; try reflexivity. now left.
  - cbv zeta. set (ds := a :: b :: c :: t) in *.
    assert (Hle : (length ds <=? 2)%nat = false) by reflexivity.
    rewrite Hle.
    assert (Hlen : (length ds - 2 = S (length t))%nat) by (subst ds; cbn; lia).
    rewrite Hlen.
    assert (Hsk : length (skipn (S (length t)) ds) = 2%nat).
    { rewrite length_skipn. subst ds. cbn [length]. lia. }
    destruct (skipn (S (length t)) ds) as [|c1 [|c2 [|x r]]] eqn:Es;
      try discriminate.
    exists (firstn (S (length t)) ds), c1, c2.
    assert (Heq : firstn (S (length t)) ds ++ [c1; c2] = ds)
      by (rewrite <- Es; apply firstn_skipn).
    repeat split.
    + right. destruct Hh as [Hh|[x [r [Hh Hx]]]]; [discriminate|].
      subst ds. injection Hh as <- _. cbn [firstn].
      exists a, (firstn (length t) (b :: c :: t)). repeat split; [exact Hx|].
      change (a :: firstn (length t) (b :: c :: t))
        with (firstn (S (length t)) (a :: b :: c :: t)).
      now apply forallb_firstn.
    + now rewrite Heq.
    + now rewrite Heq.
Qed.

Lemma dabs_nonneg (d : decimal) : 0 <= dmant (dabs d).
Proof. unfold dabs. cbn. lia. Qed.

(** The rounded number is within one half of the scaled number. *)
Lemma nearest_scaled_spec (x : decimal) (f : nat) :
  0 <= dmant x ->
  let n := nearest_scaled x f in
  0 <= n /\
  Z.abs (2 * (n * pow10 (dscale x) - dmant x * pow10 f)) <= pow10 (dscale x).
Proof.
  intros Hx n. subst n. unfold nearest_scaled.
  pose proof (pow10_pos (dscale x)) as Hk. pose proof (pow10_pos f) as Hf.
  set (P := pow10 (dscale x)) in *. set (F := pow10 f) in *.
  set (A := 2 * dmant x * F + P).
  assert (HA : 0 <= A) by (unfold A; nia).
  pose proof (Z.div_mod A (2 * P) ltac:(lia)) as Hdm.
  pose proof (Z.mod_pos_bound A (2 * P) ltac:(lia)) as Hmod.
  assert (Hq : 0 <= A / (2 * P)) by (apply Z.div_pos; lia).
  split; [exact Hq|]. unfold A in *. nia.
Qed.

(** The text of [toFixed(2)] for a number below 10^21: the sign, the digits
    of the integer part, a point and two digits, which write the nearest
    number of hundredths. *)
Lemma toFixed_text (d : decimal) :
  below_1e21 d = true ->
  exists ip c1 c2,
    toFixed (Fin d) 2 = sign_text d ++ ip ++ 46%N :: [c1; c2] /\
    int_part ip /\
    forallb is_digit (ip ++ [c1; c2]) = true /\
    Z.of_N (dv 0 (ip ++ [c1; c2])) = nearest_scaled (dabs d) 2.
Proof.
  intros Hb. unfold below_1e21 in Hb. apply negb_true_iff in Hb.
  unfold toFixed. rewrite Hb. cbv zeta.
  destruct (nearest_scaled_spec (dabs d) 2 (dabs_nonneg d)) as [Hn _].
  set (n := nearest_scaled (dabs d) 2) in *.
  assert (Hm : (if n =? 0 then str "0" else digits (Z.to_N n)) = digits (Z.to_N n)).
  { destruct (Z.eqb_spec n 0) as [->|]; [reflexivity|reflexivity]. }
  rewrite Hm.
  destruct (digits_spec (Z.to_N n)) as [Hne [Hdig [Hval [Hhd _]]]].
  assert (Hh : digits (Z.to_N n) = [48%N] \/
               exists c t, digits (Z.to_N n) = c :: t /\ c <> 48%N).
  { destruct (N.eq_dec (Z.to_N n) 0) as [E|E]; [left; now rewrite E|].
    right. exact (Hhd E). }
  destruct (fixed_split _ Hdig Hh) as [ip [c1 [c2 [H1 [H2 [H3 [H4 H5]]]]]]].
  cbv zeta in H1, H2.
  exists ip, c1, c2. repeat split; try assumption.
  - unfold sign_text. rewrite H1, H2. reflexivity.
  - transitivity (Z.of_N (dv 0 (digits (Z.to_N n))));
      [f_equal; exact H5|rewrite Hval; lia].
Qed.

(** The characters [parsePrice] keeps of a price that [formatPrice] wrote. *)
Lemma cleaned_formatted (sg ip fp : jsstring) :
  (sg = [] \/ sg = str "-") ->
  forallb is_digit (ip ++ fp) = true ->
  cleaned (str "S/ " ++ sg ++ ip ++ 46%N :: fp) = ip ++ 46%N :: fp.
Proof.
  intros Hsg Hd. unfold cleaned.
  assert (Hf : filter price_char (str "S/ " ++ sg ++ ip ++ 46%N :: fp)
               = ip ++ 46%N :: fp).
  { rewrite !filter_app.
    assert (filter price_char (str "S/ ") = []) as -> by reflexivity.
    assert (filter price_char sg = []) as ->
      by (destruct Hsg as [->| ->]; reflexivity).
    cbn [app]. rewrite forallb_app in Hd. apply andb_true_iff in Hd as [Hi Hp].
    rewrite filter_all.
    - f_equal. cbn [filter]. change (price_char 46%N) with true. cbn iota.
      f_equal. apply filter_all.
      apply forallb_forall. intros x Hx.
      rewrite forallb_forall in Hp. unfold price_char. now rewrite (Hp x Hx).
    - apply forallb_forall. intros x Hx.
      rewrite forallb_forall in Hi. unfold price_char. now rewrite (Hi x Hx). }
  rewrite Hf. apply replace_first_comma_none.
  rewrite forallb_app in Hd. apply andb_true_iff in Hd as [Hi Hp].
  rewrite forallb_app. apply andb_true_iff. split.
  - apply forallb_forall. intros x Hx. rewrite forallb_forall in Hi.
    specialize (Hi x Hx). unfold is_comma. unfold is_digit in Hi.
    destruct (N.eqb_spec x 44) as [->|]; [discriminate|reflexivity].
  - cbn [forallb]. change (negb (is_comma 46%N)) with true. cbn [andb].
    apply forallb_forall. intros x Hx. rewrite forallb_forall in Hp.
    specialize (Hp x Hx). unfold is_comma. unfold is_digit in Hp.
    destruct (N.eqb_spec x 44) as [->|]; [discriminate|reflexivity].
Qed.

Lemma int_part_digits (ip : jsstring) :
  int_part ip -> ip <> [] /\ forallb is_digit ip = true.
Proof.
  intros [->|[c [t [-> [_ H]]]]]; (split; [discriminate|]);
    [reflexivity|exact H].
Qed.

(** Trailing zeros of the mantissa go with the scale. *)
Lemma dnorm_scaled (m : Z) (k j : nat) :
  dnorm (Dec (m * pow10 j) (k + j)) = dnorm (Dec m k).
Proof.
  induction j as [|j IH].
  - unfold pow10. cbn [Z.of_nat Z.pow]. now rewrite Z.mul_1_r, Nat.add_0_r.
  - rewrite <- IH. unfold dnorm. cbn [dmant dscale].
    rewrite Nat.add_succ_r. cbn [dnorm_aux].
    assert (Hp : pow10 (S j) = 10 * pow10 j).
    { unfold pow10. rewrite Nat2Z.inj_succ, Z.pow_succ_r by lia. reflexivity. }
    rewrite Hp.
    replace (m * (10 * pow10 j)) with (m * pow10 j * 10) by ring.
    rewrite Z.mod_mul by lia. cbn [Z.eqb]. now rewrite Z.div_mul by lia.
Qed.

Lemma dnorm_zero (k : nat) : dnorm (Dec 0 k) = Dec 0 0.
Proof.
  unfold dnorm. cbn [dmant dscale]. induction k as [|k IH]; [reflexivity|].
  cbn [dnorm_aux]. exact IH.
Qed.

Lemma dnorm_nonzero (m : Z) (k : nat) : m <> 0 -> dmant (dnorm (Dec m k)) <> 0.
Proof.
  intros Hm E. pose proof (dnorm_aux_value m k) as H.
  unfold dnorm in E. cbn [dmant dscale] in E. rewrite E in H.
  pose proof (pow10_pos (dscale (dnorm_aux m k))). nia.
Qed.

Lemma number_or_zero_dnorm (d : decimal) :
  number_or_zero (Fin (dnorm d)) = Fin (dnorm d).
Proof.
  destruct d as [m k]. unfold number_or_zero. cbn [ToBoolean].
  destruct (Z.eq_dec m 0) as [->|Hm].
  - rewrite dnorm_zero. reflexivity.
  - pose proof (dnorm_nonzero m k Hm) as H. apply Z.eqb_neq in H.
    now rewrite H.
Qed.

(** X1: for every finite number below 10^21 in absolute value,
    [formatPrice] returns the text [S/ ], a minus sign for a negative number,
    the digits of an integer part without leading zeros, a point and exactly
    two digits; the number of hundredths these digits write is within one
    half of a hundredth of the absolute value of the number. *)
Theorem formatPrice_two_decimals (d : decimal) :
  below_1e21 d = true ->
  exists ip c1 c2,
    formatPrice (VNum (Fin d))
    = Ok (str "S/ " ++ sign_text d ++ ip ++ str "." ++ [c1; c2]) /\
    int_part ip /\
    forallb is_digit (ip ++ [c1; c2]) = true /\
    Z.abs (2 * (Z.of_N (digits_value (ip ++ [c1; c2])) * pow10 (dscale d)
                - Z.abs (dmant d) * 100))
    <= pow10 (dscale d).
Proof.
  intros Hb.
  destruct (toFixed_text d Hb) as [ip [c1 [c2 [Ht [Hip [Hd Hv]]]]]].
  exists ip, c1, c2. repeat split; try assumption.
  - unfold formatPrice. cbn [ToNumber ToPrimitive rbind prim_to_number].
    now rewrite Ht.
  - destruct (nearest_scaled_spec (dabs d) 2 (dabs_nonneg d)) as [_ H].
    cbv zeta in H. rewrite <- Hv in H. exact H.
Qed.

Lemma formatPrice_two_decimals_witness :
  below_1e21 (Dec (-12345) 1) = true /\
  exists ip c1 c2,
    formatPrice (VNum (Fin (Dec (-12345) 1)))
    = Ok (str "S/ " ++ sign_text (Dec (-12345) 1) ++ ip ++ str "." ++ [c1; c2]) /\
    int_part ip /\
    forallb is_digit (ip ++ [c1; c2]) = true /\
    Z.abs (2 * (Z.of_N (digits_value (ip ++ [c1; c2])) * pow10 1
                - Z.abs (-12345) * 100))
    <= pow10 1.
Proof.
  split; [reflexivity|].
  exact (formatPrice_two_decimals (Dec (-12345) 1) eq_refl).
Defined.

(** X2: [parsePrice] reads back the price that [formatPrice] wrote, without
    its sign: for a finite number below 10^21 it returns the nearest number
    of hundredths of the absolute value, which is the absolute value itself
    when the number has at most two decimals. *)
Theorem parsePrice_formatPrice (d : decimal) :
  below_1e21 d = true ->
  exists s,
    formatPrice (VNum (Fin d)) = Ok s /\
    parsePrice (VStr s) = Ok (Fin (dnorm (Dec (nearest_scaled (dabs d) 2) 2))) /\
    ((dscale d <= 2)%nat -> parsePrice (VStr s) = Ok (Fin (dnorm (dabs d)))).
Proof.
  intros Hb.
  destruct (toFixed_text d Hb) as [ip [c1 [c2 [Ht [Hip [Hd Hv]]]]]].
  eexists. split.
  { unfold formatPrice. cbn [ToNumber ToPrimitive rbind prim_to_number].
    rewrite Ht. reflexivity. }
  assert (Hparse :
    parsePrice (VStr (str "S/ " ++ sign_text d ++ ip ++ 46%N :: [c1; c2]))
    = Ok (Fin (dnorm (Dec (nearest_scaled (dabs d) 2) 2)))).
  { rewrite parsePrice_string, cleaned_formatted; [| |exact Hd].
    - destruct (int_part_digits ip Hip) as [Hne Hdi].
      rewrite forallb_app in Hd. apply andb_true_iff in Hd as [_ Hfp].
      rewrite parseFloat_literal by assumption.
      assert (Hmk : make_decimal false ip [c1; c2] 0
                    = dnorm (Dec (Z.of_N (dv 0 (ip ++ [c1; c2]))) 2))
        by reflexivity.
      rewrite Hmk, number_or_zero_dnorm. do 4 f_equal. exact Hv.
    - unfold sign_text. destruct (dmant d <? 0); [now right|now left]. }
  split; [exact Hparse|].
  intros Hk. rewrite Hparse. do 2 f_equal.
  assert (Hn : nearest_scaled (dabs d) 2
               = Z.abs (dmant d) * pow10 (2 - dscale d)).
  { unfold nearest_scaled, dabs. cbn [dmant dscale].
    pose proof (pow10_pos (dscale d)) as Hp.
    assert (H100 : pow10 2 = pow10 (2 - dscale d) * pow10 (dscale d)).
    { unfold pow10. rewrite <- Z.pow_add_r by lia. f_equal. lia. }
    rewrite H100.
    replace (2 * Z.abs (dmant d) * (pow10 (2 - dscale d) * pow10 (dscale d))
             + pow10 (dscale d))
      with (pow10 (dscale d)
            + Z.abs (dmant d) * pow10 (2 - dscale d) * (2 * pow10 (dscale d)))
      by ring.
    rewrite Z.div_add by lia. rewrite Z.div_small by lia. lia. }
  rewrite Hn. replace 2%nat with (dscale d + (2 - dscale d))%nat at 2 by lia.
  rewrite dnorm_scaled. reflexivity.
Qed.

Lemma parsePrice_formatPrice_witness :
  below_1e21 (Dec (-1250) 2) = true /\
  exists s,
    formatPrice (VNum (Fin (Dec (-1250) 2))) = Ok s /\
    parsePrice (VStr s)
    = Ok (Fin (dnorm (Dec (nearest_scaled (dabs (Dec (-1250) 2)) 2) 2))) /\
    ((2 <= 2)%nat -> parsePrice (VStr s) = Ok (Fin (dnorm (dabs (Dec (-1250) 2))))).
Proof.
  split; [reflexivity|].
  exact (parsePrice_formatPrice (Dec (-1250) 2) eq_refl).
Defined.

(** ** The id generator *)

(** The text of a number tells the number. *)
Lemma Number_toString_inj (a b : decimal) :
  canonical a -> canonical b ->
  Number_toString (Fin a) = Number_toString (Fin b) -> a = b.
Proof.
  intros Ha Hb E.
  pose proof (parse_number_toString a [] Ha I) as Pa.
  pose proof (parse_number_toString b [] Hb I) as Pb.
  rewrite E, Pb in Pa. now injection Pa.
Qed.

Lemma generarId_inj (c c' : Z) :
  fst (generarId c) = fst (generarId c') -> c = c'.
Proof.
  unfold generarId. cbn [fst]. intros E.
  apply app_inv_head in E.
  apply Number_toString_inj in E; try reflexivity.
  injection E. lia.
Qed.

(** Every later call works on a greater counter. *)
Lemma generarId_calls_later (n : nat) (c : Z) (id : jsstring) :
  In id (generarId_calls n c) ->
  exists c', c <= c' /\ id = fst (generarId c').
Proof.
  revert c; induction n as [|n IH]; intros c; cbn [generarId_calls].
  - intros [].
  - unfold generarId at 1. cbn [In]. intros [<-|Hin].
    + exists c. split; [lia|reflexivity].
    + destruct (IH _ Hin) as [c' [Hle ->]]. exists c'. split; [lia|reflexivity].
Qed.

(** X3: whatever the clock says when the page loads, the ids that
    [generarId] returns on its successive calls are all different. *)
Theorem generarId_never_repeats (now : Z) (n : nat) :
  NoDup (generarId_calls n (contador_inicial now)).
Proof.
  generalize (contador_inicial now) as c.
  induction n as [|n IH]; intros c; cbn [generarId_calls].
  - constructor.
  - unfold generarId at 1. constructor; [|apply IH].
    intros Hin. apply generarId_calls_later in Hin as [c' [Hle E]].
    change (str "p-" ++ Number_toString (num (c + 1))) with (fst (generarId c)) in E.
    apply generarId_inj in E. lia.
Qed.

(** ** factorial *)

Lemma dmul_int (a b : Z) : dmul (dint a) (dint b) = dint (a * b).
Proof. reflexivity. Qed.

Lemma num_sub_int (a b : Z) : num_add (num a) (num_neg (num b)) = num (a - b).
Proof.
  unfold num, dint. cbn [num_neg num_add dmant dscale].
  change (Dec (- b) 0) with (dint (- b)). change (Dec a 0) with (dint a).
  rewrite dadd_int. reflexivity.
Qed.

Lemma factorial_step_int (f : nat) (n : Z) :
  0 < n ->
  factorial (S f) (VNum (num n))
  = match factorial f (VNum (num (n - 1))) with
    | None => None
    | Some (Throw e) => Some (Throw e)
    | Some (Ok r) => Some (x <-- js_mul (VNum (num n)) r ;;; Ok (VNum x))%result
    end.
Proof.
  intros Hn. cbn [factorial].
  assert (Hlt : js_lt (VNum (num n)) (VNum (num 0)) = Ok false).
  { unfold js_lt. cbn [ToPrimitive rbind prim_less prim_to_number num num_lt].
    unfold dltb, dint, pow10. cbn [dmant dscale Z.of_nat Z.pow].
    destruct (Z.ltb_spec (n * 1) (0 * 1)); [lia|reflexivity]. }
  rewrite Hlt.
  assert (Heq : strict_equals (VNum (num n)) (VNum (num 0)) = false).
  { cbn [strict_equals num num_equal]. unfold deqb, dint, pow10.
    cbn [dmant dscale Z.of_nat Z.pow]. apply Z.eqb_neq. lia. }
  rewrite Heq.
  assert (Hsub : js_sub (VNum (num n)) (VNum (num 1)) = Ok (num (n - 1))).
  { unfold js_sub. cbn [ToNumber ToPrimitive rbind prim_to_number].
    now rewrite num_sub_int. }
  rewrite Hsub. reflexivity.
Qed.

(** X4: for every natural number [n] up to 22, [factorial(n)] returns the
    product of the numbers from 1 to [n], given room for [n + 1] nested
    calls.  (Up to 22 every product is a number that binary64 has.) *)
Theorem factorial_of_natural (n : nat) (fuel : nat) :
  (n <= 22)%nat ->
  (n < fuel)%nat ->
  factorial fuel (VNum (num (Z.of_nat n)))
  = Some (Ok (VNum (num (Z.of_nat (fact n))))).
Proof.
  intros _. revert fuel; induction n as [|n IH]; intros fuel Hf.
  - destruct fuel as [|f]; [lia|]. reflexivity.
  - destruct fuel as [|f]; [lia|].
    rewrite factorial_step_int by lia.
    replace (Z.of_nat (S n) - 1) with (Z.of_nat n) by lia.
    rewrite IH by lia.
    unfold js_mul. cbn [ToNumber ToPrimitive rbind prim_to_number].
    unfold num. cbn [num_mul]. rewrite dmul_int.
    do 5 f_equal. change (fact (S n)) with (S n * fact n)%nat.
    now rewrite Nat2Z.inj_mul.
Qed.

Lemma factorial_of_natural_witness :
  (5 <= 22)%nat /\ (5 < 6)%nat /\
  factorial 6 (VNum (num (Z.of_nat 5)))
  = Some (Ok (VNum (num (Z.of_nat (fact 5))))).
Proof.
  split; [lia|]. split; [lia|]. apply (factorial_of_natural 5 6); lia.
Defined.

Lemma js_mul_zero (d : decimal) (r : value) :
  r = VNull \/ r = VNum (num 0) ->
  js_mul (VNum (Fin d)) r = Ok (num 0).
Proof.
  intros [->| ->]; unfold js_mul; cbn [ToNumber ToPrimitive rbind prim_to_number];
    unfold num; cbn [num_mul]; unfold dmul; cbn [dint dmant dscale];
    rewrite Z.mul_0_r, dnorm_zero; reflexivity.
Qed.

(** A positive number with decimals: the recursion steps over 0, to a
    negative number, and the [null] it returns there makes every product 0. *)
Lemma factorial_steps_over_zero (k : nat) (n : nat) :
  forall (m : Z) (fuel : nat),
    m mod 10 <> 0 ->
    m < Z.of_nat n * pow10 (S k) ->
    (n < fuel)%nat ->
    factorial fuel (VNum (Fin (Dec m (S k))))
    = Some (Ok (if m <? 0 then VNull else VNum (num 0))).
Proof.
  assert (Hlt : forall m, js_lt (VNum (Fin (Dec m (S k)))) (VNum (num 0))
                          = Ok (m <? 0)).
  { intros m. unfold js_lt.
    cbn [ToPrimitive rbind prim_less prim_to_number num num_lt].
    unfold dltb, dint. cbn [dmant dscale].
    pose proof (pow10_pos (S k)) as Hp.
    change (pow10 0) with 1. rewrite Z.mul_1_r, Z.mul_0_l.
    now destruct (m <? 0). }
  induction n as [|n IH]; intros m fuel Hm Hb Hf.
  - destruct fuel as [|f]; [lia|]. cbn [factorial]. rewrite Hlt.
    destruct (Z.ltb_spec m 0); [reflexivity|lia].
  - destruct fuel as [|f]; [lia|]. cbn [factorial]. rewrite Hlt.
    destruct (Z.ltb_spec m 0) as [Hneg|Hpos]; [reflexivity|].
    assert (Heq : strict_equals (VNum (Fin (Dec m (S k)))) (VNum (num 0)) = false).
    { cbn [strict_equals num num_equal]. unfold deqb, dint.
      cbn [dmant dscale]. change (pow10 0) with 1.
      rewrite Z.mul_1_r, Z.mul_0_l. apply Z.eqb_neq. intros ->.
      now rewrite Z.mod_0_l in Hm by lia. }
    rewrite Heq.
    assert (Hsub : js_sub (VNum (Fin (Dec m (S k)))) (VNum (num 1))
                   = Ok (Fin (Dec (m - pow10 (S k)) (S k)))).
    { unfold js_sub. cbn [ToNumber ToPrimitive rbind prim_to_number].
      unfold num, dint. cbn [num_neg num_add dmant dscale]. do 2 f_equal.
      unfold dadd. cbn [dmant dscale].
      rewrite Nat.max_0_r, Nat.sub_diag, Nat.sub_0_r.
      change (pow10 0) with 1. unfold dnorm. cbn [dmant dscale dnorm_aux].
      assert (Hp : pow10 (S k) = 10 * pow10 k).
      { unfold pow10. rewrite Nat2Z.inj_succ, Z.pow_succ_r by lia. reflexivity. }
      assert (Hmod : (m * 1 + - (1) * pow10 (S k)) mod 10 = m mod 10).
      { rewrite Hp.
        replace (m * 1 + - (1) * (10 * pow10 k)) with (m + (- pow10 k) * 10)
          by ring.
        apply Z.mod_add. lia. }
      rewrite Hmod. apply Z.eqb_neq in Hm. rewrite Hm.
      f_equal. ring. }
    rewrite Hsub.
    assert (Hm' : (m - pow10 (S k)) mod 10 <> 0).
    { assert (Hp : pow10 (S k) = 10 * pow10 k).
      { unfold pow10. rewrite Nat2Z.inj_succ, Z.pow_succ_r by lia. reflexivity. }
      rewrite Hp.
      replace (m - 10 * pow10 k) with (m + (- pow10 k) * 10) by ring.
      now rewrite Z.mod_add by lia. }
    rewrite (IH (m - pow10 (S k)) f Hm') by lia.
    rewrite js_mul_zero; [reflexivity|].
    destruct (m - pow10 (S k) <? 0); [now left|now right].
Qed.

(** X5: [factorial] of a number that is no natural number.  For a negative
    number it returns null.  For a positive number that is not an integer it
    returns 0: the recursion steps over 0, and the null it meets below
    counts as 0 in every product on the way back. *)
Theorem factorial_not_natural (d : decimal) :
  canonical d ->
  (dmant d < 0 ->
   forall fuel, (0 < fuel)%nat ->
     factorial fuel (VNum (Fin d)) = Some (Ok VNull)) /\
  (0 < dmant d -> dscale d <> 0%nat ->
   exists fuel, forall fuel', (fuel <= fuel')%nat ->
     factorial fuel' (VNum (Fin d)) = Some (Ok (VNum (num 0)))).
Proof.
  intros Hc. destruct d as [m k]. cbn [dmant dscale]. split.
  - intros Hm fuel Hf. destruct fuel as [|f]; [lia|]. cbn [factorial].
    assert (Hlt : js_lt (VNum (Fin (Dec m k))) (VNum (num 0)) = Ok true).
    { unfold js_lt.
      cbn [ToPrimitive rbind prim_less prim_to_number num num_lt].
      unfold dltb, dint. cbn [dmant dscale]. pose proof (pow10_pos k).
      change (pow10 0) with 1. rewrite Z.mul_1_r, Z.mul_0_l.
      destruct (Z.ltb_spec m 0); [reflexivity|lia]. }
    now rewrite Hlt.
  - intros Hm Hk. destruct k as [|k]; [contradiction|].
    destruct (canonical_cases m (S k) Hc) as [E|Hmod]; [discriminate|].
    exists (S (Z.to_nat m + 1)). intros fuel' Hf.
    rewrite (factorial_steps_over_zero k (Z.to_nat m + 1) m fuel' Hmod).
    + destruct (Z.ltb_spec m 0); [lia|reflexivity].
    + pose proof (pow10_pos (S k)). nia.
    + lia.
Qed.

Lemma factorial_not_natural_witness :
  canonical (Dec 25 1) /\
  exists fuel, forall fuel', (fuel <= fuel')%nat ->
    factorial fuel' (VNum (Fin (Dec 25 1))) = Some (Ok (VNum (num 0))).
Proof.
  split; [reflexivity|].
  apply (factorial_not_natural (Dec 25 1) eq_refl); cbn; lia.
Defined.

(** X6: [factorial] of a value whose number is NaN or Infinity, such as
    undefined or a text that writes no number, never returns: no call
    reaches a base case, whatever the depth allowed. *)
Theorem factorial_never_returns (v : value) (fuel : nat) :
  is_primitive v = true ->
  prim_to_number v = NaN \/ prim_to_number v = Inf false ->
  factorial fuel v = None.
Proof.
  intros Hp Hn.
  assert (Hnum : forall f x, x = NaN \/ x = Inf false ->
                             factorial f (VNum x) = None).
  { induction f as [|f IH]; intros x Hx; [reflexivity|].
    destruct Hx as [->| ->]; cbn [factorial]; cbn;
      rewrite IH; auto. }
  destruct fuel as [|f]; [reflexivity|].
  cbn [factorial].
  assert (Hlt : js_lt v (VNum (num 0)) = Ok false).
  { unfold js_lt. destruct v; try discriminate; cbn in *;
      destruct Hn as [Hn|Hn]; try discriminate; try rewrite Hn; try reflexivity;
      destruct b; discriminate. }
  rewrite Hlt.
  assert (Heq : strict_equals v (VNum (num 0)) = false).
  { destruct v; try reflexivity; try discriminate. cbn in Hn.
    destruct Hn as [->| ->]; reflexivity. }
  rewrite Heq.
  assert (Hsub : exists x, js_sub v (VNum (num 1)) = Ok x /\
                           (x = NaN \/ x = Inf false)).
  { unfold js_sub, ToNumber. destruct v; try discriminate; cbn [ToPrimitive rbind];
      eexists; (split; [reflexivity|]);
      destruct Hn as [Hn|Hn]; rewrite Hn; cbn; auto. }
  destruct Hsub as [x [-> Hx]]. now rewrite (Hnum f x Hx).
Qed.

Lemma factorial_never_returns_witness :
  is_primitive VUndefined = true /\
  (prim_to_number VUndefined = NaN \/ prim_to_number VUndefined = Inf false) /\
  factorial 1000 VUndefined = None.
Proof.
  split; [reflexivity|]. split; [now left|].
  apply (factorial_never_returns VUndefined 1000); [reflexivity|now left].
Defined.

(** ** calcularDescuento *)

Lemma pow10_add_r (k j : nat) : pow10 (k + j) = pow10 k * pow10 j.
Proof. unfold pow10. rewrite Nat2Z.inj_add, Z.pow_add_r by lia. reflexivity. Qed.

Lemma dleb_dnorm_l (a d : decimal) : dleb (dnorm d) a = dleb d a.
Proof.
  destruct d as [m k]. unfold dnorm, dleb. cbn [dmant dscale].
  pose proof (dnorm_aux_value m k) as H.
  set (c := dnorm_aux m k) in *.
  pose proof (pow10_pos k). pose proof (pow10_pos (dscale c)).
  pose proof (pow10_pos (dscale a)).
  apply eq_true_iff_eq. rewrite !Z.leb_le. split; intros Hle; nia.
Qed.


Lemma dnorm_sign (d : decimal) :
  (0 <= dmant (dnorm d) <-> 0 <= dmant d) /\
  (dmant (dnorm d) = 0 <-> dmant d = 0).
Proof.
  destruct d as [m k]. unfold dnorm. cbn [dmant dscale].
  pose proof (dnorm_aux_value m k) as H.
  set (c := dnorm_aux m k) in *.
  pose proof (pow10_pos k). pose proof (pow10_pos (dscale c)).
  repeat split; intros; nia.
Qed.



(** ** The cart and its storage *)

(** A page load reads back a typed cart from the storage that holds its
    text. *)
Lemma hydrate_saved (c : Carrito) (w : World) :
  map_wf (items c) ->
  keyed (items c) ->
  Forall typed (map_values (items c)) ->
  in_sync c w ->
  fst (hydrate w) = c.
Proof.
  intros Hwf Hkeyed Htyped [Hen Hget].
  unfold hydrate, Carrito_new. rewrite loadFromStorage_unfold.
  rewrite Hen, Hget.
  pose proof (JSON_parse_cart_text c Htyped) as Hparse.
  assert (Htext : exists x t, cart_text c = x :: t).
  { unfold cart_text. rewrite json_text_array_elems. eauto. }
  destruct Htext as [x [t Htext]]. rewrite Htext in *. rewrite Hparse.
  cbv zeta. rewrite alloc_array. cbn [fst snd iterate items].
  rewrite (load_items_records _ _
             (alloc_list_records _ Htyped (next_ref w + 1)%N) []).
  - cbn [app fst items]. rewrite (keyed_entries _ Hkeyed). now destruct c.
  - cbn [app]. now rewrite (keyed_entries _ Hkeyed).
Qed.

Lemma saved_in_sync (c : Carrito) (w : World) :
  write_fails w c = false ->
  in_sync c (snd (snd (saveToStorage (c, w)))).
Proof.
  intros Hw. rewrite (saveToStorage_written c w Hw). cbn [snd].
  unfold write_fails, setItem_throws in Hw.
  apply orb_false_iff in Hw as [Hen _]. apply negb_false_iff in Hen.
  split; [exact Hen|]. cbn [store ls_items]. apply props_get_put.
Qed.

Lemma saveToStorage_cart (c : Carrito) (w : World) :
  fst (saveToStorage (c, w)) = Ok tt /\ fst (snd (saveToStorage (c, w))) = c.
Proof. destruct (saveToStorage_safe c w) as [w' ->]. now split. Qed.

(** *** Entries under their ids *)

Lemma keyed_update (id : value) (p p' : Producto) (m : jsmap Producto) :
  keyed m -> map_get id m = Some p -> getId p' = getId p ->
  keyed (map_set id p' m).
Proof.
  unfold keyed. intros Hk Hg Hid.
  induction m as [|[k v] m IH]; cbn in *; [discriminate|].
  inversion Hk as [|? ? Hkv Hm]; subst.
  destruct (SameValueZero k id).
  - injection Hg as ->. constructor; [|exact Hm]. cbn in *. congruence.
  - constructor; [exact Hkv|auto].
Qed.

Lemma keyed_insert (p : Producto) (m : jsmap Producto) :
  keyed m -> map_has (getId p) m = false -> keyed (map_set (getId p) p m).
Proof.
  intros Hk Hh. rewrite map_set_new by exact Hh.
  apply Forall_app. split; [exact Hk|]. constructor; [reflexivity|constructor].
Qed.

Lemma keyed_delete (id : value) (m : jsmap Producto) :
  keyed m -> keyed (map_delete id m).
Proof.
  unfold keyed. induction m as [|[k v] m IH]; cbn; intros Hk; [constructor|].
  inversion Hk; subst.
  destruct (SameValueZero k id); [assumption|constructor; auto].
Qed.

(** *** Typed carts stay typed *)

Lemma typed_set_cantidad (q : decimal) (p : Producto) :
  typed p -> canonical q -> typed (set_cantidad (VNum (Fin q)) p).
Proof. intros [id nom cat pr q0 Hpr _] Hq. now constructor. Qed.

Lemma canonical_dadd (a b : decimal) : canonical (dadd a b).
Proof. unfold canonical, dadd. apply dnorm_idem. Qed.

Lemma typed_increment (p : Producto) :
  typed p ->
  exists q, js_add (cantidad p) (VNum (num 1)) = Ok (VNum (Fin q)) /\ canonical q.
Proof.
  intros [id nom cat pr q0 _ _]. cbn [cantidad].
  exists (dadd q0 (dint 1)). split; [reflexivity|apply canonical_dadd].
Qed.

(** The cart a typed mutation leaves, and that it goes on to save it. *)
Lemma typed_mutation_saves (mu : mutation) (c : Carrito) (w : World) :
  map_wf (items c) ->
  keyed (items c) ->
  Forall typed (map_values (items c)) ->
  typed_mutation mu ->
  writes mu c = true ->
  exists c',
    run_mutation mu (c, w) = saveToStorage (c', w) /\
    map_wf (items c') /\ keyed (items c') /\
    Forall typed (map_values (items c')).
Proof.
  intros Hwf Hk Ht Hmu Hwr.
  destruct mu as [p|id|id qty|]; cbn [run_mutation typed_mutation writes] in *.
  - rewrite add_unfold. unfold add_items.
    destruct (map_has (getId p) (items c)) eqn:Hh.
    + apply map_has_get in Hh as [e He]. rewrite He.
      pose proof (map_get_values typed _ _ _ He Ht) as Hte.
      destruct (typed_increment e Hte) as [q [-> Hq]]. cbn [rbind].
      eexists. split; [reflexivity|]. cbn [items].
      split; [now apply map_set_wf|].
      split; [now apply (keyed_update _ e)|].
      apply map_set_values; [now apply typed_set_cantidad|exact Ht].
    + eexists. split; [reflexivity|]. cbn [items].
      split; [now apply map_set_wf|].
      split; [now apply keyed_insert|].
      now apply map_set_values.
  - rewrite remove_unfold. eexists. split; [reflexivity|]. cbn [items].
    split; [now apply map_delete_wf|].
    split; [now apply keyed_delete|now apply map_delete_values].
  - rewrite updateQty_unfold. apply map_has_get in Hwr as [p Hp]. rewrite Hp.
    cbv zeta. destruct Hmu as [q [-> Hq]]. rewrite js_le_number.
    destruct (match num_lt (num 0) (Fin q) with Some false => true | _ => false end).
    + eexists. split; [reflexivity|]. cbn [items].
      split; [now apply map_delete_wf|].
      split; [now apply keyed_delete|now apply map_delete_values].
    + eexists. split; [reflexivity|]. cbn [items].
      split; [now apply map_set_wf|].
      split; [now apply (keyed_update _ p)|].
      apply map_set_values; [|exact Ht].
      apply typed_set_cantidad; [|exact Hq].
      exact (map_get_values typed _ _ _ Hp Ht).
  - rewrite clear_unfold. eexists. split; [reflexivity|]. cbn [items].
    split; [exact I|]. split; constructor.
Qed.

(** X8: a reload after any mutation.  For a cart of typed entries and a
    mutation with typed arguments ([add] of a typed product, [updateQty]
    with a finite number, [remove], [clear]) that reaches its write, where
    the write succeeds: the mutation returns normally, and [new Carrito()]
    on the storage it leaves builds the cart it leaves, entry by entry. *)
Theorem reload_after_mutation (mu : mutation) (c : Carrito) (w : World) :
  map_wf (items c) ->
  keyed (items c) ->
  Forall typed (map_values (items c)) ->
  typed_mutation mu ->
  writes mu c = true ->
  write_fails w (fst (snd (run_mutation mu (c, w)))) = false ->
  fst (run_mutation mu (c, w)) = Ok tt /\
  fst (hydrate (snd (snd (run_mutation mu (c, w)))))
  = fst (snd (run_mutation mu (c, w))).
Proof.
  intros Hwf Hk Ht Hmu Hwr.
  destruct (typed_mutation_saves mu c w Hwf Hk Ht Hmu Hwr)
    as [c' [-> [Hwf' [Hk' Ht']]]].
  destruct (saveToStorage_cart c' w) as [Hok Hc]. rewrite Hc. intros Hw.
  split; [exact Hok|].
  apply hydrate_saved; try assumption. now apply saved_in_sync.
Qed.

Lemma reload_after_mutation_witness :
  fst (run_mutation (MUpdateQty (VStr (str "p1")) (VNum (num 3)))
         (cart_cupcake, empty_world)) = Ok tt /\
  fst (hydrate (snd (snd (run_mutation
         (MUpdateQty (VStr (str "p1")) (VNum (num 3)))
         (cart_cupcake, empty_world)))))
  = fst (snd (run_mutation (MUpdateQty (VStr (str "p1")) (VNum (num 3)))
                (cart_cupcake, empty_world))).
Proof.
  apply (reload_after_mutation
           (MUpdateQty (VStr (str "p1")) (VNum (num 3)))
           cart_cupcake empty_world).
  - split; [reflexivity|exact I].
  - constructor; [reflexivity|constructor].
  - constructor; [apply typed_intro; reflexivity|constructor].
  - exists (dint 3). split; reflexivity.
  - reflexivity.
  - vm_compute. reflexivity.
Defined.

(** *** The other keys of the storage *)

Lemma props_get_put_other (k key v : jsstring) (l : list (jsstring * jsstring)) :
  streq k key = false ->
  props_get k (storage_put key v l) = props_get k l.
Proof.
  intros Hk. unfold storage_put. destruct (props_has key l) eqn:E.
  - clear E. induction l as [|[k0 x] l IH]; [reflexivity|].
    cbn [props_replace]. destruct (streq key k0) eqn:E0.
    + apply streq_eq in E0. subst k0. cbn [props_get]. now rewrite Hk.
    + cbn [props_get]. now rewrite IH.
  - clear E. induction l as [|[k0 x] l IH]; cbn [app props_get].
    + now rewrite Hk.
    + now rewrite IH.
Qed.

Lemma saveToStorage_other_keys (c : Carrito) (w : World) (k : jsstring) :
  streq k storage_key = false ->
  props_get k (ls_items (snd (snd (saveToStorage (c, w)))))
  = props_get k (ls_items w).
Proof.
  intros Hk. destruct (write_fails w c) eqn:E.
  - rewrite (saveToStorage_failed c w E). reflexivity.
  - rewrite (saveToStorage_written c w E). cbn [snd store ls_items].
    now apply props_get_put_other.
Qed.

(** X9: the cart owns one key of [localStorage].  Whatever the cart and the
    storage hold, [add], [remove], [updateQty] and [clear] leave what is
    stored under every other key as it was, also when they throw; and
    [loadFromStorage] writes nothing. *)
Theorem other_keys_untouched (mu : mutation) (c : Carrito) (w : World)
    (k : jsstring) :
  streq k storage_key = false ->
  props_get k (ls_items (snd (snd (run_mutation mu (c, w)))))
  = props_get k (ls_items w) /\
  ls_items (snd (snd (loadFromStorage (c, w)))) = ls_items w.
Proof.
  intros Hk. split.
  - destruct mu as [p|id|id qty|]; cbn [run_mutation].
    + rewrite add_unfold. destruct (add_items p (items c));
        [now apply saveToStorage_other_keys|reflexivity].
    + rewrite remove_unfold. now apply saveToStorage_other_keys.
    + rewrite updateQty_unfold.
      destruct (map_get id (items c)); [|reflexivity]. cbv zeta.
      destruct (js_le qty (VNum (num 0))) as [[|]|e];
        [now apply saveToStorage_other_keys..|reflexivity].
    + rewrite clear_unfold. now apply saveToStorage_other_keys.
  - rewrite loadFromStorage_unfold.
    destruct (ls_enabled w); [|reflexivity].
    destruct (props_get storage_key (ls_items w)) as [[|x raw]|];
      try reflexivity.
    destruct (JSON_parse (x :: raw)); [|reflexivity].
    cbv zeta. destruct (iterate _); [|reflexivity].
    destruct (load_items _ _) as [[e|] m]; reflexivity.
Qed.

Lemma other_keys_untouched_witness :
  streq (str "tema") storage_key = false /\
  props_get (str "tema")
    (ls_items (snd (snd (run_mutation (MAdd cupcake)
       (mkCarrito [], mkWorld true 5000000%N [(str "tema", str "oscuro")] [] 1%N)))))
  = Some (str "oscuro").
Proof.
  split; [reflexivity|].
  exact (proj1 (other_keys_untouched (MAdd cupcake) (mkCarrito [])
                  (mkWorld true 5000000%N [(str "tema", str "oscuro")] [] 1%N)
                  (str "tema") eq_refl)).
Defined.

(** *** remove *)

(** X10: [remove(id)] takes the entry of [id] out of the cart and nothing
    else.  It never throws; afterwards the cart has no entry for [id]; the
    other entries stay as they were, in their order; and a second
    [remove(id)] changes nothing in the cart. *)
Theorem remove_deletes_one (id : value) (c : Carrito) (w w' : World) :
  map_wf (items c) ->
  let c' := fst (snd (remove id (c, w))) in
  fst (remove id (c, w)) = Ok tt /\
  map_has id (items c') = false /\
  items c' = filter (fun kv => negb (SameValueZero (fst kv) id)) (items c) /\
  fst (snd (remove id (c', w'))) = c'.
Proof.
  intros Hwf c'. subst c'. rewrite !remove_unfold.
  destruct (saveToStorage_cart (mkCarrito (map_delete id (items c))) w)
    as [Hok Hc].
  rewrite Hok, Hc. cbn [items].
  split; [reflexivity|].
  split; [now apply map_has_delete|].
  split; [now apply map_delete_filter|].
  rewrite (map_delete_absent id (map_delete id (items c)))
    by now apply map_has_delete.
  apply saveToStorage_cart.
Qed.

Lemma remove_deletes_one_witness :
  map_wf (items cart_cupcake) /\
  items (fst (snd (remove (VStr (str "p1")) (cart_cupcake, empty_world)))) = [].
Proof.
  assert (Hwf : map_wf (items cart_cupcake)) by (split; [reflexivity|exact I]).
  split; [exact Hwf|].
  destruct (remove_deletes_one (VStr (str "p1")) cart_cupcake empty_world
              empty_world Hwf) as [_ [_ [H _]]].
  rewrite H. reflexivity.
Defined.

(** ** getCount *)

Lemma num_lt_sum (a q : number) (k : Z) :
  num_lt a (num k) = Some false ->
  num_lt q (num 1) = Some false ->
  num_lt (num_add a q) (num (k + 1)) = Some false.
Proof.
  destruct a as [|s|x]; destruct q as [|t|y]; try discriminate;
    cbn [num_lt num_add num].
  - destruct s, t; try discriminate. reflexivity.
  - intros H _. exact H.
  - intros _ H. exact H.
  - intros Hx Hy. f_equal.
    injection Hx as Hx. injection Hy as Hy.
    unfold dadd. rewrite dltb_dnorm_r.
    destruct x as [mx kx]. destruct y as [my ky].
    unfold dltb, dint in *. cbn [dmant dscale] in *.
    change (pow10 0) with 1 in *. rewrite Z.mul_1_r in *.
    apply Z.ltb_ge in Hx, Hy. apply Z.ltb_ge.
    set (K := Nat.max kx ky).
    assert (Hkx : pow10 K = pow10 kx * pow10 (K - kx)).
    { rewrite <- pow10_add_r. f_equal. lia. }
    assert (Hky : pow10 K = pow10 ky * pow10 (K - ky)).
    { rewrite <- pow10_add_r. f_equal. lia. }
    pose proof (pow10_pos (K - kx)). pose proof (pow10_pos (K - ky)).
    pose proof (pow10_pos kx). pose proof (pow10_pos ky).
    assert (k * pow10 K <= mx * pow10 (K - kx)) by (rewrite Hkx; nia).
    assert (1 * pow10 K <= my * pow10 (K - ky)) by (rewrite Hky; nia).
    lia.
Qed.

Lemma sum_count_at_least (ps : list Producto) :
  Forall (fun p => qty_ge1 (cantidad p) = true) ps ->
  forall (a : number) (k : Z),
    num_lt a (num k) = Some false ->
    exists n, sum_count (VNum a) ps = Ok (VNum n) /\
              num_lt n (num (k + Z.of_nat (length ps))) = Some false.
Proof.
  induction 1 as [|p ps Hp _ IH]; intros a k Ha.
  - exists a. split; [reflexivity|]. cbn [length Z.of_nat].
    now rewrite Z.add_0_r.
  - cbn [sum_count]. destruct (cantidad p) as [| | |q| | |]; try discriminate.
    cbn [js_add ToPrimitive rbind is_string orb prim_to_number].
    cbn [qty_ge1] in Hp.
    assert (Hq : num_lt q (num 1) = Some false)
      by (destruct (num_lt q (num 1)) as [[|]|]; congruence).
    destruct (IH _ _ (num_lt_sum a q k Ha Hq)) as [n [Hn Hlt]].
    exists n. split; [exact Hn|].
    rewrite <- Hlt. do 2 f_equal. cbn [length]. lia.
Qed.

(** X11: in every cart that [add], [remove], [clear], [updateQty] with a
    quantity that is [<= 0] or at least 1, and hydration from records with
    quantities of at least 1 reach from the empty cart, [getCount] returns a
    number, and this number is at least the number of the entries. *)
Theorem getCount_at_least_entries (c : Carrito) (w : World) :
  reachable c ->
  exists n,
    getCount (c, w) = (Ok (VNum n), (c, w)) /\
    num_lt n (num (Z.of_nat (length (items c)))) = Some false.
Proof.
  intros Hr. destruct (reachable_ok c Hr) as [_ Hq].
  destruct (sum_count_at_least _ Hq (num 0) 0 eq_refl) as [n [Hn Hlt]].
  exists n. split.
  - unfold getCount. munfold. now rewrite Hn.
  - rewrite <- Hlt. do 2 f_equal. unfold map_values. rewrite length_map. lia.
Qed.

Lemma getCount_at_least_entries_witness :
  reachable cart_cupcake /\
  exists n,
    getCount (cart_cupcake, empty_world) = (Ok (VNum n), (cart_cupcake, empty_world)) /\
    num_lt n (num (Z.of_nat (length (items cart_cupcake)))) = Some false.
Proof.
  assert (Hr : reachable cart_cupcake).
  { apply (reach_step (mkCarrito []) cart_cupcake reach_new).
    exact (step_add (mkCarrito []) (VStr (str "p1")) (VStr (str "Cupcake"))
             (VNum (num 5)) VUndefined disabled_world). }
  split; [exact Hr|].
  exact (getCount_at_least_entries cart_cupcake empty_world Hr).
Defined.

(** ** The products of the page *)

Lemma make_decimal_shape (ip fp : jsstring) (e : Z) :
  canonical (make_decimal false ip fp e) /\
  0 <= dmant (make_decimal false ip fp e).
Proof.
  unfold make_decimal, canonical.
  set (m := Z.of_N (digits_value (ip ++ fp))).
  assert (Hm : 0 <= m) by (unfold m; lia).
  destruct (0 <=? e - Z.of_nat (length fp)) eqn:E.
  - split; [apply dnorm_idem|]. apply (proj2 (proj1 (dnorm_sign _))).
    cbn [dmant]. apply Z.leb_le in E.
    apply Z.mul_nonneg_nonneg; [exact Hm|]. apply Z.pow_nonneg. lia.
  - split; [apply dnorm_idem|]. apply (proj2 (proj1 (dnorm_sign _))).
    exact Hm.
Qed.

Lemma scan_unsigned_shape (s : jsstring) (n : number) (r : jsstring) :
  scan_unsigned s = Some (n, r) ->
  n = Inf false \/ exists d, n = Fin d /\ canonical d /\ 0 <= dmant d.
Proof.
  unfold scan_unsigned.
  destruct (starts_with (str "Infinity") s).
  { intros H. injection H as <- _. now left. }
  destruct (after_point (drop_while is_digit s)) as [s2|].
  - destruct (take_while is_digit s) as [|i ip];
      destruct (take_while is_digit s2) as [|g fp]; try discriminate;
      destruct (scan_exponent _) as [e s4]; intros H; injection H as <- _;
      right; eexists; (split; [reflexivity|apply make_decimal_shape]).
  - destruct (take_while is_digit s) as [|i ip]; try discriminate.
    destruct (scan_exponent _) as [e s4]. intros H. injection H as <- _.
    right. eexists. split; [reflexivity|apply make_decimal_shape].
Qed.

Lemma cleaned_price_chars (s : jsstring) :
  forallb price_char (cleaned s) = true.
Proof.
  unfold cleaned. pose proof (forallb_filter price_char s) as H.
  induction (filter price_char s) as [|c t IH]; [reflexivity|].
  cbn in H. apply andb_true_iff in H as [Hc Ht].
  cbn [replace_first_comma]. destruct (N.eqb c 44); cbn [forallb].
  - now rewrite Ht.
  - now rewrite Hc, IH.
Qed.

(** The price read from a text: a finite number that is not negative. *)
Lemma parsePrice_text (t : jsstring) :
  exists pr,
    parsePrice (VStr t) = Ok (Fin pr) /\ canonical pr /\ 0 <= dmant pr.
Proof.
  rewrite parsePrice_string.
  assert (H : exists pr, number_or_zero (parseFloat (cleaned t)) = Fin pr /\
                         canonical pr /\ 0 <= dmant pr).
  { assert (Hz : exists pr, num 0 = Fin pr /\ canonical pr /\ 0 <= dmant pr).
    { exists (dint 0). repeat split. cbn. lia. }
    pose proof (cleaned_price_chars t) as Hp.
    destruct (cleaned t) as [|c s]; [exact Hz|].
    cbn in Hp. apply andb_true_iff in Hp as [Hc _].
    rewrite parseFloat_price by exact Hc.
    destruct (scan_unsigned (c :: s)) as [[n r]|] eqn:E; [|exact Hz].
    destruct (scan_unsigned_shape _ _ _ E) as [->|[d [-> [Hd Hs]]]].
    - unfold scan_unsigned in E.
      destruct (price_char_facts c Hc) as [_ [_ [_ [HI _]]]].
      assert (Hst : starts_with (str "Infinity") (c :: s) = false).
      { cbn. rewrite N.eqb_sym in HI. cbn in HI. now rewrite HI. }
      rewrite Hst in E.
      destruct (after_point _); destruct (take_while is_digit (c :: s));
        try destruct (take_while is_digit _); try discriminate;
        destruct (scan_exponent _); discriminate.
    - unfold number_or_zero. cbn [ToBoolean].
      destruct (negb (dmant d =? 0)); [|exact Hz].
      exists d. now repeat split. }
  destruct H as [pr [-> H]]. now exists pr.
Qed.

Lemma card_product_id_shape (card : Card) (contador : Z) :
  fst (card_product_id card contador) <> [] /\
  contador <= snd (card_product_id card contador).
Proof.
  unfold card_product_id.
  destruct (card_data_id card) as [[|c s]|];
    try (cbn; split; [discriminate|lia]);
    (destruct (card_id card) as [|c s]; cbn; split; try discriminate; lia).
Qed.

Lemma map_get_app_l {V} (k : value) (v : V) (m r : jsmap V) :
  map_get k m = Some v -> map_get k (m ++ r) = Some v.
Proof.
  induction m as [|[k' v'] m IH]; cbn; [discriminate|].
  destruct (SameValueZero k' k); auto.
Qed.

Lemma descubrir_spec (cards : list Card) :
  forall (i : Z) (m : jsmap Producto) (contador : Z),
    catalogue m ->
    exists m' c',
      descubrir i cards m contador = Ok (m', c') /\
      catalogue m' /\
      (forall k p, map_get k m = Some p -> map_get k m' = Some p) /\
      contador <= c' /\
      (length m' <= length m + length cards)%nat.
Proof.
  induction cards as [|card cards IH]; intros i m contador Hm.
  - exists m, contador. cbn [descubrir length].
    split; [reflexivity|]. split; [exact Hm|]. split; [auto|]. split; lia.
  - cbn [descubrir].
    destruct (card_product_id_shape card contador) as [Hid Hc].
    destruct (card_product_id card contador) as [id c1]. cbn [fst snd] in *.
    destruct (map_has (VStr id) m) eqn:Hh.
    + destruct (IH (i + 1) m c1 Hm) as [m' [c' [-> [Hm' [Hold [Hle Hlen]]]]]].
      exists m', c'. split; [reflexivity|]. split; [exact Hm'|].
      split; [exact Hold|]. split; [lia|]. cbn [length]. lia.
    + set (nom := match card_title card with
                  | Some t => trim t
                  | None => str "Producto " ++ Number_toString (num (i + 1))
                  end).
      assert (Hpr : exists pr,
                 match card_price card with
                 | Some t => parsePrice (VStr t)
                 | None => Ok (num 0)
                 end = Ok (Fin pr) /\ canonical pr /\ 0 <= dmant pr).
      { destruct (card_price card) as [t|]; [apply parsePrice_text|].
        exists (dint 0). repeat split. cbn. lia. }
      destruct Hpr as [pr [-> [Hcan Hpos]]]. cbn [rbind].
      set (p := Producto_new (VStr id) (VStr nom) (VNum (Fin pr)) VUndefined).
      assert (Hm1 : catalogue (map_set (VStr id) p m)).
      { destruct Hm as [Hwf [Hk Hl]]. split; [now apply map_set_wf|].
        split; [exact (keyed_insert p m Hk Hh)|].
        apply map_set_values; [now constructor|exact Hl]. }
      destruct (IH (i + 1) _ c1 Hm1) as [m' [c' [-> [Hm' [Hold [Hle Hlen]]]]]].
      exists m', c'. split; [reflexivity|]. split; [exact Hm'|].
      split; [|split; [lia|]].
      * intros k q Hq. apply Hold. rewrite map_set_new by exact Hh.
        now apply map_get_app_l.
      * rewrite map_set_new in Hlen by exact Hh.
        rewrite length_app in Hlen. cbn [length] in *. lia.
Qed.

Lemma descubrir_app (pre post : list Card) :
  forall (i : Z) (m : jsmap Producto) (contador : Z),
    descubrir i (pre ++ post) m contador
    = match descubrir i pre m contador with
      | Ok (m1, c1) => descubrir (i + Z.of_nat (length pre)) post m1 c1
      | Throw e => Throw e
      end.
Proof.
  induction pre as [|card pre IH]; intros i m contador.
  - cbn [app descubrir length Z.of_nat]. now rewrite Z.add_0_r.
  - cbn [app descubrir].
    replace (i + Z.of_nat (length (card :: pre)))
      with (i + 1 + Z.of_nat (length pre)) by (cbn [length]; lia).
    destruct (card_product_id card contador) as [id c1].
    destruct (map_has (VStr id) m); [apply IH|].
    destruct (match card_price card with
              | Some t => parsePrice (VStr t)
              | None => Ok (num 0)
              end) as [pr|e]; cbn [rbind]; [apply IH|reflexivity].
Qed.

(** X12: the products [descubrirProductosEnPagina] finds on a page whose
    price texts hold at most 300 digits, points and commas each (a number of
    more than 308 digits is Infinity in binary64), whatever else the cards
    hold.  It never throws.  Every product of the map it leaves stands under
    its own id, a text that is not empty, no two alike; its name is a text,
    its price a finite number that is not negative (never NaN), its category
    [general], its quantity 1.  There are no more products than cards.  What
    the first cards of the page have put in the map stays as it is whatever
    cards follow: of two cards with one id the first decides. *)
Theorem descubrirProductosEnPagina_catalogue (pre post : list Card)
    (contador : Z) :
  forallb (price_within 300) (pre ++ post) = true ->
  exists m1 c1 m c',
    descubrirProductosEnPagina pre [] contador = Ok (m1, c1) /\
    descubrirProductosEnPagina (pre ++ post) [] contador = Ok (m, c') /\
    catalogue m /\
    (length m <= length (pre ++ post))%nat /\
    forall k p, map_get k m1 = Some p -> map_get k m = Some p.
Proof.
  intros _.
  assert (H0 : catalogue []) by (split; [exact I|split; constructor]).
  unfold descubrirProductosEnPagina. rewrite descubrir_app.
  destruct (descubrir_spec pre 0 [] contador H0)
    as [m1 [c1 [E1 [Hm1 [_ [_ Hlen1]]]]]].
  rewrite E1.
  destruct (descubrir_spec post (0 + Z.of_nat (length pre)) m1 c1 Hm1)
    as [m [c' [E [Hm [Hold [_ Hlen]]]]]].
  exists m1, c1, m, c'. split; [reflexivity|]. split; [exact E|].
  split; [exact Hm|]. split; [|exact Hold].
  rewrite length_app. cbn [length] in Hlen1. lia.
Qed.

(** A page of two cards with one id: the first has a title and a price, the
    second another price. *)
Lemma descubrirProductosEnPagina_catalogue_witness :
  forallb (price_within 300)
    ([mkCard (Some (str "t1")) [] (Some (str " Torta ")) (Some (str "S/ 45,50"))]
     ++ [mkCard (Some (str "t1")) [] None (Some (str "1"))]) = true /\
  exists m1 c1 m c',
    descubrirProductosEnPagina
      [mkCard (Some (str "t1")) [] (Some (str " Torta ")) (Some (str "S/ 45,50"))]
      [] 7 = Ok (m1, c1) /\
    descubrirProductosEnPagina
      ([mkCard (Some (str "t1")) [] (Some (str " Torta ")) (Some (str "S/ 45,50"))]
       ++ [mkCard (Some (str "t1")) [] None (Some (str "1"))])
      [] 7 = Ok (m, c') /\
    catalogue m /\
    (length m
     <= length
          ([mkCard (Some (str "t1")) [] (Some (str " Torta ")) (Some (str "S/ 45,50"))]
           ++ [mkCard (Some (str "t1")) [] None (Some (str "1"))]))%nat /\
    forall k p, map_get k m1 = Some p -> map_get k m = Some p.
Proof.
  split; [reflexivity|].
  exact (descubrirProductosEnPagina_catalogue
           [mkCard (Some (str "t1")) [] (Some (str " Torta ")) (Some (str "S/ 45,50"))]
           [mkCard (Some (str "t1")) [] None (Some (str "1"))] 7 eq_refl).
Defined.

(** ** The controls of the cart *)

Lemma strict_equals_string (a : value) (s : jsstring) :
  strict_equals a (VStr s) = SameValueZero a (VStr s).
Proof. destruct a; reflexivity. Qed.

(** In a cart whose entries stand under their ids, [find] by the id of the
    product finds the entry of the key. *)
Lemma find_keyed (id : jsstring) (m : jsmap Producto) :
  keyed m ->
  find (fun x => strict_equals (getId x) (VStr id)) (map_values m)
  = map_get (VStr id) m.
Proof.
  unfold keyed, map_values. induction 1 as [|[k p] m Hk _ IH]; [reflexivity|].
  cbn [map snd find map_get]. cbn in Hk. subst k.
  rewrite strict_equals_string.
  destruct (SameValueZero (getId p) (VStr id)); [reflexivity|exact IH].
Qed.

Lemma find_by_id_keyed (id : jsstring) (c : Carrito) (w : World) :
  keyed (items c) ->
  find_by_id (VStr id) (c, w) = (Ok (map_get (VStr id) (items c)), (c, w)).
Proof.
  intros Hk. unfold find_by_id, getItemsArray. munfold.
  now rewrite find_keyed.
Qed.

Lemma ui_entry_typed (p : Producto) : ui_entry p -> typed p.
Proof. intros [id nom cat pr n Hpr _ _]. now constructor. Qed.

Lemma ui_cart_typed (c : Carrito) :
  ui_cart c -> Forall typed (map_values (items c)).
Proof.
  intros [_ [_ H]]. eapply Forall_impl; [|exact H]. apply ui_entry_typed.
Qed.

Lemma ui_entry_qty (p : Producto) :
  ui_entry p -> exists n, 1 <= n /\ cantidad p = VNum (num n).
Proof. intros [id nom cat pr n _ _ Hn]. now exists n. Qed.

Lemma ui_entry_set (p : Producto) (n : Z) :
  ui_entry p -> 1 <= n -> ui_entry (set_cantidad (VNum (num n)) p).
Proof. intros [id nom cat pr n0 Hpr Hp _] Hn. now constructor. Qed.

Lemma js_le_int (q : Z) :
  js_le (VNum (num q)) (VNum (num 0)) = Ok (q <=? 0).
Proof.
  rewrite js_le_number. unfold num. cbn [num_lt]. unfold dltb, dint.
  cbn [dmant dscale]. change (pow10 0) with 1. rewrite !Z.mul_1_r.
  destruct (Z.ltb_spec 0 q); destruct (Z.leb_spec q 0); try lia; reflexivity.
Qed.

Lemma ui_cart_set (id : value) (p : Producto) (n : Z) (c : Carrito) :
  ui_cart c -> map_get id (items c) = Some p -> 1 <= n ->
  ui_cart (mkCarrito (map_set id (set_cantidad (VNum (num n)) p) (items c))).
Proof.
  intros [Hwf [Hk Hu]] Hp Hn. cbn [items].
  split; [now apply map_set_wf|].
  split; [now apply (keyed_update _ p)|].
  apply map_set_values; [|exact Hu].
  apply ui_entry_set; [|exact Hn]. exact (map_get_values ui_entry _ _ _ Hp Hu).
Qed.

Lemma ui_cart_delete (id : value) (c : Carrito) :
  ui_cart c -> ui_cart (mkCarrito (map_delete id (items c))).
Proof.
  intros [Hwf [Hk Hu]]. cbn [items].
  split; [now apply map_delete_wf|].
  split; [now apply keyed_delete|now apply map_delete_values].
Qed.

Lemma ui_cart_empty : ui_cart (mkCarrito []).
Proof. split; [exact I|split; constructor]. Qed.

(** [updateQty] with an integer, in a cart filled from the page. *)
Lemma updateQty_int (id : value) (p : Producto) (q : Z) (c : Carrito)
    (w : World) :
  map_get id (items c) = Some p ->
  updateQty id (VNum (num q)) (c, w)
  = saveToStorage
      (mkCarrito (if q <=? 0 then map_delete id (items c)
                  else map_set id (set_cantidad (VNum (num q)) p) (items c)), w).
Proof.
  intros Hp. rewrite updateQty_unfold, Hp. cbv zeta. rewrite js_le_int.
  destruct (q <=? 0); reflexivity.
Qed.

Lemma click_increase_unfold (id : jsstring) (c : Carrito) (w : World) :
  ui_cart c ->
  click_increase id (c, w)
  = match map_get (VStr id) (items c) with
    | None => (Ok tt, (c, w))
    | Some p =>
        saveToStorage
          (mkCarrito (map_set (VStr id)
                        (set_cantidad (VNum (num (unidades_de p + 1))) p)
                        (items c)), w)
    end.
Proof.
  intros Hc. unfold click_increase. unfold bind at 1.
  rewrite find_by_id_keyed by apply Hc.
  destruct (map_get (VStr id) (items c)) as [p|] eqn:Hp; [|reflexivity].
  destruct Hc as [_ [_ Hu]].
  destruct (ui_entry_qty p (map_get_values ui_entry _ _ _ Hp Hu)) as [n [Hn Hq]].
  unfold unidades_de. rewrite Hq. unfold bind, lift.
  cbn [js_add ToPrimitive rbind is_string orb prim_to_number].
  rewrite num_add_int. rewrite (updateQty_int _ p _ _ _ Hp).
  cbn [num dint dnorm dmant dscale dnorm_aux].
  destruct (Z.leb_spec (n + 1) 0); [lia|reflexivity].
Qed.

Lemma click_decrease_unfold (id : jsstring) (c : Carrito) (w : World) :
  ui_cart c ->
  click_decrease id (c, w)
  = match map_get (VStr id) (items c) with
    | None => (Ok tt, (c, w))
    | Some p =>
        saveToStorage
          (mkCarrito
             (if unidades_de p =? 1 then map_delete (VStr id) (items c)
              else map_set (VStr id)
                     (set_cantidad (VNum (num (unidades_de p - 1))) p)
                     (items c)), w)
    end.
Proof.
  intros Hc. unfold click_decrease. unfold bind at 1.
  rewrite find_by_id_keyed by apply Hc.
  destruct (map_get (VStr id) (items c)) as [p|] eqn:Hp; [|reflexivity].
  destruct Hc as [_ [_ Hu]].
  destruct (ui_entry_qty p (map_get_values ui_entry _ _ _ Hp Hu)) as [n [Hn Hq]].
  unfold unidades_de. rewrite Hq. unfold bind, lift.
  unfold js_sub. cbn [ToNumber ToPrimitive rbind prim_to_number].
  rewrite num_sub_int. rewrite (updateQty_int _ p _ _ _ Hp).
  cbn [num dint dnorm dmant dscale dnorm_aux].
  destruct (Z.leb_spec (n - 1) 0); destruct (Z.eqb_spec n 1); try lia;
    reflexivity.
Qed.

Lemma unidades_de_ui (p : Producto) : ui_entry p -> 1 <= unidades_de p.
Proof. intros [id nom cat pr n _ _ Hn]. exact Hn. Qed.

Lemma agregar_unfold (cat : jsmap Producto) (id : jsstring) (c : Carrito)
    (w : World) :
  catalogue cat -> ui_cart c ->
  agregarProductoAlCarritoDesdeBoton cat (VStr id) (c, w) = (Ok tt, (c, w)) \/
  exists c',
    agregarProductoAlCarritoDesdeBoton cat (VStr id) (c, w)
    = saveToStorage (c', w) /\ ui_cart c'.
Proof.
  intros [_ [_ Hl]] Hc. unfold agregarProductoAlCarritoDesdeBoton.
  destruct (map_get (VStr id) cat) as [p|] eqn:Hp; [|now left]. right.
  pose proof (map_get_values listed _ _ _ Hp Hl) as Hlp.
  destruct Hlp as [id0 nom pr Hid Hpr Hpos].
  cbn [getId p_id nombre precio categoria Producto_new].
  set (nuevo := mkProducto (VStr id0) (VStr nom) (VNum (Fin pr))
                  (VStr (str "general")) (VNum (num 1))).
  change (Producto_new (VStr id0) (VStr nom) (VNum (Fin pr))
            (VStr (str "general"))) with nuevo.
  assert (Hn : ui_entry nuevo) by (constructor; [assumption..|lia]).
  rewrite add_unfold. unfold add_items.
  destruct (map_has (getId nuevo) (items c)) eqn:Hh.
  - apply map_has_get in Hh as [e He]. rewrite He.
    destruct Hc as [Hwf [Hk Hu]].
    destruct (ui_entry_qty e (map_get_values ui_entry _ _ _ He Hu))
      as [n [Hn1 Hq]].
    rewrite Hq. cbn [js_add ToPrimitive rbind is_string orb prim_to_number].
    rewrite num_add_int. eexists. split; [reflexivity|].
    apply ui_cart_set; [now split|exact He|lia].
  - eexists. split; [reflexivity|]. destruct Hc as [Hwf [Hk Hu]]. cbn [items].
    split; [now apply map_set_wf|].
    split; [now apply keyed_insert|now apply map_set_values].
Qed.

(** *** The count and the total *)

Lemma sum_count_ui (ps : list Producto) :
  Forall ui_entry ps ->
  forall a : Z,
    sum_count (VNum (num a)) ps
    = Ok (VNum (num (a + fold_right (fun p s => unidades_de p + s) 0 ps))).
Proof.
  induction 1 as [|p ps Hp _ IH]; intros a; cbn [sum_count fold_right].
  - now rewrite Z.add_0_r.
  - destruct Hp as [id nom cat pr n _ _ Hn]. cbn [cantidad].
    cbn [js_add ToPrimitive rbind is_string orb prim_to_number].
    rewrite num_add_int, IH. do 3 f_equal.
    unfold unidades_de. cbn [cantidad num dint dnorm dmant dscale dnorm_aux].
    lia.
Qed.

Lemma getCount_ui (c : Carrito) (w : World) :
  ui_cart c -> getCount (c, w) = (Ok (VNum (num (unidades c))), (c, w)).
Proof.
  intros [_ [_ Hu]]. unfold getCount. munfold.
  rewrite (sum_count_ui _ Hu 0). reflexivity.
Qed.

Lemma unidades_length (ps : list Producto) :
  Forall ui_entry ps ->
  Z.of_nat (length ps) <= fold_right (fun p s => unidades_de p + s) 0 ps.
Proof.
  induction 1 as [|p ps Hp _ IH]; cbn [length fold_right]; [lia|].
  pose proof (unidades_de_ui p Hp). lia.
Qed.

Lemma dadd_nonneg (a b : decimal) :
  0 <= dmant a -> 0 <= dmant b -> 0 <= dmant (dadd a b).
Proof.
  intros Ha Hb. unfold dadd. apply (proj2 (proj1 (dnorm_sign _))).
  cbn [dmant].
  pose proof (pow10_pos (Nat.max (dscale a) (dscale b) - dscale a)).
  pose proof (pow10_pos (Nat.max (dscale a) (dscale b) - dscale b)).
  nia.
Qed.

Lemma sum_total_ui (ps : list Producto) :
  Forall ui_entry ps ->
  forall a : decimal,
    0 <= dmant a ->
    exists t, sum_total (Fin a) ps = Ok (Fin t) /\ 0 <= dmant t.
Proof.
  induction 1 as [|p ps Hp _ IH]; intros a Ha; cbn [sum_total].
  - now exists a.
  - destruct Hp as [id nom cat pr n _ Hpr Hn]. cbn [precio cantidad].
    unfold js_mul. cbn [ToNumber ToPrimitive rbind prim_to_number].
    unfold num. cbn [num_mul num_add].
    apply IH. apply dadd_nonneg; [exact Ha|].
    unfold dmul. apply (proj2 (proj1 (dnorm_sign _))). cbn [dmant dint]. nia.
Qed.

Lemma getTotal_ui (c : Carrito) (w : World) :
  ui_cart c ->
  exists t, getTotal (c, w) = (Ok (Fin t), (c, w)) /\ 0 <= dmant t.
Proof.
  intros [_ [_ Hu]].
  destruct (sum_total_ui _ Hu (dint 0) ltac:(cbn; lia)) as [t [Ht Hpos]].
  exists t. split; [|exact Hpos]. unfold getTotal. munfold.
  unfold num. now rewrite Ht.
Qed.

Lemma strict_equals_int (a : Z) :
  strict_equals (VNum (num a)) (VNum (num 0)) = (a =? 0).
Proof.
  cbn [strict_equals num num_equal]. unfold deqb, dint. cbn [dmant dscale].
  change (pow10 0) with 1. now rewrite Z.mul_1_r.
Qed.

Lemma click_checkout_unfold (c : Carrito) (w : World) :
  ui_cart c ->
  click_checkout (c, w)
  = if unidades c =? 0 then (Ok aviso_vacio, (c, w))
    else
      match getTotal (c, w) with
      | (Ok t, _) =>
          match formatPrice (VNum t) with
          | Ok f =>
              (Ok (aviso_gracias ++ f), snd (saveToStorage (mkCarrito [], w)))
          | Throw e => (Throw e, (c, w))
          end
      | (Throw e, st) => (Throw e, st)
      end.
Proof.
  intros Hc. unfold click_checkout. unfold bind at 1.
  rewrite (getCount_ui c w Hc), strict_equals_int.
  destruct (unidades c =? 0); [reflexivity|].
  destruct (getTotal_ui c w Hc) as [t [Ht _]].
  unfold bind at 1. rewrite Ht.
  unfold bind at 1. unfold lift.
  cbn [formatPrice ToNumber ToPrimitive rbind prim_to_number].
  unfold bind. rewrite clear_unfold.
  destruct (saveToStorage_safe (mkCarrito []) w) as [w' ->]. reflexivity.
Qed.

(** What a control does to a cart filled from the page: nothing, or it
    saves a cart that is again one. *)
Lemma run_evento_outcome (cat : jsmap Producto) (ev : evento) (c : Carrito)
    (w : World) :
  catalogue cat -> ui_cart c ->
  run_evento cat ev (c, w) = (Ok tt, (c, w)) \/
  exists c', run_evento cat ev (c, w) = saveToStorage (c', w) /\ ui_cart c'.
Proof.
  intros Hcat Hc. destruct ev as [id|id|id|id| |]; cbn [run_evento].
  - now apply agregar_unfold.
  - rewrite click_increase_unfold by exact Hc.
    destruct (map_get (VStr id) (items c)) as [p|] eqn:Hp; [|now left].
    right. eexists. split; [reflexivity|].
    apply ui_cart_set; [exact Hc|exact Hp|].
    destruct Hc as [_ [_ Hu]].
    pose proof (unidades_de_ui p (map_get_values ui_entry _ _ _ Hp Hu)). lia.
  - rewrite click_decrease_unfold by exact Hc.
    destruct (map_get (VStr id) (items c)) as [p|] eqn:Hp; [|now left].
    right. eexists. split; [reflexivity|].
    destruct (Z.eqb_spec (unidades_de p) 1); [now apply ui_cart_delete|].
    apply ui_cart_set; [exact Hc|exact Hp|].
    destruct Hc as [_ [_ Hu]].
    pose proof (unidades_de_ui p (map_get_values ui_entry _ _ _ Hp Hu)). lia.
  - right. unfold click_remove. rewrite remove_unfold.
    eexists. split; [reflexivity|]. now apply ui_cart_delete.
  - right. unfold click_clear. rewrite clear_unfold.
    eexists. split; [reflexivity|]. apply ui_cart_empty.
  - unfold bind. rewrite click_checkout_unfold by exact Hc.
    destruct (unidades c =? 0); [now left|]. right.
    destruct (getTotal_ui c w Hc) as [t [-> _]].
    cbn [formatPrice ToNumber ToPrimitive rbind prim_to_number].
    exists (mkCarrito []). split; [|apply ui_cart_empty].
    destruct (saveToStorage_safe (mkCarrito []) w) as [w' ->]. reflexivity.
Qed.

(** X13: the controls of the page keep the cart sound.  For the products
    found on a page and a cart whose entries are typed, with prices that
    are not negative and positive integers for quantities (as the empty cart
    is), the button of a product and the buttons [+], [-], remove, empty and
    checkout of the mini cart never throw, and the cart they leave is again
    such a cart: no quantity is ever 0, negative, fractional or not a
    number. *)
Theorem controls_keep_cart (cat : jsmap Producto) (ev : evento) (c : Carrito)
    (w : World) :
  catalogue cat ->
  ui_cart c ->
  fst (run_evento cat ev (c, w)) = Ok tt /\
  ui_cart (fst (snd (run_evento cat ev (c, w)))).
Proof.
  intros Hcat Hc.
  destruct (run_evento_outcome cat ev c w Hcat Hc) as [->|[c' [-> Hc']]].
  - now split.
  - destruct (saveToStorage_cart c' w) as [-> ->]. now split.
Qed.

(** X14: the storage follows the controls.  For a map of products with
    finite prices that are not negative, each under its own id, and a cart
    whose entries are typed, with finite prices that are not negative and
    positive integers for quantities: when the storage holds the text of
    the cart before a control is used and the write of the control does not
    fail, the storage holds the text of the cart afterwards, and a page load
    builds this very cart from it. *)
Theorem controls_keep_storage (cat : jsmap Producto) (ev : evento)
    (c : Carrito) (w : World) :
  catalogue cat ->
  ui_cart c ->
  in_sync c w ->
  write_fails w (fst (snd (run_evento cat ev (c, w)))) = false ->
  in_sync (fst (snd (run_evento cat ev (c, w))))
          (snd (snd (run_evento cat ev (c, w)))) /\
  fst (hydrate (snd (snd (run_evento cat ev (c, w)))))
  = fst (snd (run_evento cat ev (c, w))).
Proof.
  intros Hcat Hc Hs.
  destruct (run_evento_outcome cat ev c w Hcat Hc) as [->|[c' [-> Hc']]].
  - cbn [fst snd]. intros _. split; [exact Hs|].
    apply hydrate_saved; try apply Hc; [now apply ui_cart_typed|exact Hs].
  - destruct (saveToStorage_cart c' w) as [_ Hcart]. rewrite Hcart.
    intros Hw. pose proof (saved_in_sync c' w Hw) as Hs'.
    split; [exact Hs'|].
    apply hydrate_saved; try apply Hc'; [now apply ui_cart_typed|exact Hs'].
Qed.

Lemma catalogue_cupcake : catalogue [(VStr (str "p1"), cupcake)].
Proof.
  split; [split; [reflexivity|exact I]|].
  split; [constructor; [reflexivity|constructor]|].
  constructor; [|constructor].
  apply (listed_intro (str "p1") (str "Cupcake") (dint 5));
    [discriminate|reflexivity|cbn; lia].
Defined.

Lemma ui_cart_cupcake : ui_cart cart_cupcake.
Proof.
  split; [split; [reflexivity|exact I]|].
  split; [constructor; [reflexivity|constructor]|].
  constructor; [|constructor].
  apply (ui_entry_intro (str "p1") (str "Cupcake") (str "general") (dint 5) 1);
    [reflexivity|cbn; lia|lia].
Defined.

Lemma controls_keep_cart_witness :
  catalogue [(VStr (str "p1"), cupcake)] /\
  ui_cart cart_cupcake /\
  fst (run_evento [(VStr (str "p1"), cupcake)] (EAgregar (str "p1"))
         (cart_cupcake, empty_world)) = Ok tt /\
  ui_cart (fst (snd (run_evento [(VStr (str "p1"), cupcake)]
                       (EAgregar (str "p1")) (cart_cupcake, empty_world)))).
Proof.
  split; [exact catalogue_cupcake|]. split; [exact ui_cart_cupcake|].
  exact (controls_keep_cart [(VStr (str "p1"), cupcake)] (EAgregar (str "p1"))
           cart_cupcake empty_world catalogue_cupcake ui_cart_cupcake).
Defined.

Lemma controls_keep_storage_witness :
  in_sync cart_cupcake (world_with (cart_text cart_cupcake)) /\
  fst (hydrate (snd (snd (run_evento [(VStr (str "p1"), cupcake)]
                            (EDisminuir (str "p1"))
                            (cart_cupcake, world_with (cart_text cart_cupcake))))))
  = fst (snd (run_evento [(VStr (str "p1"), cupcake)] (EDisminuir (str "p1"))
                (cart_cupcake, world_with (cart_text cart_cupcake)))).
Proof.
  assert (Hs : in_sync cart_cupcake (world_with (cart_text cart_cupcake)))
    by (split; reflexivity).
  split; [exact Hs|].
  apply (controls_keep_storage [(VStr (str "p1"), cupcake)]
           (EDisminuir (str "p1")) cart_cupcake
           (world_with (cart_text cart_cupcake))
           catalogue_cupcake ui_cart_cupcake Hs).
  vm_compute. reflexivity.
Defined.

(** ** The buttons of a row *)

Lemma map_set_set {V} (k : value) (v v' : V) (m : jsmap V) :
  map_set k v' (map_set k v m) = map_set k v' m.
Proof.
  induction m as [|[k0 v0] m IH]; cbn.
  - now rewrite SameValueZero_refl.
  - destruct (SameValueZero k0 k) eqn:E; cbn; rewrite E; [reflexivity|].
    now rewrite IH.
Qed.

Lemma map_set_same {V} (k : value) (v : V) (m : jsmap V) :
  map_get k m = Some v -> map_set k v m = m.
Proof.
  induction m as [|[k0 v0] m IH]; cbn; [discriminate|].
  destruct (SameValueZero k0 k).
  - intros H. now injection H as ->.
  - intros H. now rewrite IH.
Qed.

Lemma ui_entry_own_qty (p : Producto) :
  ui_entry p -> set_cantidad (VNum (num (unidades_de p))) p = p.
Proof. intros [id nom cat pr n _ _ _]. reflexivity. Qed.

Lemma unidades_de_set (n : Z) (p : Producto) :
  unidades_de (set_cantidad (VNum (num n)) p) = n.
Proof. reflexivity. Qed.

(** X15: the buttons [+] and [-] of a row of the mini cart, in a cart filled
    from the page, for an entry whose quantity is below 2^53 (up to there
    binary64 has every integer).  A click on [-] after a click on [+] leaves
    the cart as it was before the two.  A click on [-] at the quantity 1
    takes the entry out of the cart, and a click on [+] for this id then
    does nothing: the entry does not come back. *)
Theorem increase_then_decrease (id : jsstring) (p : Producto) (c : Carrito)
    (w : World) :
  ui_cart c ->
  map_get (VStr id) (items c) = Some p ->
  unidades_de p < 2 ^ 53 ->
  fst (snd (click_decrease id (snd (click_increase id (c, w))))) = c /\
  (unidades_de p = 1 ->
   let st := snd (click_decrease id (c, w)) in
   map_has (VStr id) (items (fst st)) = false /\
   click_increase id st = (Ok tt, st)).
Proof.
  intros Hc Hp _. pose proof Hc as [Hwf [Hk Hu]].
  pose proof (map_get_values ui_entry _ _ _ Hp Hu) as Hpe.
  pose proof (unidades_de_ui p Hpe) as Hn.
  split.
  - rewrite click_increase_unfold, Hp by exact Hc.
    set (c1 := mkCarrito _).
    assert (Hc1 : ui_cart c1) by (apply ui_cart_set; [exact Hc|exact Hp|lia]).
    destruct (saveToStorage_safe c1 w) as [w1 ->]. cbn [snd].
    rewrite click_decrease_unfold by exact Hc1.
    unfold c1 at 1. cbn [items]. rewrite map_get_set.
    rewrite unidades_de_set.
    destruct (Z.eqb_spec (unidades_de p + 1) 1); [lia|].
    destruct (saveToStorage_cart
                (mkCarrito
                   (map_set (VStr id)
                      (set_cantidad (VNum (num (unidades_de p + 1 - 1)))
                         (set_cantidad (VNum (num (unidades_de p + 1))) p))
                      (items c1))) w1) as [_ ->].
    unfold c1. cbn [items]. rewrite map_set_set, set_cantidad_twice.
    replace (unidades_de p + 1 - 1) with (unidades_de p) by lia.
    rewrite (ui_entry_own_qty p Hpe), (map_set_same _ _ _ Hp).
    now destruct c.
  - intros H1 st. subst st.
    rewrite click_decrease_unfold, Hp, H1 by exact Hc. cbn [Z.eqb Pos.eqb].
    set (c1 := mkCarrito (map_delete (VStr id) (items c))).
    assert (Hc1 : ui_cart c1) by now apply ui_cart_delete.
    destruct (saveToStorage_safe c1 w) as [w1 ->]. cbn [snd fst].
    assert (Hh : map_has (VStr id) (items c1) = false)
      by (unfold c1; cbn [items]; now apply map_has_delete).
    split; [exact Hh|].
    rewrite click_increase_unfold by exact Hc1.
    apply map_get_none in Hh. now rewrite Hh.
Qed.

Lemma increase_then_decrease_witness :
  ui_cart cart_cupcake /\
  map_get (VStr (str "p1")) (items cart_cupcake) = Some cupcake /\
  unidades_de cupcake < 2 ^ 53 /\
  fst (snd (click_decrease (str "p1")
              (snd (click_increase (str "p1") (cart_cupcake, empty_world)))))
  = cart_cupcake.
Proof.
  split; [exact ui_cart_cupcake|]. split; [reflexivity|].
  split; [reflexivity|].
  exact (proj1 (increase_then_decrease (str "p1") cupcake cart_cupcake
                  empty_world ui_cart_cupcake eq_refl eq_refl)).
Defined.

(** ** The foot of the mini cart *)

Lemma unidades_positive (c : Carrito) :
  ui_cart c -> items c <> [] -> 0 < unidades c.
Proof.
  intros [_ [_ Hu]] Hne. pose proof (unidades_length _ Hu) as H.
  unfold unidades. destruct (items c) as [|kv m]; [contradiction|].
  cbn [map_values map length] in *. lia.
Qed.

Lemma nonneg_not_less (t : decimal) :
  0 <= dmant t -> num_lt (Fin t) (num 0) = Some false.
Proof.
  intros Ht. cbn [num_lt num]. f_equal. unfold dltb, dint.
  cbn [dmant dscale]. change (pow10 0) with 1. apply Z.ltb_ge. lia.
Qed.

(** X16: the checkout of a cart filled from the page.  On the empty cart it
    alerts that the cart is empty and leaves the cart, the storage and the
    console as they are.  On any other cart it alerts the thanks with the
    total, a number that is not negative and not NaN, as [formatPrice]
    writes it; the cart is empty afterwards; and where the write does not
    fail the storage holds the text of the empty cart. *)
Theorem checkout_empties_cart (c : Carrito) (w : World) :
  ui_cart c ->
  (items c = [] -> click_checkout (c, w) = (Ok aviso_vacio, (c, w))) /\
  (items c <> [] ->
   exists (t : number) (f : jsstring),
     getTotal (c, w) = (Ok t, (c, w)) /\
     num_lt t (num 0) = Some false /\
     formatPrice (VNum t) = Ok f /\
     fst (click_checkout (c, w)) = Ok (aviso_gracias ++ f) /\
     items (fst (snd (click_checkout (c, w)))) = [] /\
     (write_fails w (mkCarrito []) = false ->
      in_sync (mkCarrito []) (snd (snd (click_checkout (c, w)))))).
Proof.
  intros Hc. rewrite click_checkout_unfold by exact Hc. split.
  - intros He. unfold unidades. now rewrite He.
  - intros Hne. pose proof (unidades_positive c Hc Hne) as Hpos.
    destruct (Z.eqb_spec (unidades c) 0); [lia|].
    destruct (getTotal_ui c w Hc) as [t [Ht Ht0]]. rewrite Ht.
    exists (Fin t). eexists. split; [reflexivity|].
    split; [now apply nonneg_not_less|].
    split; [reflexivity|].
    cbn [formatPrice ToNumber ToPrimitive rbind prim_to_number fst snd].
    split; [reflexivity|].
    destruct (saveToStorage_cart (mkCarrito []) w) as [_ Hcart].
    split; [now rewrite Hcart|].
    intros Hw. now apply saved_in_sync.
Qed.

Lemma checkout_empties_cart_witness :
  ui_cart cart_cupcake /\
  exists (t : number) (f : jsstring),
    getTotal (cart_cupcake, empty_world) = (Ok t, (cart_cupcake, empty_world)) /\
    num_lt t (num 0) = Some false /\
    formatPrice (VNum t) = Ok f /\
    fst (click_checkout (cart_cupcake, empty_world)) = Ok (aviso_gracias ++ f) /\
    items (fst (snd (click_checkout (cart_cupcake, empty_world)))) = [] /\
    (write_fails empty_world (mkCarrito []) = false ->
     in_sync (mkCarrito []) (snd (snd (click_checkout (cart_cupcake, empty_world))))).
Proof.
  split; [exact ui_cart_cupcake|].
  apply (checkout_empties_cart cart_cupcake empty_world ui_cart_cupcake).
  discriminate.
Defined.

(** X17: the counter of the cart button, for a cart filled from the page
    that holds fewer than 2^53 units (up to there binary64 has every
    integer): [getCount] returns a number, the sum of the quantities of the
    entries, which is at least the number of the entries, and the counter
    shows the text of this number. *)
Theorem counter_shows_units (c : Carrito) (w : World) :
  ui_cart c ->
  unidades c < 2 ^ 53 ->
  getCount (c, w) = (Ok (VNum (num (unidades c))), (c, w)) /\
  Z.of_nat (length (items c)) <= unidades c /\
  contador_texto (c, w) = (Ok (Number_toString (num (unidades c))), (c, w)).
Proof.
  intros Hc _. split; [now apply getCount_ui|]. split.
  - destruct Hc as [_ [_ Hu]]. pose proof (unidades_length _ Hu) as H.
    unfold map_values in H. now rewrite length_map in H.
  - unfold contador_texto. unfold bind. now rewrite getCount_ui.
Qed.

Lemma counter_shows_units_witness :
  ui_cart cart_cupcake /\
  unidades cart_cupcake < 2 ^ 53 /\
  contador_texto (cart_cupcake, empty_world)
  = (Ok (Number_toString (num (unidades cart_cupcake))),
     (cart_cupcake, empty_world)).
Proof.
  split; [exact ui_cart_cupcake|]. split; [reflexivity|].
  apply (counter_shows_units cart_cupcake empty_world ui_cart_cupcake).
  reflexivity.
Defined.

(** ** The texts of a product *)

(** X18: the texts of a product found on the page whose price is below
    10^21.  [mostrarInfo] never throws and returns the name, a dash and the
    price with exactly two decimals; [getLabel] returns the name with the
    category [general] in brackets; the line of [reporteInventario] says
    that the price is not available exactly when the price is 0, and shows
    the price otherwise. *)
Theorem listed_product_texts (p : Producto) :
  listed p ->
  (forall d, precio p = VNum (Fin d) -> below_1e21 d = true) ->
  exists (nom : jsstring) (d : decimal) (ip : jsstring) (c1 c2 : char),
    nombre p = VStr nom /\ precio p = VNum (Fin d) /\
    int_part ip /\ forallb is_digit (ip ++ [c1; c2]) = true /\
    mostrarInfo p
    = Ok (nom ++ str " " ++ [em_dash] ++ str " S/ " ++ ip ++ str "." ++ [c1; c2]) /\
    getLabel p = Ok (nom ++ str " (general)") /\
    reporte_linea p
    = Ok (nom ++ str ": " ++
          (if dmant d =? 0 then str "precio no disponible"
           else str "S/ " ++ ip ++ str "." ++ [c1; c2]) ++ [10%N]).
Proof.
  intros [id nom pr Hid Hpr Hpos] Hb. cbn [precio Producto_new] in Hb.
  specialize (Hb pr eq_refl).
  destruct (toFixed_text pr Hb) as [ip [c1 [c2 [Ht [Hip [Hd _]]]]]].
  assert (Hsg : sign_text pr = []).
  { unfold sign_text. destruct (Z.ltb_spec (dmant pr) 0); [lia|reflexivity]. }
  rewrite Hsg in Ht. cbn [app] in Ht.
  exists nom, pr, ip, c1, c2.
  split; [reflexivity|]. split; [reflexivity|]. split; [exact Hip|].
  split; [exact Hd|].
  unfold mostrarInfo, getLabel, reporte_linea, formatPrice.
  cbn [nombre precio categoria Producto_new ToString ToNumber ToPrimitive
       rbind prim_to_number].
  rewrite Ht. split; [|split].
  - reflexivity.
  - reflexivity.
  - cbn [strict_equals num num_equal]. unfold deqb, dint. cbn [dmant dscale].
    change (pow10 0) with 1. rewrite Z.mul_1_r, Z.mul_0_l.
    destruct (dmant pr =? 0); reflexivity.
Qed.

Lemma listed_product_texts_witness :
  listed cupcake /\
  exists (nom : jsstring) (d : decimal) (ip : jsstring) (c1 c2 : char),
    nombre cupcake = VStr nom /\ precio cupcake = VNum (Fin d) /\
    int_part ip /\ forallb is_digit (ip ++ [c1; c2]) = true /\
    mostrarInfo cupcake
    = Ok (nom ++ str " " ++ [em_dash] ++ str " S/ " ++ ip ++ str "." ++ [c1; c2]) /\
    getLabel cupcake = Ok (nom ++ str " (general)") /\
    reporte_linea cupcake
    = Ok (nom ++ str ": " ++
          (if dmant d =? 0 then str "precio no disponible"
           else str "S/ " ++ ip ++ str "." ++ [c1; c2]) ++ [10%N]).
Proof.
  assert (Hl : listed cupcake).
  { apply (listed_intro (str "p1") (str "Cupcake") (dint 5));
      [discriminate|reflexivity|cbn; lia]. }
  split; [exact Hl|].
  apply (listed_product_texts cupcake Hl).
  intros d Hd. injection Hd as <-. reflexivity.
Defined.

(** ** reporteInventario *)

Lemma reporte_desde_app (arr : list Producto) :
  forall (reporte : jsstring) (ls : list jsstring),
    Forall2 (fun p l => reporte_linea p = Ok l) arr ls ->
    reporte_desde reporte arr = Ok (reporte ++ concat ls).
Proof.
  induction arr as [|p arr IH]; intros reporte ls H; inversion H; subst.
  - cbn. now rewrite app_nil_r.
  - cbn [reporte_desde concat]. rewrite H2. cbn [rbind].
    rewrite (IH _ _ H4). now rewrite app_assoc.
Qed.

Lemma listed_linea (p : Producto) :
  listed p -> exists l, reporte_linea p = Ok l /\ last l 0%N = 10%N.
Proof.
  intros [id nom pr _ _ _]. unfold reporte_linea, formatPrice.
  cbn [nombre precio Producto_new ToString ToNumber ToPrimitive rbind
       prim_to_number].
  destruct (strict_equals _ _); cbn [rbind]; eexists;
    (split; [reflexivity|]);
    rewrite !app_assoc; apply last_last.
Qed.

(** X19: [reporteInventario] on the products found on a page never throws;
    its report is the lines of the products one after the other, in the
    order of the map, one line for each product, each ended by a line
    feed. *)
Theorem reporteInventario_lines (m : jsmap Producto) :
  catalogue m ->
  exists ls,
    reporteInventario m = Ok (concat ls) /\
    Forall2 (fun p l => reporte_linea p = Ok l /\ last l 0%N = 10%N)
            (map_values m) ls.
Proof.
  intros [_ [_ Hl]]. unfold reporteInventario.
  assert (H : exists ls,
             Forall2 (fun p l => reporte_linea p = Ok l /\ last l 0%N = 10%N)
                     (map_values m) ls).
  { induction Hl as [|p ps Hp _ [ls IH]]; [exists []; constructor|].
    destruct (listed_linea p Hp) as [l Hl'].
    exists (l :: ls). now constructor. }
  destruct H as [ls Hls]. exists ls. split; [|exact Hls].
  rewrite (reporte_desde_app _ [] ls); [reflexivity|].
  eapply Forall2_impl; [|exact Hls]. now intros p l [H _].
Qed.

Lemma reporteInventario_lines_witness :
  catalogue [(VStr (str "p1"), cupcake)] /\
  exists ls,
    reporteInventario [(VStr (str "p1"), cupcake)] = Ok (concat ls) /\
    Forall2 (fun p l => reporte_linea p = Ok l /\ last l 0%N = 10%N)
            (map_values [(VStr (str "p1"), cupcake)]) ls.
Proof.
  split; [exact catalogue_cupcake|].
  exact (reporteInventario_lines [(VStr (str "p1"), cupcake)] catalogue_cupcake).
Defined.

(** ** The coupon *)

(** X20: a coupon of [generadorDescuentoPorCupon] for a percentage from 0 to
    100, on an amount that is not negative: its discount is not negative
    and not more than the amount; the coupon of 100 gives the amount, the
    coupon of 0 gives 0. *)
Theorem cupon_bounds (p m : decimal) :
  0 <= dmant m ->
  dleb (dint 0) p = true ->
  dleb p (dint 100) = true ->
  exists r,
    generadorDescuentoPorCupon (VNum (Fin p)) (VNum (Fin m)) = Ok (Fin r) /\
    0 <= dmant r /\
    dleb r m = true /\
    (deqb p (dint 100) = true -> r = dnorm m) /\
    (dmant p = 0 -> r = dint 0).
Proof.
  intros Hm Hp0 Hp100. destruct p as [P kp]. destruct m as [M km].
  cbn [dmant] in *.
  exists (dmul (Dec M km) (dnorm (Dec P (kp + 2)))).
  split; [reflexivity|].
  unfold dleb, dint in Hp0, Hp100. cbn [dmant dscale] in Hp0, Hp100.
  change (pow10 0) with 1 in *. rewrite Z.mul_1_r, Z.mul_0_l in *.
  apply Z.leb_le in Hp0, Hp100.
  pose proof (dnorm_aux_value P (kp + 2)) as Hv.
  assert (H2 : pow10 (kp + 2) = 100 * pow10 kp).
  { rewrite pow10_add_r. change (pow10 2) with 100. ring. }
  pose proof (pow10_pos kp) as Hkp. pose proof (pow10_pos km) as Hkm.
  change (dnorm_aux P (kp + 2)) with (dnorm (Dec P (kp + 2))) in Hv.
  set (Q := dnorm (Dec P (kp + 2))) in *.
  pose proof (pow10_pos (dscale Q)) as HQ. rewrite H2 in Hv.
  assert (HQ0 : 0 <= dmant Q) by nia.
  assert (HQ1 : dmant Q <= pow10 (dscale Q)) by nia.
  split; [|split; [|split]].
  - unfold dmul. apply (proj2 (proj1 (dnorm_sign _))). cbn [dmant]. nia.
  - unfold dmul. rewrite dleb_dnorm_l. unfold dleb. cbn [dmant dscale].
    rewrite pow10_add_r. apply Z.leb_le.
    assert (M * dmant Q <= M * pow10 (dscale Q)) by nia. nia.
  - unfold deqb, dint. cbn [dmant dscale]. rewrite Z.mul_1_r.
    intros E. apply Z.eqb_eq in E.
    assert (HQ' : Q = Dec 1 0).
    { unfold Q. rewrite E.
      replace (100 * pow10 kp) with (1 * pow10 (kp + 2)) by (rewrite H2; ring).
      change (kp + 2)%nat with (0 + (kp + 2))%nat at 2.
      now rewrite dnorm_scaled. }
    rewrite HQ'. unfold dmul. cbn [dmant dscale].
    now rewrite Z.mul_1_r, Nat.add_0_r.
  - intros ->. assert (HQ' : Q = Dec 0 0) by (unfold Q; apply dnorm_zero).
    rewrite HQ'. unfold dmul. cbn [dmant dscale].
    now rewrite Z.mul_0_r, dnorm_zero.
Qed.

Lemma cupon_bounds_witness :
  exists r,
    descuento10 (VNum (num 400)) = Ok (Fin r) /\
    0 <= dmant r /\ dleb r (dint 400) = true.
Proof.
  destruct (cupon_bounds (dint 10) (dint 400)) as [r [H1 [H2 [H3 _]]]];
    [cbn; lia|reflexivity|reflexivity|].
  exists r. auto.
Defined.

(** ** The order of the entries *)

Lemma map_set_keys_old {V} (k : value) (v : V) (m : jsmap V) :
  map_has k m = true -> map fst (map_set k v m) = map fst m.
Proof.
  induction m as [|[k0 v0] m IH]; cbn; [discriminate|].
  destruct (SameValueZero k0 k); cbn; [reflexivity|].
  intros H. now rewrite IH.
Qed.

(** X21: [add] and the order of the cart.  Whatever the cart and the product,
    and whether [add] returns or throws, the ids of the entries afterwards
    are those before in the same order, followed by the id of the product
    when the cart had no entry for it: an entry that grows keeps its place,
    a new entry goes last. *)
Theorem add_keeps_order (p : Producto) (c : Carrito) (w : World) :
  map fst (items (fst (snd (add p (c, w)))))
  = map fst (items c)
    ++ (if map_has (getId p) (items c) then [] else [getId p]).
Proof.
  rewrite add_unfold. unfold add_items.
  destruct (map_has (getId p) (items c)) eqn:Hh.
  - rewrite app_nil_r.
    destruct (map_get (getId p) (items c)) as [e|].
    + destruct (js_add (cantidad e) (VNum (num 1))) as [q|x]; cbn [rbind].
      * destruct (saveToStorage_cart
                    (mkCarrito (map_set (getId p) (set_cantidad q e) (items c))) w)
          as [_ ->].
        cbn [items]. now apply map_set_keys_old.
      * reflexivity.
    + destruct (saveToStorage_cart (mkCarrito (items c)) w) as [_ ->].
      reflexivity.
  - destruct (saveToStorage_cart
                (mkCarrito (map_set (getId p) p (items c))) w) as [_ ->].
    cbn [items]. rewrite map_set_new by exact Hh.
    now rewrite map_app.
Qed.

(** ** formatPrice and what is no number *)

Lemma Number_toString_dnorm (d : decimal) :
  Number_toString (Fin d) = Number_toString (Fin (dnorm d)).
Proof. unfold Number_toString. now rewrite dnorm_idem. Qed.

(** The text of a finite number starts with a minus sign or a digit. *)
Lemma Number_toString_head (d : decimal) :
  exists c t,
    Number_toString (Fin d) = c :: t /\ (c = 45%N \/ is_digit c = true).
Proof.
  rewrite Number_toString_dnorm.
  destruct (Number_toString_text (dnorm d) (dnorm_idem d))
    as [ip [fp [e [Ht [Hip _]]]]].
  rewrite Ht. unfold number_text.
  destruct (dmant (dnorm d) <? 0).
  - exists 45%N. eexists. split; [reflexivity|now left].
  - destruct (int_part_digits ip Hip) as [Hne Hd].
    destruct ip as [|c t]; [contradiction|].
    exists c. eexists. split; [reflexivity|].
    cbn in Hd. apply andb_true_iff in Hd as [Hc _]. now right.
Qed.

Lemma toFixed_head (d : decimal) :
  exists c t, toFixed (Fin d) 2 = c :: t /\ (c = 45%N \/ is_digit c = true).
Proof.
  destruct (below_1e21 d) eqn:Hb.
  - destruct (toFixed_text d Hb) as [ip [c1 [c2 [Ht [Hip _]]]]].
    rewrite Ht. unfold sign_text. destruct (dmant d <? 0).
    + exists 45%N. eexists. split; [reflexivity|now left].
    + destruct (int_part_digits ip Hip) as [Hne Hd].
      destruct ip as [|c t]; [contradiction|].
      exists c. eexists. split; [reflexivity|].
      cbn in Hd. apply andb_true_iff in Hd as [Hc _]. now right.
  - unfold below_1e21 in Hb. apply negb_false_iff in Hb.
    unfold toFixed. rewrite Hb. cbv zeta. destruct (dmant d <? 0).
    + exists 45%N. eexists. split; [reflexivity|now left].
    + cbn [app]. apply Number_toString_head.
Qed.

(** X22: [formatPrice] on what is no price.  For every primitive value it
    returns a text and does not throw; the text is [S/ NaN] exactly when
    the value is no number (undefined, NaN, a text that writes no number);
    null and the empty text are shown as [S/ 0.00]. *)
Theorem formatPrice_not_a_number (v : value) :
  is_primitive v = true ->
  exists s,
    formatPrice v = Ok s /\
    (s = str "S/ NaN" <-> prim_to_number v = NaN) /\
    formatPrice VNull = Ok (str "S/ 0.00") /\
    formatPrice (VStr []) = Ok (str "S/ 0.00").
Proof.
  intros Hp.
  assert (Hf : formatPrice v = Ok (str "S/ " ++ toFixed (prim_to_number v) 2))
    by (destruct v; try discriminate; reflexivity).
  eexists. split; [exact Hf|]. split; [|split; reflexivity].
  destruct (prim_to_number v) as [|s|d].
  - split; reflexivity.
  - split; [|discriminate]. destruct s; discriminate.
  - split; [|discriminate]. intros E.
    apply (app_inv_head (str "S/ ")) in E.
    destruct (toFixed_head d) as [c [t [Hc Hh]]]. rewrite Hc in E.
    injection E as -> _. destruct Hh as [Hh|Hh]; discriminate.
Qed.

Lemma formatPrice_not_a_number_witness :
  is_primitive VUndefined = true /\
  exists s,
    formatPrice VUndefined = Ok s /\
    (s = str "S/ NaN" <-> prim_to_number VUndefined = NaN).
Proof.
  split; [reflexivity|].
  destruct (formatPrice_not_a_number VUndefined eq_refl) as [s [H1 [H2 _]]].
  exists s. auto.
Defined.
